(** * Capacity engine of ooptimo_app_carga (src/app.py), shallow embedding

    Python [datetime.date] values are records of year, month and day,
    compared as Python compares them (lexicographically on the triple).
    Python floats of the capacity calculator are idealised as exact
    rationals [Q]; the task aggregator is written over an arbitrary number
    type so that it can be run both on [Q] and on IEEE-754 binary64
    ([PrimFloat.float], the representation of a Python float).

    The two holiday providers used by app.py are external libraries:
    - [workalendar.europe.spain.Catalonia().holidays(year)], a list of
      dates, used by [calcular_dias_laborables_festivos];
    - [holidays.Spain(subdiv="CT")], used as a membership test by
      [calcular_dias_laborables_por_mes].
    Both are parameters of the development; [festivos_barcelona_isin]
    is the test as app.py actually runs it. *)

From Stdlib Require Import String Ascii.
From Stdlib Require Import ZArith QArith Qminmax Lqa List Bool Lia Floats Permutation Sorted.
Import ListNotations.

Open Scope Z_scope.

(** A Python float literal such as [0.1] denotes the nearest binary64
    value, as a Rocq float literal does. *)
#[global] Set Warnings "-inexact-float".

(* ------------------------------------------------------------------ *)
(** ** Calendar: Python's [datetime.date] and [calendar.monthrange] *)

Record date := mkdate { year : Z; month : Z; day : Z }.

Definition date_eqb (a b : date) : bool :=
  (year a =? year b) && (month a =? month b) && (day a =? day b).

(** [date.__le__]: comparison of the tuples [(year, month, day)]. *)
Definition date_le (a b : date) : bool :=
  (year a <? year b)
  || ((year a =? year b)
      && ((month a <? month b) || ((month a =? month b) && (day a <=? day b)))).

Definition date_lt (a b : date) : bool := date_le a b && negb (date_eqb a b).

Definition is_leap (y : Z) : bool :=
  ((y mod 4 =? 0) && negb (y mod 100 =? 0)) || (y mod 400 =? 0).

(** Second component of [calendar.monthrange(year, month)]. *)
Definition days_in_month (y m : Z) : Z :=
  if (m =? 4) || (m =? 6) || (m =? 9) || (m =? 11) then 30
  else if m =? 2 then (if is_leap y then 29 else 28)
  else 31.

(** [datetime._days_before_month]: days of the months before [m]. *)
Fixpoint days_before_month_aux (y : Z) (k : nat) : Z :=
  match k with
  | O => 0
  | S k' => days_before_month_aux y k' + days_in_month y (Z.of_nat k)
  end.

Definition days_before_month (y m : Z) : Z :=
  days_before_month_aux y (Z.to_nat (m - 1)).

(** [datetime._days_before_year]. *)
Definition days_before_year (y : Z) : Z :=
  let y1 := y - 1 in y1 * 365 + y1 / 4 - y1 / 100 + y1 / 400.

(** [date.toordinal]: 0001-01-01 is day 1. *)
Definition toordinal (d : date) : Z :=
  days_before_year (year d) + days_before_month (year d) (month d) + day d.

(** [date.weekday]: Monday is 0, Sunday is 6. *)
Definition weekday (d : date) : Z := (toordinal d + 6) mod 7.

Definition is_weekday (d : date) : bool := weekday d <? 5.

(** [range(a, a + n)] on integers. *)
Fixpoint zseq (a : Z) (n : nat) : list Z :=
  match n with
  | O => []
  | S n' => a :: zseq (a + 1) n'
  end.

(* ------------------------------------------------------------------ *)
(** ** Calendar service: [calcular_dias_laborables_festivos] *)

Section Calendar.

(** [cal.holidays(year)] of workalendar's [Catalonia], dates only. *)
Variable cal_holidays : Z -> list date.

Definition calcular_dias_laborables_festivos (y m : Z) : Z * Z :=
  let total_days := days_in_month y m in
  let start_date := mkdate y m 1 in
  let end_date := mkdate y m total_days in
  let dias_laborables :=
    Z.of_nat (length (filter (fun k => is_weekday (mkdate y m k))
                             (zseq 1 (Z.to_nat total_days)))) in
  let festivos_laborables :=
    Z.of_nat (length (filter (fun dia => date_le start_date dia
                                         && date_le dia end_date
                                         && is_weekday dia)
                             (cal_holidays y))) in
  (dias_laborables - festivos_laborables, festivos_laborables).

(** Python's [max(a, b)]: the first argument unless the second is larger. *)
Definition py_max (a b : Q) : Q := if Qle_bool b a then a else b.

(** [calcular_horas_disponibles(year, month, dias_vacaciones,
    dias_otras_ausencias, buffer_porcentaje)]. *)
Definition calcular_horas_disponibles (y m : Z) (dias_vacaciones dias_otras_ausencias
    buffer_porcentaje : Q) : Q :=
  let dias_laborables := fst (calcular_dias_laborables_festivos y m) in
  let horas_por_dia := if m =? 8 then 7 else 8 in
  let dias_ausencia_total := (dias_vacaciones + dias_otras_ausencias)%Q in
  let horas_brutas := inject_Z (dias_laborables * horas_por_dia) in
  let horas_ausencias := (dias_ausencia_total * inject_Z horas_por_dia)%Q in
  let porcentaje_ausencia :=
    if dias_laborables >? 0 then (dias_ausencia_total / inject_Z dias_laborables)%Q
    else 1%Q in
  let buffer := ((horas_brutas - horas_ausencias) * buffer_porcentaje
                 * (1 - porcentaje_ausencia))%Q in
  py_max 0 (horas_brutas - horas_ausencias - buffer).




(** The capacity formula of the spec (section 4.4), written from its words,
    to be compared with [calcular_horas_disponibles]. *)
Definition available_hours_spec (y m : Z) (vacationDays otherAbsenceDays : Q) : Q :=
  let netBusinessDays := fst (calcular_dias_laborables_festivos y m) in
  let hoursPerDay := inject_Z (if m =? 8 then 7 else 8) in
  let grossHours := (inject_Z netBusinessDays * hoursPerDay)%Q in
  let netHours := (grossHours - (vacationDays + otherAbsenceDays) * hoursPerDay)%Q in
  let absenceFraction :=
    if 0 <? netBusinessDays
    then ((vacationDays + otherAbsenceDays) / inject_Z netBusinessDays)%Q
    else 1%Q in
  let buffer := (netHours * (1 # 10) * (1 - absenceFraction))%Q in
  Qmax 0 (netHours - buffer).

(** Count of Monday-Friday dates of a month, from the list of its dates. *)
Definition month_dates (y m : Z) : list date :=
  map (mkdate y m) (zseq 1 (Z.to_nat (days_in_month y m))).

Definition working_days (y m : Z) : Z :=
  Z.of_nat (length (filter is_weekday (month_dates y m))).

(** Count of the provider's holidays that fall on a Monday-Friday of the
    month. *)
Definition in_month (y m : Z) (d : date) : bool :=
  (year d =? y) && (month d =? m) && (1 <=? day d) && (day d <=? days_in_month y m).

Definition working_holidays (y m : Z) : Z :=
  Z.of_nat (length (filter (fun d => in_month y m d && is_weekday d) (cal_holidays y))).

End Calendar.

(* ------------------------------------------------------------------ *)
(** ** A concrete holiday provider: workalendar's [Catalonia]

    Fixed days of [WesternCalendar], [Spain] and [Catalonia], and the
    Easter-based Good Friday and Easter Monday. Used to run the
    definitions on concrete months. *)

(** Gregorian Easter Sunday (anonymous Gregorian algorithm): (month, day). *)
Definition easter (y : Z) : Z * Z :=
  let a := y mod 19 in
  let b := y / 100 in
  let c := y mod 100 in
  let d := b / 4 in
  let e := b mod 4 in
  let f := (b + 8) / 25 in
  let g := (b - f + 1) / 3 in
  let h := (19 * a + b - d - g + 15) mod 30 in
  let i := c / 4 in
  let k := c mod 4 in
  let l := (32 + 2 * e + 2 * i - h - k) mod 7 in
  let m := (a + 11 * h + 22 * l) / 451 in
  let mo := (h + l - 7 * m + 114) / 31 in
  let dy := (h + l - 7 * m + 114) mod 31 + 1 in
  (mo, dy).

Definition good_friday (y : Z) : date :=
  let (mo, dy) := easter y in
  if 2 <? dy then mkdate y mo (dy - 2) else mkdate y (mo - 1) (31 + dy - 2).

Definition easter_monday (y : Z) : date :=
  let (mo, dy) := easter y in
  if (mo =? 3) && (dy =? 31) then mkdate y 4 1 else mkdate y mo (dy + 1).

Definition catalonia_holidays (y : Z) : list date :=
  [mkdate y 1 1; mkdate y 1 6; good_friday y; easter_monday y; mkdate y 5 1;
   mkdate y 6 24; mkdate y 8 15; mkdate y 9 11; mkdate y 10 12; mkdate y 11 1;
   mkdate y 12 6; mkdate y 12 8; mkdate y 12 25; mkdate y 12 26].

(** Duplicate-free check on a list of dates. *)
Fixpoint nodup_dates (l : list date) : bool :=
  match l with
  | [] => true
  | d :: l' => negb (existsb (date_eqb d) l') && nodup_dates l'
  end.

(* ------------------------------------------------------------------ *)
(** ** Name normalizer: [normalizar_nombre] and [NOMBRE_MAPPING]

    A Python [str] is a list of Unicode code points. *)

(** ASCII text as code points. *)
Definition u (s : string) : list Z :=
  map (fun a => Z.of_nat (nat_of_ascii a)) (list_ascii_of_string s).

(** [str.isspace] / the separators of [str.split()] and [str.strip()]. *)
Definition py_isspace (c : Z) : bool :=
  ((9 <=? c) && (c <=? 13)) || ((28 <=? c) && (c <=? 32)) || (c =? 133) || (c =? 160)
  || (c =? 5760) || ((8192 <=? c) && (c <=? 8202)) || (c =? 8232) || (c =? 8233)
  || (c =? 8239) || (c =? 8287) || (c =? 12288).

(** The case data [str.lower] reads from the Unicode database: the full
    lowercase mapping of each code point that has one, and the properties
    [Cased] and [Case_Ignorable] used by the final-sigma rule. *)
Record casing := mkcasing {
  lower_map : list (Z * list Z);
  cased : Z -> bool;
  case_ignorable : Z -> bool }.

Fixpoint lookup_cp (c : Z) (t : list (Z * list Z)) : option (list Z) :=
  match t with
  | [] => None
  | (k, l) :: t' => if k =? c then Some l else lookup_cp c t'
  end.

Definition lower_char (t : casing) (c : Z) : list Z :=
  match lookup_cp c (lower_map t) with Some l => l | None => [c] end.

(** The first code point of [l] that is not case-ignorable. *)
Fixpoint first_not_ignorable (t : casing) (l : list Z) : option Z :=
  match l with
  | [] => None
  | c :: l' => if case_ignorable t c then first_not_ignorable t l' else Some c
  end.

(** CPython's [handle_capital_sigma]: the capital sigma is final when,
    case-ignorable code points skipped, a cased code point precedes it and
    none follows it. [before] is the text before it, reversed. *)
Definition final_sigma (t : casing) (before after : list Z) : bool :=
  match first_not_ignorable t before with
  | Some c =>
      cased t c && match first_not_ignorable t after with
                   | Some c' => negb (cased t c')
                   | None => true
                   end
  | None => false
  end.

(** [str.lower] ([lower_ucs4]): each code point by its lowercase mapping,
    except the capital sigma U+03A3 (931), which becomes the final sigma
    U+03C2 (962) where [final_sigma] holds and U+03C3 (963) elsewhere.
    [before] is the text already read, reversed. *)
Fixpoint py_lower_aux (t : casing) (before s : list Z) : list Z :=
  match s with
  | [] => []
  | c :: s' =>
      (if c =? 931 then [if final_sigma t before s' then 962 else 963]
       else lower_char t c) ++ py_lower_aux t (c :: before) s'
  end.

Definition py_lower (t : casing) (s : list Z) : list Z := py_lower_aux t [] s.

Fixpoint lstrip (s : list Z) : list Z :=
  match s with
  | c :: s' => if py_isspace c then lstrip s' else s
  | [] => []
  end.

(** [str.strip()]. *)
Definition py_strip (s : list Z) : list Z := rev (lstrip (rev (lstrip s))).

(** [str.split()]: the maximal runs of non-whitespace code points;
    [cur] is the current run, reversed. *)
Fixpoint py_split_aux (cur : list Z) (s : list Z) : list (list Z) :=
  match s with
  | [] => match cur with [] => [] | _ => [rev cur] end
  | c :: s' =>
      if py_isspace c
      then match cur with
           | [] => py_split_aux [] s'
           | _ => rev cur :: py_split_aux [] s'
           end
      else py_split_aux (c :: cur) s'
  end.

Definition py_split (s : list Z) : list (list Z) := py_split_aux [] s.

(** [sep.join(words)]. *)
Definition py_join (sep : list Z) (ws : list (list Z)) : list Z :=
  match ws with
  | [] => []
  | w :: ws' => w ++ concat (map (fun w' => sep ++ w') ws')
  end.

Fixpoint list_Z_eqb (a b : list Z) : bool :=
  match a, b with
  | [], [] => true
  | x :: a', y :: b' => (x =? y) && list_Z_eqb a' b'
  | _, _ => false
  end.

(** [NOMBRE_MAPPING]; 241 is U+00F1 (n with tilde), 224 is U+00E0
    (a with grave accent). *)
Definition NOMBRE_MAPPING : list (list Z * list Z) :=
  [(u "albert sunyer", u "albert sunyer vilafranca");
   (u "david collado", u "david collado preciado");
   (u "esther janer", u "esther janer roig");
   (u "vanessa due" ++ [241] ++ u "as", u "vanessa due" ++ [241] ++ u "as moga");
   (u "ariadna de angulo", u "ariadna de angulo villa");
   (u "norma vila", u "norma vila mu" ++ [241] ++ u "oz");
   (u "mar esteva", u "mar esteva fabrega");
   (u "mar esteva f" ++ [224] ++ u "brega", u "mar esteva fabrega")].

(** [dict.get(key, default)] on an association list with distinct keys. *)
Fixpoint dict_get (k : list Z) (d : list (list Z * list Z)) (default : list Z) : list Z :=
  match d with
  | [] => default
  | (k', v) :: d' => if list_Z_eqb k' k then v else dict_get k d' default
  end.

Definition normalizar_nombre (t : casing) (nombre : list Z) : list Z :=
  let nombre_norm := py_join [32] (py_split (py_strip (py_lower t nombre))) in
  dict_get nombre_norm NOMBRE_MAPPING nombre_norm.

(** Checks on case data: no code point produced by the lowercase mapping
    is itself rewritten by it; on Latin-1 (code points 0..255) the mapping
    is Python's: A-Z and U+00C0..U+00DE (except U+00D7) go to the code point
    32 above, every other Latin-1 code point is unchanged; the capital sigma
    has a mapping and the two small sigmas have none; whitespace is neither
    cased nor case-ignorable and has no mapping. *)
Definition is_key (c : Z) (t : casing) : bool :=
  match lookup_cp c (lower_map t) with Some _ => true | None => false end.

Definition lower_table_stable (t : casing) : bool :=
  forallb (fun e => forallb (fun c => negb (is_key c t)) (snd e)) (lower_map t).

Definition latin1_upper (c : Z) : bool :=
  ((65 <=? c) && (c <=? 90)) || ((192 <=? c) && (c <=? 222) && negb (c =? 215)).

Definition latin1_lower_ok (t : casing) : bool :=
  forallb (fun c => match lookup_cp c (lower_map t) with
                    | Some l => latin1_upper c && list_Z_eqb l [c + 32]
                    | None => negb (latin1_upper c)
                    end) (zseq 0 256).

Definition sigma_ok (t : casing) : bool :=
  is_key 931 t && negb (is_key 962 t) && negb (is_key 963 t).

(** The code points for which [py_isspace] holds. *)
Definition py_spaces : list Z :=
  [9; 10; 11; 12; 13; 28; 29; 30; 31; 32; 133; 160; 5760; 8192; 8193; 8194;
   8195; 8196; 8197; 8198; 8199; 8200; 8201; 8202; 8232; 8233; 8239; 8287; 12288].

Definition spaces_ok (t : casing) : bool :=
  forallb (fun c => negb (cased t c) && negb (case_ignorable t c) && negb (is_key c t))
          py_spaces.

(** Python's [Cased] and [Case_Ignorable] on Latin-1. *)
Definition latin1_cased (c : Z) : bool :=
  ((65 <=? c) && (c <=? 90)) || ((97 <=? c) && (c <=? 122)) || (c =? 170) || (c =? 181)
  || (c =? 186) || ((192 <=? c) && (c <=? 214)) || ((216 <=? c) && (c <=? 246))
  || ((248 <=? c) && (c <=? 255)).

Definition latin1_case_ignorable (c : Z) : bool :=
  existsb (Z.eqb c) [39; 46; 58; 94; 96; 168; 173; 175; 180; 183; 184].

(** The Latin-1 part of Python's case data. *)
Definition latin1_lower_table : casing :=
  mkcasing (map (fun c => (c, [c + 32])) (filter latin1_upper (zseq 0 256)))
           latin1_cased latin1_case_ignorable.

(** Python's case data on Latin-1 and the Greek letters U+0391..U+03A9 and
    U+03B1..U+03C9 (U+03A2 is unassigned): the Greek capitals map to the
    code point 32 above, and all these Greek letters are cased. *)
Definition greek_capital (c : Z) : bool :=
  (913 <=? c) && (c <=? 937) && negb (c =? 930).

Definition latin1_greek_casing : casing :=
  mkcasing (lower_map latin1_lower_table
            ++ map (fun c => (c, [c + 32])) (filter greek_capital (zseq 913 25)))
           (fun c => latin1_cased c || greek_capital c || ((945 <=? c) && (c <=? 969)))
           latin1_case_ignorable.

(* ------------------------------------------------------------------ *)
(** ** Absence classifier: [calcular_dias_laborables_por_mes] and
    [calcular_ausencias_empleado] *)

(** Python exceptions that matter to the callers: [ValueError] (with its
    pandas subclasses such as [OutOfBoundsDatetime] and [DateParseError])
    and any other exception (e.g. a [KeyError]). *)
Inductive exn := ValueError | OtherError.

Inductive res (A : Type) := Ok (a : A) | Err (e : exn).
Arguments Ok {A} a.
Arguments Err {A} e.

Definition bind {A B} (r : res A) (k : A -> res B) : res B :=
  match r with Ok a => k a | Err e => Err e end.

Notation "x <- r ;; k" := (bind r (fun x => k)) (at level 61, r at next level, right associativity).

(** A leave of the Factorial API. [None] is a key missing from the JSON
    object; the dates are the [YYYY-MM-DD] strings, read as triples
    (a triple that is not a calendar date stands for an unparseable
    string). *)
Record leave := mkleave {
  employee_full_name : option (list Z);
  start_on : option date;
  finish_on : option date;
  leave_type_id : option Z }.

Definition valid_date (d : date) : bool :=
  (1 <=? month d) && (month d <=? 12) && (1 <=? day d)
  && (day d <=? days_in_month (year d) (month d)).

(** Dates representable as a pandas 2 [Timestamp] (nanosecond resolution:
    1677-09-21 00:12:43 to 2262-04-11 23:47:16). Later pandas versions
    accept a wider range; the statements below only assume dates within
    this one. *)
Definition in_bounds (d : date) : bool :=
  date_le (mkdate 1677 9 22) d && date_le d (mkdate 2262 4 11).

(** [pd.to_datetime(ausencia[key])]: [KeyError] when the key is missing,
    [ValueError] for an unparseable or out-of-bounds date. *)
Definition to_datetime_field (raw : option date) : res date :=
  match raw with
  | None => Err OtherError
  | Some d => if valid_date d && in_bounds d then Ok d else Err ValueError
  end.

(** [pd.Period(..., freq='M')] as its ordinal: year * 12 + month - 1. *)
Definition period_m (y m : Z) : Z := y * 12 + (m - 1).

Definition period_of (d : date) : Z := period_m (year d) (month d).

Definition next_day (d : date) : date :=
  if day d <? days_in_month (year d) (month d) then mkdate (year d) (month d) (day d + 1)
  else if month d <? 12 then mkdate (year d) (month d + 1) 1
  else mkdate (year d + 1) 1 1.

(** An integer that grows with the calendar date (for valid dates). *)
Definition date_key (d : date) : Z := year d * 416 + month d * 32 + day d.

Fixpoint range_from (fuel : nat) (d f : date) : list date :=
  match fuel with
  | O => []
  | S n => if date_le d f then d :: range_from n (next_day d) f else []
  end.

(** [pd.date_range(start, end)] with daily frequency: every calendar date
    from [start] to [end], both included. Each step moves [date_key] up by
    at least one, so [date_key end - date_key start + 1] steps suffice. *)
Definition pd_date_range (start end_ : date) : list date :=
  range_from (Z.to_nat (date_key end_ - date_key start + 1)) start end_.

Section Leaves.

(** Membership in [holidays.Spain(subdiv="CT")] as [DatetimeIndex.isin]
    sees it. *)
Variable festivos_barcelona : date -> bool.
(** The lowercase table used by [str.lower]. *)
Variable lower_table : casing.

(** [calcular_dias_laborables_por_mes(inicio, fin)]: business days
    ([freq='B'], Monday to Friday) of the range that are not holidays,
    counted per month period; the resulting Series is read with
    [.get(period, 0)]. *)
Definition calcular_dias_laborables_por_mes (inicio fin : date) (p : Z) : Z :=
  let dias := filter is_weekday (pd_date_range inicio fin) in
  let dias_laborables := filter (fun d => negb (festivos_barcelona d)) dias in
  Z.of_nat (length (filter (fun d => period_of d =? p) dias_laborables)).

Definition ids_no_descuentan : list Z := [2280065].
Definition ID_VACACIONES : Z := 2276680.

(** One iteration of the loop over [all_ausencias]; the accumulator is
    [(dias_vacaciones, dias_otras_ausencias, dias_teletrabajo)]. *)
Definition ausencia_step (empleado_nombre_norm : list Z) (mes_objetivo : Z)
    (acc : Z * Z * Z) (ausencia : leave) : res (Z * Z * Z) :=
  let nombre_ausencia :=
    normalizar_nombre lower_table
      (match employee_full_name ausencia with Some n => n | None => [] end) in
  if negb (list_Z_eqb nombre_ausencia empleado_nombre_norm) then Ok acc else
  inicio <- to_datetime_field (start_on ausencia) ;;
  fin <- to_datetime_field (finish_on ausencia) ;;
  if (mes_objetivo <? period_of inicio) || (period_of fin <? mes_objetivo) then Ok acc
  else
    let dias := calcular_dias_laborables_por_mes inicio fin mes_objetivo in
    let '(dias_vacaciones, dias_otras_ausencias, dias_teletrabajo) := acc in
    match leave_type_id ausencia with
    | Some tipo_id =>
        if existsb (Z.eqb tipo_id) ids_no_descuentan
        then Ok (dias_vacaciones, dias_otras_ausencias, dias_teletrabajo + dias)
        else if tipo_id =? ID_VACACIONES
        then Ok (dias_vacaciones + dias, dias_otras_ausencias, dias_teletrabajo)
        else Ok (dias_vacaciones, dias_otras_ausencias + dias, dias_teletrabajo)
    | None => Ok (dias_vacaciones, dias_otras_ausencias + dias, dias_teletrabajo)
    end.

Fixpoint ausencias_loop (empleado_nombre_norm : list Z) (mes_objetivo : Z)
    (acc : Z * Z * Z) (ls : list leave) : res (Z * Z * Z) :=
  match ls with
  | [] => Ok acc
  | a :: ls' =>
      acc' <- ausencia_step empleado_nombre_norm mes_objetivo acc a ;;
      ausencias_loop empleado_nombre_norm mes_objetivo acc' ls'
  end.

(** [calcular_ausencias_empleado(empleado_nombre, anio, mes)]; the leaves
    fetched by [obtener_ausencias()] are the argument [all_ausencias]. *)
Definition calcular_ausencias_empleado (all_ausencias : list leave)
    (empleado_nombre : list Z) (anio mes : Z) : res (Z * Z * Z) :=
  let empleado_nombre_norm := normalizar_nombre lower_table empleado_nombre in
  let mes_objetivo := period_m anio mes in
  ausencias_loop empleado_nombre_norm mes_objetivo (0, 0, 0) all_ausencias.

End Leaves.

(** The membership test the module-level [festivos_barcelona] really
    gives. [holidays.Spain(subdiv="CT")] is built with no [years]: it is an
    empty dict that fills in a year only when a date is looked up in it
    ([in], [get], [[]]). [DatetimeIndex.isin] does not look dates up: it
    reads [list(values)], the keys of that still empty dict, and nothing
    else in app.py looks a date up in [festivos_barcelona]. So
    [dias.isin(festivos_barcelona)] is false on every day. *)
Definition festivos_barcelona_isin (d : date) : bool := false.

(** Quantities used to state the apportionment of a leave over months. *)
Section LeaveMonths.

Variable festivos_barcelona : date -> bool.
Variable lower_table : casing.

(** A working day: Monday to Friday and not a holiday. *)
Definition working_day (d : date) : bool := is_weekday d && negb (festivos_barcelona d).

(** The working days of month [(y, m)] that lie in [[s, f]], counted on the
    dates of the month. *)
Definition leave_days_in_month (s f : date) (y m : Z) : Z :=
  Z.of_nat (length (filter (fun d => working_day d && date_le s d && date_le d f)
                           (month_dates y m))).

(** The working days of the whole range [[s, f]]. *)
Definition range_working_days (s f : date) : Z :=
  Z.of_nat (length (filter working_day (pd_date_range s f))).

Definition zsum (l : list Z) : Z := fold_right Z.add 0 l.

(** The periods from the month of [s] to the month of [f]. *)
Definition months_between (s f : date) : list Z :=
  zseq (period_of s) (Z.to_nat (period_of f - period_of s + 1)).

(** Days attributed by the classifier, over its three outputs, to the
    month of period [p]; 0 if the classification fails. *)
Definition classified_days (ls : list leave) (emp : list Z) (p : Z) : Z :=
  match calcular_ausencias_empleado festivos_barcelona lower_table ls emp (p / 12) (p mod 12 + 1) with
  | Ok (v, o, t) => v + o + t
  | Err _ => 0
  end.

End LeaveMonths.

(** A calendar date. *)
Definition valid (d : date) : Prop :=
  1 <= month d <= 12 /\ 1 <= day d <= days_in_month (year d) (month d).

(* ------------------------------------------------------------------ *)
(** ** Task aggregator: the first loop of [descargar_datos] *)

(** The record [empleadosPorMes[sheet_name][colab_name]]. *)
Record empleado_mes (A : Type) := mkemp {
  horas_cargadas : A;
  horas_estimadas : A;
  vacaciones : Z;
  otras_ausencias : Z;
  teletrabajo : Z }.
Arguments mkemp {A} _ _ _ _ _.
Arguments horas_cargadas {A} _.
Arguments horas_estimadas {A} _.
Arguments vacaciones {A} _.
Arguments otras_ausencias {A} _.
Arguments teletrabajo {A} _.

(** A COR task. [datetime] is [None] when [task.get("datetime")] is
    missing or empty, otherwise the date of the parsed
    [%Y-%m-%d %H:%M:%S] timestamp; [hour_charged] and [estimated] are the
    values of [task.get(..., 0)]; a collaborator is the pair
    [(colab.get('first_name',''), colab.get('last_name',''))]. *)
Record task (A : Type) := mktask {
  datetime : option date;
  hour_charged : A;
  estimated : A;
  collaborators : list (list Z * list Z) }.
Arguments mktask {A} _ _ _ _.
Arguments datetime {A} _.
Arguments hour_charged {A} _.
Arguments estimated {A} _.
Arguments collaborators {A} _.

(** Python dicts keep insertion order: they are association lists with
    distinct keys, [d[k]] is [assoc_get], an update of [d[k]] in place is
    [assoc_update], and [if k not in d: d[k] = v] is [setdefault]. *)
Fixpoint assoc_get {K V : Type} (eqb : K -> K -> bool) (k : K) (l : list (K * V))
    : option V :=
  match l with
  | [] => None
  | (k', v) :: l' => if eqb k k' then Some v else assoc_get eqb k l'
  end.

Fixpoint assoc_update {K V : Type} (eqb : K -> K -> bool) (k : K) (f : V -> V)
    (l : list (K * V)) : list (K * V) :=
  match l with
  | [] => []
  | (k', v) :: l' => if eqb k k' then (k', f v) :: l' else (k', v) :: assoc_update eqb k f l'
  end.

Definition setdefault {K V : Type} (eqb : K -> K -> bool) (k : K) (v : V)
    (l : list (K * V)) : list (K * V) :=
  match assoc_get eqb k l with
  | Some _ => l
  | None => l ++ [(k, v)]
  end.

(** The sheet [f"{NOMBRES_MESES[month - 1]}-{year}"] is identified with
    the pair [(year, month)]: the name determines the pair, and the
    [split("-")], [int] and [NOMBRES_MESES.index] of the report builder
    give it back (no month name contains a dash). *)
Definition sheet_eqb (a b : Z * Z) : bool := (fst a =? fst b) && (snd a =? snd b).

Definition sheet (A : Type) : Type := list (list Z * empleado_mes A).
Definition empleados_por_mes (A : Type) : Type := list ((Z * Z) * sheet A).

Section Aggregator.

Variable lower_table : casing.
(** The number type of the hours, with [0.0], [+], [/], the conversion of
    the collaborator count and [60.0]. *)
Context {num : Type} (zero : num) (add div : num -> num -> num) (of_nat : nat -> num)
  (sixty : num).

Definition nuevo_empleado : empleado_mes num := mkemp zero zero 0 0 0.

(** [normalizar_nombre(f"{first_name} {last_name}".strip())]. *)
Definition colab_name (c : list Z * list Z) : list Z :=
  normalizar_nombre lower_table (py_strip (fst c ++ [32] ++ snd c)).

Definition sumar_horas (hc est : num) (r : empleado_mes num) : empleado_mes num :=
  mkemp (add (horas_cargadas r) hc) (add (horas_estimadas r) est)
        (vacaciones r) (otras_ausencias r) (teletrabajo r).

(** One iteration of [for colab in colaboradores]. *)
Definition sumar_colab (hc_por_colab est_por_colab : num) (s : sheet num)
    (colab : list Z * list Z) : sheet num :=
  let c := colab_name colab in
  assoc_update list_Z_eqb c (sumar_horas hc_por_colab est_por_colab)
    (setdefault list_Z_eqb c nuevo_empleado s).

(** One iteration of [for task in all_tasks]. *)
Definition agregar_tarea (emp : empleados_por_mes num) (tk : task num)
    : empleados_por_mes num :=
  match datetime tk with
  | None => emp
  | Some dt =>
      let sheet_name := (year dt, month dt) in
      let emp1 := setdefault sheet_eqb sheet_name [] emp in
      let colaboradores := collaborators tk in
      match colaboradores with
      | [] => emp1
      | _ :: _ =>
          let num_cols := length colaboradores in
          let hc_por_colab := div (hour_charged tk) (of_nat num_cols) in
          let est_por_colab := div (div (estimated tk) sixty) (of_nat num_cols) in
          assoc_update sheet_eqb sheet_name
            (fun s => fold_left (sumar_colab hc_por_colab est_por_colab) colaboradores s)
            emp1
      end
  end.

Definition agregar_tareas (all_tasks : list (task num)) : empleados_por_mes num :=
  fold_left agregar_tarea all_tasks [].

(** A field of an entry of a sheet ([0.0] where there is no entry). *)
Definition field_of (proj : empleado_mes num -> num) (s : sheet num) (nm : list Z) : num :=
  match assoc_get list_Z_eqb nm s with Some r => proj r | None => zero end.

(** A running total of the aggregation ([0.0] where there is no entry). *)
Definition total_of (proj : empleado_mes num -> num) (emp : empleados_por_mes num)
    (k : Z * Z) (nm : list Z) : num :=
  match assoc_get sheet_eqb k emp with
  | Some s => field_of proj s nm
  | None => zero
  end.

End Aggregator.

(** The two number types: exact rationals and binary64 floats. *)
Definition Q_of_nat (n : nat) : Q := inject_Z (Z.of_nat n).
Definition float_of_nat (n : nat) : PrimFloat.float :=
  PrimFloat.of_uint63 (Uint63.of_Z (Z.of_nat n)).

Definition agregar_tareas_Q (t : casing) (ts : list (task Q)) :=
  agregar_tareas t 0%Q Qplus Qdiv Q_of_nat (60 # 1) ts.
Definition agregar_tareas_float (t : casing) (ts : list (task PrimFloat.float)) :=
  agregar_tareas t 0%float PrimFloat.add PrimFloat.div float_of_nat 60%float ts.

(* ------------------------------------------------------------------ *)
(** ** Report builder: the second loop of [descargar_datos] *)

Section Report.

Variable festivos_barcelona : date -> bool.
Variable lower_table : casing.
Variable all_ausencias : list leave.
Context {num : Type}.

Definition fijar_ausencias (r : empleado_mes num) (vac otras tele : Z) : empleado_mes num :=
  mkemp (horas_cargadas r) (horas_estimadas r) vac otras tele.

(** [for colaborador in colaboradores: try ... except ValueError: ...]; an
    exception of another kind leaves the loop (it is caught by the
    [except Exception] around the sheet), and the remaining entries keep
    their fields. *)
Fixpoint rellenar_colaboradores (anio mes : Z) (colaboradores : sheet num) : sheet num :=
  match colaboradores with
  | [] => []
  | (colaborador, r) :: rest =>
      match calcular_ausencias_empleado festivos_barcelona lower_table all_ausencias
              colaborador anio mes with
      | Ok (vac, otras, tele) =>
          (colaborador, fijar_ausencias r vac otras tele) :: rellenar_colaboradores anio mes rest
      | Err ValueError =>
          (colaborador, fijar_ausencias r 0 0 0) :: rellenar_colaboradores anio mes rest
      | Err OtherError => colaboradores
      end
  end.

(** [for sheet_name, colaboradores in empleadosPorMes.items(): try ...
    except Exception: ...]. *)
Definition anadir_ausencias (emp : empleados_por_mes num) : empleados_por_mes num :=
  map (fun e => (fst e, rellenar_colaboradores (fst (fst e)) (snd (fst e)) (snd e))) emp.

End Report.

(* ------------------------------------------------------------------ *)
(** ** Quantities used to state the classification by leave type *)

Definition leave_matches (t : casing) (emp : list Z) (a : leave) : bool :=
  list_Z_eqb
    (normalizar_nombre t (match employee_full_name a with Some n => n | None => [] end))
    (normalizar_nombre t emp).

(** The bucket of a type id: 0 vacation (2276680), 1 other absence,
    2 remote-work credit (2280065). *)
Definition bucket_of (tipo : option Z) : nat :=
  match tipo with
  | Some i => if i =? 2280065 then 2%nat else if i =? 2276680 then 0%nat else 1%nat
  | None => 1%nat
  end.

Definition leave_month_days (fes : date -> bool) (a : leave) (y m : Z) : Z :=
  match start_on a, finish_on a with
  | Some s, Some f => leave_days_in_month fes s f y m
  | _, _ => 0
  end.

(** The in-month working days of the matching leaves of bucket [k]. *)
Definition bucket_total (fes : date -> bool) (t : casing) (emp : list Z)
    (y m : Z) (k : nat) (ls : list leave) : Z :=
  zsum (map (fun a => if leave_matches t emp a && Nat.eqb (bucket_of (leave_type_id a)) k
                      then leave_month_days fes a y m else 0) ls).

Definition count_name (nm : list Z) (l : list (list Z)) : nat :=
  length (filter (list_Z_eqb nm) l).

(** The contribution of one task to the running total of [(k, nm)]: one
    share per collaborator whose normalized name is [nm]. *)
Definition task_share (t : casing) (proj : task Q -> Q) (k : Z * Z) (nm : list Z)
    (tk : task Q) : Q :=
  match datetime tk with
  | Some dt =>
      if sheet_eqb k (year dt, month dt) then
        Q_of_nat (count_name nm (map (colab_name t) (collaborators tk)))
        * proj tk / Q_of_nat (length (collaborators tk))
      else 0
  | None => 0
  end.

Definition qsum (l : list Q) : Q := fold_right Qplus 0%Q l.

(** Sample tasks: the charged hours 0.1, 0.2 and 0.3 of one collaborator
    in March 2025, in two orders. *)
Definition tarea_f (hc : PrimFloat.float) : task PrimFloat.float :=
  mktask (Some (mkdate 2025 3 10)) hc 0%float [(u "Albert", u "Sunyer")].

Definition tareas_123 : list (task PrimFloat.float) :=
  [tarea_f 0.1%float; tarea_f 0.2%float; tarea_f 0.3%float].
Definition tareas_321 : list (task PrimFloat.float) :=
  [tarea_f 0.3%float; tarea_f 0.2%float; tarea_f 0.1%float].

(* ------------------------------------------------------------------ *)
(** ** Sample data *)

(** Holidays for the sample runs: the Catalan calendar below. *)
Definition fes_ct (d : date) : bool := existsb (date_eqb d) (catalonia_holidays (year d)).

(** A vacation from Friday 28 March to Wednesday 2 April 2025: two working
    days in March, two in April. *)
Definition leave_mar_apr : leave :=
  mkleave (Some (u "Albert Sunyer")) (Some (mkdate 2025 3 28)) (Some (mkdate 2025 4 2))
          (Some 2276680).

(** Extra remote-work day (type 2280065), Monday 3 to Wednesday 5 March
    2025. *)
Definition albert_remote : leave :=
  mkleave (Some (u "Albert Sunyer")) (Some (mkdate 2025 3 3)) (Some (mkdate 2025 3 5))
          (Some 2280065).

(** A leave whose start is the string [2025-02-30]. *)
Definition leave_feb30 : leave :=
  mkleave (Some (u "Albert Sunyer")) (Some (mkdate 2025 2 30)) (Some (mkdate 2025 3 3))
          (Some 2276680).

(** A leave of Albert Sunyer whose JSON object has no [start_on] key. *)
Definition leave_sin_inicio : leave :=
  mkleave (Some (u "Albert Sunyer")) None (Some (mkdate 2025 3 5)) (Some 2276680).

(** A vacation of Albert Sunyer from Monday 14 to Friday 25 April 2025: ten
    Monday-Friday dates, two of them (Good Friday 18 April and Easter
    Monday 21 April) Catalan holidays. *)
Definition leave_semana_santa : leave :=
  mkleave (Some (u "Albert Sunyer")) (Some (mkdate 2025 4 14)) (Some (mkdate 2025 4 25))
          (Some 2276680).

(** A vacation of Ana Ruiz from 28 March to 2 April 2025. *)
Definition leave_ana : leave :=
  mkleave (Some (u "Ana Ruiz")) (Some (mkdate 2025 3 28)) (Some (mkdate 2025 4 2))
          (Some 2276680).

(** The sheet of March 2025 with two employees, as the aggregator leaves it
    (absence fields at 0). *)
Definition hoja_marzo : sheet Q :=
  [(u "albert sunyer vilafranca", mkemp (3 # 1) 0%Q 0 0 0);
   (u "ana ruiz", mkemp (4 # 1) 0%Q 0 0 0)].

(** A task of 10 charged hours and 120 estimated minutes shared by two
    collaborators. *)
Definition tarea_10_120 : task Q :=
  mktask (Some (mkdate 2025 3 10)) (10 # 1) (120 # 1)
    [(u "Albert", u "Sunyer"); (u "Ana", u "Ruiz")].

(* ------------------------------------------------------------------ *)
(** ** Structure of the aggregated report *)

(** The names of the entries of the sheet [k] ([[]] if there is none). *)
Definition sheet_names {A : Type} (emp : empleados_por_mes A) (k : Z * Z) : list (list Z) :=
  match assoc_get sheet_eqb k emp with Some s => map fst s | None => [] end.

(* ------------------------------------------------------------------ *)
(** ** Fetch loops: the task pages of [descargar_datos] and
    [obtener_ausencias] *)

(** The value returned by [obtener_tareas_cor(access_token, page, per_page)]:
    [None] or an empty dict, a dict without the key ["data"], or a dict
    whose ["data"] is the given list ([null] reads as the empty list: both
    are falsy). *)
Inductive respuesta_cor :=
  | cor_none
  | cor_sin_data
  | cor_data (tasks : list (task Q)).

(** [t.get("hour_charged", 0) > 0 or t.get("estimated", 0) > 0]. *)
Definition tarea_con_horas (tk : task Q) : bool :=
  negb (Qle_bool (hour_charged tk) 0) || negb (Qle_bool (estimated tk) 0).

(** The [while True] loop of [descargar_datos] that fills [all_tasks], as a
    big-step relation: from [page] with [all_tasks = acc], the loop ends
    with [all_tasks = result]. *)
Inductive descargar_tareas (obtener : Z -> respuesta_cor)
    : Z -> list (task Q) -> list (task Q) -> Prop :=
  | dt_none page acc :
      obtener page = cor_none -> descargar_tareas obtener page acc acc
  | dt_sin_data page acc :
      obtener page = cor_sin_data -> descargar_tareas obtener page acc acc
  | dt_vacia page acc :
      obtener page = cor_data [] -> descargar_tareas obtener page acc acc
  | dt_pagina page acc tk tks result :
      obtener page = cor_data (tk :: tks) ->
      descargar_tareas obtener (page + 1) (acc ++ filter tarea_con_horas (tk :: tks)) result ->
      descargar_tareas obtener page acc result.

(** One request of [obtener_ausencias]: an exception ([raise_for_status],
    a timeout, ...) or the pair [(data.get('data', []), bool of
    data.get('meta', {}).get('next_page'))]. The loop as a big-step
    relation from [params['page']] with [todas_ausencias = acc]. *)
Inductive obtener_ausencias_rel (get_page : Z -> res (list leave * bool))
    : Z -> list leave -> res (list leave) -> Prop :=
  | oa_error page acc e :
      get_page page = Err e -> obtener_ausencias_rel get_page page acc (Err e)
  | oa_vacia page acc next :
      get_page page = Ok ([], next) -> obtener_ausencias_rel get_page page acc (Ok acc)
  | oa_ultima page acc a l :
      get_page page = Ok (a :: l, false) ->
      obtener_ausencias_rel get_page page acc (Ok (acc ++ a :: l))
  | oa_siguiente page acc a l r :
      get_page page = Ok (a :: l, true) ->
      obtener_ausencias_rel get_page (page + 1) (acc ++ a :: l) r ->
      obtener_ausencias_rel get_page page acc r.

(* ------------------------------------------------------------------ *)
(** ** COR credentials: the Basic header of [obtener_token_cor] *)

(** [str.encode("utf-8")] on one code point ([None]: a surrogate,
    U+D800..U+DFFF, raises [UnicodeEncodeError]). *)
Definition utf8_char (c : Z) : option (list Z) :=
  if c <? 128 then Some [c]
  else if c <? 2048 then Some [192 + c / 64; 128 + c mod 64]
  else if c <? 65536 then
    if (55296 <=? c) && (c <=? 57343) then None
    else Some [224 + c / 4096; 128 + c / 64 mod 64; 128 + c mod 64]
  else Some [240 + c / 262144; 128 + c / 4096 mod 64; 128 + c / 64 mod 64; 128 + c mod 64].

Fixpoint utf8_encode (s : list Z) : option (list Z) :=
  match s with
  | [] => Some []
  | c :: s' =>
      match utf8_char c, utf8_encode s' with
      | Some b, Some r => Some (b ++ r)
      | _, _ => None
      end
  end.

Definition b64_alphabet : list Z :=
  u "ABCDEFGHIJKLMNOPQRSTUVWXYZabcdefghijklmnopqrstuvwxyz0123456789+/".

Definition b64_char (i : Z) : Z := nth (Z.to_nat i) b64_alphabet 0.

(** [base64.b64encode]: each group of three bytes, read as a 24-bit
    number, gives four characters of six bits each; a final group of one
    or two bytes is padded with [=] (61). *)
Fixpoint b64encode (bs : list Z) : list Z :=
  match bs with
  | a :: b :: c :: rest =>
      let n := a * 65536 + b * 256 + c in
      [b64_char (n / 262144); b64_char (n / 4096 mod 64); b64_char (n / 64 mod 64);
       b64_char (n mod 64)] ++ b64encode rest
  | [a; b] =>
      let n := a * 65536 + b * 256 in
      [b64_char (n / 262144); b64_char (n / 4096 mod 64); b64_char (n / 64 mod 64); 61]
  | [a] =>
      let n := a * 65536 in
      [b64_char (n / 262144); b64_char (n / 4096 mod 64); 61; 61]
  | [] => []
  end.

(** [base64.b64encode(f"{api_key}:{client_secret}".encode("utf-8"))
    .decode("utf-8")] (58 is [:]). *)
Definition basic_creds (api_key client_secret : list Z) : option (list Z) :=
  option_map b64encode (utf8_encode (api_key ++ [58] ++ client_secret)).

(** The ["Authorization"] header of the token request. *)
Definition authorization_header (api_key client_secret : list Z) : option (list Z) :=
  option_map (fun b => u "Basic " ++ b) (basic_creds api_key client_secret).

(** Decoders, to state what the header carries: base64 decoding, UTF-8
    decoding, and the split of a [user:password] pair at its first colon
    (RFC 7617). *)
Fixpoint index_in (c : Z) (l : list Z) (i : Z) : option Z :=
  match l with
  | [] => None
  | x :: l' => if x =? c then Some i else index_in c l' (i + 1)
  end.

Definition b64_index (c : Z) : option Z := index_in c b64_alphabet 0.

Fixpoint b64decode (cs : list Z) : option (list Z) :=
  match cs with
  | [] => Some []
  | c1 :: c2 :: c3 :: c4 :: rest =>
      match b64_index c1, b64_index c2 with
      | Some i1, Some i2 =>
          if (c3 =? 61) && (c4 =? 61) then
            match rest with
            | [] => Some [(i1 * 262144 + i2 * 4096) / 65536]
            | _ => None
            end
          else
            match b64_index c3 with
            | None => None
            | Some i3 =>
                if c4 =? 61 then
                  match rest with
                  | [] => let n := i1 * 262144 + i2 * 4096 + i3 * 64 in
                          Some [n / 65536; n / 256 mod 256]
                  | _ => None
                  end
                else
                  match b64_index c4, b64decode rest with
                  | Some i4, Some r =>
                      let n := i1 * 262144 + i2 * 4096 + i3 * 64 + i4 in
                      Some ([n / 65536; n / 256 mod 256; n mod 256] ++ r)
                  | _, _ => None
                  end
            end
      | _, _ => None
      end
  | _ => None
  end.

Fixpoint utf8_decode (bs : list Z) : option (list Z) :=
  match bs with
  | [] => Some []
  | b0 :: r =>
      if b0 <? 128 then option_map (cons b0) (utf8_decode r)
      else if b0 <? 224 then
        match r with
        | b1 :: r' => option_map (cons ((b0 - 192) * 64 + (b1 - 128))) (utf8_decode r')
        | [] => None
        end
      else if b0 <? 240 then
        match r with
        | b1 :: b2 :: r' =>
            option_map (cons ((b0 - 224) * 4096 + (b1 - 128) * 64 + (b2 - 128)))
              (utf8_decode r')
        | _ => None
        end
      else
        match r with
        | b1 :: b2 :: b3 :: r' =>
            option_map (cons ((b0 - 240) * 262144 + (b1 - 128) * 4096 + (b2 - 128) * 64
                              + (b3 - 128)))
              (utf8_decode r')
        | _ => None
        end
  end.

Fixpoint split_first_colon (s : list Z) : option (list Z * list Z) :=
  match s with
  | [] => None
  | c :: s' =>
      if c =? 58 then Some ([], s')
      else option_map (fun p => (c :: fst p, snd p)) (split_first_colon s')
  end.

(** A Python [str]: code points of [0, 0x10FFFF]. *)
Definition code_point (c : Z) : Prop := 0 <= c < 1114112.

Definition is_surrogate (c : Z) : bool := (55296 <=? c) && (c <=? 57343).

(* ------------------------------------------------------------------ *)
(** ** Access check: [check_auth] (src/auth.py) *)

(** [str.endswith(suffix)]. *)
Definition py_endswith (s suffix : list Z) : bool :=
  (length suffix <=? length s)%nat && list_Z_eqb (skipn (length s - length suffix) s) suffix.

(** [user_get key info]: [info[key]] on the user-info dict, [None] for a
    missing key. A value is [None] for a JSON null. *)
Fixpoint user_get (key : string) (info : list (string * option (list Z)))
    : option (option (list Z)) :=
  match info with
  | [] => None
  | (k, v) :: info' => if String.eqb k key then Some v else user_get key info'
  end.

(** [has_user]: [hasattr(st, 'experimental_user')]; [user_info]: the dict
    behind Streamlit's user proxy [st.experimental_user]. The proxy is a
    [Mapping], false when the dict is empty; [user.email] reads
    [info["email"]] and raises [AttributeError] (here [Err OtherError])
    when the key is missing. *)
Definition check_auth (has_user : bool) (user_info : list (string * option (list Z)))
    : res bool :=
  if negb has_user then Ok false else
  match user_info with
  | [] => Ok false
  | _ :: _ =>
      match user_get "email" user_info with
      | None => Err OtherError
      | Some None => Ok false
      | Some (Some []) => Ok false
      | Some (Some email) => Ok (py_endswith email (u "@ooptimo.com"))
      end
  end.

(* ------------------------------------------------------------------ *)
(** ** Configuration: the two [Config.load_config] *)

(** The environment ([os.getenv]) and the [.env] file are maps from
    variable names to values; [load_dotenv()] does not override a variable
    already set. [st.secrets] is [None] when it is missing or raises (the
    [except Exception: pass]), else the list of its items, as strings. *)
Definition required_vars : list string :=
  ["FACTORIAL_API_KEY"; "FACTORIAL_BASE_URL"; "COR_API_KEY"; "COR_CLIENT_SECRET";
   "COR_BASE_URL"]%string.

Inductive cfg_res :=
  | CfgOk (config : list (string * option string))
  | CfgValueError (msg : string).

(** Truthiness of a configuration value: set and not empty. *)
Definition truthy (v : option string) : bool :=
  match v with Some s => negb (String.eqb s EmptyString) | None => false end.

Definition with_dotenv (env dotenv : string -> option string) (var : string) : option string :=
  match env var with Some x => Some x | None => dotenv var end.

(** [if hasattr(st, 'secrets') and st.secrets: return {key: str(value) ...}]. *)
Definition secrets_config (secrets : option (list (string * string)))
    : option (list (string * option string)) :=
  match secrets with
  | Some ((_ :: _) as l) => Some (map (fun kv => (fst kv, Some (snd kv))) l)
  | _ => None
  end.

Fixpoint cfg_get (c : list (string * option string)) (var : string) : option string :=
  match c with
  | [] => None
  | (k, v) :: c' => if String.eqb k var then v else cfg_get c' var
  end.

(** [sep.join(items)] on strings. *)
Fixpoint str_join (sep : string) (items : list string) : string :=
  match items with
  | [] => EmptyString
  | [x] => x
  | x :: items' => String.append x (String.append sep (str_join sep items'))
  end.

(** src/config.py *)
Module ConfigRoot.

Definition load_config (secrets : option (list (string * string)))
    (env : string -> option string) (dotenv_exists : bool) (dotenv : string -> option string)
    : cfg_res :=
  match secrets_config secrets with
  | Some c => CfgOk c
  | None =>
      let getenv := if dotenv_exists then with_dotenv env dotenv else env in
      let config := map (fun var => (var, getenv var)) required_vars in
      if negb (existsb (fun kv => truthy (snd kv)) config)
      then CfgValueError "No configuration found"
      else CfgOk config
  end.

End ConfigRoot.

(** src/ooptimo_app_carga/config.py *)
Module ConfigPkg.

Definition load_config (secrets : option (list (string * string)))
    (env : string -> option string) (dotenv_exists : bool) (dotenv : string -> option string)
    : cfg_res :=
  let config := map (fun var => (var, env var)) required_vars in
  if forallb (fun kv => truthy (snd kv)) config then CfgOk config else
  match secrets_config secrets with
  | Some c => CfgOk c
  | None =>
      let config :=
        if dotenv_exists then map (fun var => (var, with_dotenv env dotenv var)) required_vars
        else config in
      if dotenv_exists && forallb (fun kv => truthy (snd kv)) config then CfgOk config else
      let missing := filter (fun var => negb (truthy (cfg_get config var))) required_vars in
      CfgValueError (String.append "Missing configuration values: " (str_join ", " missing))
  end.

End ConfigPkg.

(* ------------------------------------------------------------------ *)
(** ** Dashboard: [main] *)

(** [sorted(empleados_data.keys(), key=lambda x: (int(year), NOMBRES_MESES
    .index(month)))] on the sheet keys [(year, month)]: the sort key is
    [(year, month - 1)]. Python's sort is stable, as is this insertion
    sort; both give the same list. *)
Definition mes_le (a b : Z * Z) : bool :=
  (fst a <? fst b) || ((fst a =? fst b) && (snd a - 1 <=? snd b - 1)).

Fixpoint insertar_mes (x : Z * Z) (l : list (Z * Z)) : list (Z * Z) :=
  match l with
  | [] => [x]
  | y :: l' => if mes_le y x then y :: insertar_mes x l' else x :: l
  end.

Definition ordenar_meses (keys : list (Z * Z)) : list (Z * Z) :=
  fold_left (fun acc x => insertar_mes x acc) keys [].

(** [list.index(x)] ([None]: it raises [ValueError]). *)
Fixpoint py_index (x : Z * Z) (l : list (Z * Z)) : option nat :=
  match l with
  | [] => None
  | y :: l' => if sheet_eqb x y then Some O else option_map S (py_index x l')
  end.

(** [l[a:b]] for [0 <= a]. *)
Definition py_slice {A : Type} (l : list A) (a b : Z) : list A :=
  firstn (Z.to_nat (b - a)) (skipn (Z.to_nat a) l).

(** [meses_mostrados] and [default_index]. *)
Definition meses_mostrados (todos_los_meses : list (Z * Z)) (current_month_year : Z * Z)
    : list (Z * Z) * Z :=
  match py_index current_month_year todos_los_meses with
  | Some ci =>
      let current_index := Z.of_nat ci in
      let start_index := Z.max 0 (current_index - 3) in
      let end_index := Z.min (Z.of_nat (length todos_los_meses)) (current_index + 2) in
      let ms := py_slice todos_los_meses start_index end_index in
      (ms, match py_index current_month_year ms with Some i => Z.of_nat i | None => 0 end)
  | None =>
      let ms := if (5 <? length todos_los_meses)%nat
                then skipn (length todos_los_meses - 5) todos_los_meses
                else todos_los_meses in
      (ms, Z.of_nat (length ms) - 1)
  end.

(** [EMPLEADOS_NO_PRODUCTIVOS]; 237 is U+00ED (i with acute accent). *)
Definition EMPLEADOS_NO_PRODUCTIVOS : list (list Z) :=
  [u "celia henriquez"; u "andrea mart" ++ [237] ++ u "nez"].

(** Python's [min(a, b)]: the first argument unless the second is smaller. *)
Definition py_min (a b : Q) : Q := if Qle_bool a b then a else b.

(** [(x / total) * 100 if total > 0 else 0]. *)
Definition porcentaje (x total : Q) : Q :=
  if Qle_bool total 0 then 0%Q else (x / total * 100)%Q.

(** A row of [data_rows], with the values before [round(., 1)] (the
    rounding is for display). *)
Record fila := mkfila {
  colaborador : list Z;
  carga_pct : Q;
  vacaciones_dias : Z;
  otras_ausencias_dias : Z;
  horas_disponibles_buffer : Q;
  horas_estimadas_cor : Q;
  horas_disponibles_reales : Q;
  horas_cargadas_cor : Q }.

Section Dashboard.

Variable cal_holidays : Z -> list date.
Variable lower_table : casing.
Variables anio mes_num : Z.

Definition no_productivo (colab : list Z) : bool :=
  existsb (list_Z_eqb (normalizar_nombre lower_table colab)) EMPLEADOS_NO_PRODUCTIVOS.

Definition horas_disp_de (info : empleado_mes Q) : Q :=
  calcular_horas_disponibles cal_holidays anio mes_num
    (inject_Z (vacaciones info)) (inject_Z (otras_ausencias info)) (1 # 10).

(** The loop computing [(total_horas_disponibles, total_horas_estimadas,
    total_horas_cargadas)]. *)
Definition totales (colaboradores_mes : sheet Q) : Q * Q * Q :=
  fold_left (fun acc e =>
               let '(td, te, tc) := acc in
               if negb (no_productivo (fst e))
               then (td + horas_disp_de (snd e), te + horas_estimadas (snd e),
                     tc + horas_cargadas (snd e))%Q
               else acc)
    colaboradores_mes (0, 0, 0)%Q.

Definition fila_de (e : list Z * empleado_mes Q) : fila :=
  let info := snd e in
  let horas_disp := horas_disp_de info in
  let hc := horas_cargadas info in
  let he := horas_estimadas info in
  let pct_est := porcentaje he horas_disp in
  mkfila (fst e) (py_min pct_est 100) (vacaciones info) (otras_ausencias info)
    horas_disp he (horas_disp - he)%Q hc.

(** The loop building [data_rows]. *)
Definition filas (colaboradores_mes : sheet Q) : list fila :=
  map fila_de (filter (fun e => negb (no_productivo (fst e))) colaboradores_mes).

End Dashboard.

(** The base64 table checked once: each of the 64 characters decodes to
    its index and is not the padding [=]. *)
Definition b64_table_ok : bool :=
  forallb (fun i => match b64_index (b64_char i) with Some j => j =? i | None => false end
                    && negb (b64_char i =? 61)) (zseq 0 64).

(** A byte. *)
Definition byte (b : Z) : Prop := 0 <= b < 256.

(** Sample environments. *)
Definition env_completo (var : string) : option string := Some "x"%string.
Definition env_vacio (var : string) : option string := None.

(** The tasks of a COR answer ([[]] when it has none) and the leaves of a
    Factorial page ([[]] for an exception). *)
Definition datos_cor (r : respuesta_cor) : list (task Q) :=
  match r with cor_data l => l | _ => [] end.

Definition ausencias_pagina (r : res (list leave * bool)) : list leave :=
  match r with Ok (l, _) => l | Err _ => [] end.

(** Sample answers: one COR page with a task of 2 charged hours and a task
    of no hours, then an error; two Factorial pages, the second the last. *)
Definition tarea_2h : task Q := mktask (Some (mkdate 2025 3 10)) (2 # 1) 0%Q [(u "Ana", u "Ruiz")].
Definition tarea_0h : task Q := mktask (Some (mkdate 2025 3 11)) 0%Q 0%Q [(u "Ana", u "Ruiz")].
Definition obtener_ej (page : Z) : respuesta_cor :=
  if page =? 1 then cor_data [tarea_2h; tarea_0h] else cor_none.
Definition paginas_ej (page : Z) : res (list leave * bool) :=
  if page =? 1 then Ok ([leave_mar_apr], true)
  else if page =? 2 then Ok ([leave_ana], false)
  else Ok ([], false).

(* ================================================================== *)
(** * Properties *)

Example weekday_2025_01_01 : weekday (mkdate 2025 1 1) = 2.
Proof. reflexivity. Qed.

Example easter_2025 : easter 2025 = (4, 20).
Proof. reflexivity. Qed.

Example jan_2025 : calcular_dias_laborables_festivos catalonia_holidays 2025 1 = (21, 2).
Proof. reflexivity. Qed.

Example aug_2025 : calcular_dias_laborables_festivos catalonia_holidays 2025 8 = (20, 1).
Proof. reflexivity. Qed.

(** Case analysis on every boolean comparison of integers in the goal. *)
Ltac zcase :=
  repeat match goal with
  | |- context [Z.ltb ?a ?b] => destruct (Z.ltb_spec a b)
  | |- context [Z.leb ?a ?b] => destruct (Z.leb_spec a b)
  | |- context [Z.eqb ?a ?b] => destruct (Z.eqb_spec a b)
  end; simpl; try lia.

Lemma py_max_Qmax (a b : Q) : py_max a b == Qmax a b.
Proof.
  unfold py_max. destruct (Qle_bool b a) eqn:E.
  - apply Qle_bool_iff in E. rewrite Q.max_l by exact E. reflexivity.
  - assert (a <= b)%Q.
    { apply Qnot_lt_le. intro Hl. apply Qlt_le_weak in Hl.
      apply Qle_bool_iff in Hl. congruence. }
    rewrite Q.max_r by assumption. reflexivity.
Qed.

Lemma py_max_0_nonneg (x : Q) : (0 <= py_max 0 x)%Q.
Proof.
  rewrite py_max_Qmax. apply Q.le_max_l.
Qed.



Lemma py_max_0_le (x c : Q) : (x <= c)%Q -> (0 <= c)%Q -> (py_max 0 x <= c)%Q.
Proof.
  intros H1 H2. rewrite py_max_Qmax. apply Q.max_lub; assumption.
Qed.

(** ** Capacity calculator *)

Section Capacity.

Variable cal_holidays : Z -> list date.

Local Abbreviation N y m := (fst (calcular_dias_laborables_festivos cal_holidays y m)).

(** [1 - a/n] times the net hours, rewritten as a square over [n]. *)
Lemma buffer_square (n h a : Q) : ~ n == 0 ->
  ((n * h - a * h) * (1 # 10) * (1 - a / n)
   == h * (1 # 10) * ((n - a) * (n - a) / n))%Q.
Proof. intros Hn. field. exact Hn. Qed.

Lemma capacity_pos_case (n h a : Q) : (0 < n)%Q ->
  (n * h - a * h - (n * h - a * h) * (1 # 10) * (1 - a / n)
   == n * h - a * h - h * (1 # 10) * ((n - a) * (n - a) / n))%Q.
Proof.
  intros Hn. rewrite buffer_square. reflexivity.
  intro E. rewrite E in Hn. apply (Qlt_irrefl 0). exact Hn.
Qed.

Lemma div_pos_le (u w n : Q) : (0 < n)%Q -> (u <= w)%Q -> (u / n <= w / n)%Q.
Proof.
  intros Hn H. unfold Qdiv. apply Qmult_le_compat_r. exact H.
  apply Qlt_le_weak. apply Qinv_lt_0_compat. exact Hn.
Qed.

Lemma div_pos_nonneg (u n : Q) : (0 < n)%Q -> (0 <= u)%Q -> (0 <= u / n)%Q.
Proof.
  intros Hn H. unfold Qdiv. apply Qmult_le_0_compat. exact H.
  apply Qlt_le_weak. apply Qinv_lt_0_compat. exact Hn.
Qed.

(** The capacity as a function of the total absence [a]. *)
Lemma hd_unfold (y m : Z) (v o : Q) :
  calcular_horas_disponibles cal_holidays y m v o (1 # 10)
  = let h := inject_Z (if m =? 8 then 7 else 8) in
    let n := inject_Z (N y m) in
    let a := (v + o)%Q in
    py_max 0 (inject_Z (N y m * (if m =? 8 then 7 else 8)) - a * h
              - (inject_Z (N y m * (if m =? 8 then 7 else 8)) - a * h) * (1 # 10)
                * (1 - (if N y m >? 0 then a / n else 1)))%Q.
Proof. reflexivity. Qed.


Lemma capacity_le_gross (nz hz : Z) (a : Q) :
  (hz = 7 \/ hz = 8) -> (0 <= nz) -> (0 <= a)%Q ->
  (py_max 0 (inject_Z (nz * hz) - a * inject_Z hz
             - (inject_Z (nz * hz) - a * inject_Z hz) * (1 # 10)
               * (1 - (if nz >? 0 then a / inject_Z nz else 1)))
   <= inject_Z (nz * hz))%Q.
Proof.
  intros Hh Hn Ha. rewrite inject_Z_mult.
  assert (Hnq : (0 <= inject_Z nz)%Q).
  { change 0%Q with (inject_Z 0). rewrite <- Zle_Qle. exact Hn. }
  destruct (Z.gtb_spec nz 0) as [Hp | Hp].
  - assert (Hq : (0 < inject_Z nz)%Q).
    { change 0%Q with (inject_Z 0). rewrite <- Zlt_Qlt. exact Hp. }
    assert (Hd : (0 <= (inject_Z nz - a) * (inject_Z nz - a) / inject_Z nz)%Q).
    { apply div_pos_nonneg. exact Hq.
      destruct (Qlt_le_dec (inject_Z nz - a) 0) as [Hl | Hl].
      - setoid_replace ((inject_Z nz - a) * (inject_Z nz - a))%Q
          with ((a - inject_Z nz) * (a - inject_Z nz))%Q by ring.
        apply Qmult_le_0_compat; lra.
      - apply Qmult_le_0_compat; exact Hl. }
    apply py_max_0_le.
    + rewrite (capacity_pos_case _ _ a Hq). revert Hd.
      generalize ((inject_Z nz - a) * (inject_Z nz - a) / inject_Z nz)%Q as X.
      intros X Hd.
      destruct Hh as [-> | ->];
        [change (inject_Z 7) with (7 # 1) | change (inject_Z 8) with (8 # 1)]; lra.
    + destruct Hh as [-> | ->];
        [change (inject_Z 7) with (7 # 1) | change (inject_Z 8) with (8 # 1)]; lra.
  - destruct Hh as [-> | ->];
      [change (inject_Z 7) with (7 # 1) | change (inject_Z 8) with (8 # 1)];
      apply py_max_0_le; lra.
Qed.

End Capacity.

(** ** Calendar service *)

Lemma in_zseq (a k : Z) (n : nat) : In k (zseq a n) <-> a <= k < a + Z.of_nat n.
Proof.
  revert a. induction n as [| n IH]; intros a; simpl.
  - lia.
  - rewrite IH. lia.
Qed.

Lemma filter_map_length {A B} (f : B -> bool) (g : A -> B) (l : list A) :
  length (filter f (map g l)) = length (filter (fun x => f (g x)) l).
Proof.
  induction l as [| x l IH]; simpl; [reflexivity |].
  destruct (f (g x)); simpl; rewrite ?IH; reflexivity.
Qed.

Lemma days_in_month_pos (y m : Z) : 28 <= days_in_month y m <= 31.
Proof.
  unfold days_in_month.
  destruct ((m =? 4) || (m =? 6) || (m =? 9) || (m =? 11)); [lia |].
  destruct (m =? 2); [destruct (is_leap y) |]; lia.
Qed.

(** The holiday filter of the code is membership in the month. *)
Lemma holiday_window (y m : Z) (d : date) :
  date_le (mkdate y m 1) d && date_le d (mkdate y m (days_in_month y m))
  = in_month y m d.
Proof.
  destruct d as [dy dm dd]. unfold date_le, in_month; simpl.
  pose proof (days_in_month_pos y m).
  zcase; rewrite ?andb_true_r, ?andb_false_r; simpl; zcase.
Qed.

Lemma festivos_laborables_eq (cal_holidays : Z -> list date) (y m : Z) :
  snd (calcular_dias_laborables_festivos cal_holidays y m)
  = working_holidays cal_holidays y m.
Proof.
  unfold calcular_dias_laborables_festivos, working_holidays; simpl.
  f_equal. f_equal. apply filter_ext. intros d.
  rewrite <- holiday_window. reflexivity.
Qed.

Lemma dias_laborables_eq (y m : Z) :
  Z.of_nat (length (filter (fun k => is_weekday (mkdate y m k))
                           (zseq 1 (Z.to_nat (days_in_month y m)))))
  = working_days y m.
Proof.
  unfold working_days, month_dates. rewrite filter_map_length. reflexivity.
Qed.

(** With a duplicate-free provider list, the weekday holidays of a month are
    at most its weekdays. *)
Lemma working_holidays_le (cal_holidays : Z -> list date) (y m : Z) :
  NoDup (cal_holidays y) ->
  working_holidays cal_holidays y m <= working_days y m.
Proof.
  intros Hnd. unfold working_holidays, working_days.
  apply Nat2Z.inj_le. apply NoDup_incl_length.
  - apply NoDup_filter. exact Hnd.
  - intros d Hd. apply filter_In in Hd as [_ Hd].
    apply andb_true_iff in Hd as [Hin Hw].
    apply filter_In. split; [| exact Hw].
    destruct d as [dy dm dd]. unfold in_month in Hin; simpl in Hin.
    repeat rewrite andb_true_iff in Hin.
    destruct Hin as [[[Hy Hm] H1] H2].
    apply Z.eqb_eq in Hy, Hm. apply Z.leb_le in H1, H2. subst.
    unfold month_dates. apply in_map. apply in_zseq.
    pose proof (days_in_month_pos y m). lia.
Qed.

Lemma net_business_days_nonneg (cal_holidays : Z -> list date) (y m : Z) :
  NoDup (cal_holidays y) ->
  0 <= fst (calcular_dias_laborables_festivos cal_holidays y m).
Proof.
  intros Hnd. pose proof (working_holidays_le cal_holidays y m Hnd) as H.
  pose proof (festivos_laborables_eq cal_holidays y m) as E.
  pose proof (dias_laborables_eq y m) as E2.
  unfold calcular_dias_laborables_festivos in *; simpl in *. lia.
Qed.

Lemma nodup_dates_NoDup (l : list date) : nodup_dates l = true -> NoDup l.
Proof.
  induction l as [| d l IH]; simpl; intros H; constructor.
  - apply andb_true_iff in H as [H _]. intro Hin.
    apply negb_true_iff in H. assert (existsb (date_eqb d) l = true).
    { apply existsb_exists. exists d. split; [exact Hin |].
      unfold date_eqb. rewrite !Z.eqb_refl. reflexivity. }
    congruence.
  - apply IH. apply andb_true_iff in H as [_ H]. exact H.
Qed.

(* ------------------------------------------------------------------ *)
(** ** Claims on the calendar service and the capacity calculator *)

(** C5 (counterexample): the first component returned by
    [calcular_dias_laborables_festivos] is not the Monday-Friday count of
    the month: in January 2025 (23 weekdays, 1 and 6 January holidays) the
    code returns 21, not 23. *)
Lemma C5_first_component_not_working_days :
  calcular_dias_laborables_festivos catalonia_holidays 2025 1
  <> (working_days 2025 1, working_holidays catalonia_holidays 2025 1).
Proof. vm_compute. discriminate. Qed.

(** C5 (amended): for every year and month, the calendar service returns
    the pair (net business days, working holidays), where the working
    holidays are the provider's holiday entries falling on a Monday-Friday
    of the month and the net business days are the Monday-Friday count of
    the month minus them. *)
Theorem C5_calendar_service_returns_net_and_holidays (cal_holidays : Z -> list date)
    (y m : Z) :
  calcular_dias_laborables_festivos cal_holidays y m
  = (working_days y m - working_holidays cal_holidays y m,
     working_holidays cal_holidays y m).
Proof.
  rewrite <- festivos_laborables_eq, <- dias_laborables_eq.
  unfold calcular_dias_laborables_festivos. reflexivity.
Qed.

(** C1: with a buffer fraction of 0.10, [calcular_horas_disponibles]
    equals the spec's formula max(0, netHours - buffer) built from the
    first component of the calendar service, 7 or 8 hours a day,
    grossHours, netHours, the guarded absence fraction and the
    proportional buffer (for every year, month and absence inputs). *)
Theorem C1_available_hours_formula (cal_holidays : Z -> list date) (y m : Z) (v o : Q) :
  calcular_horas_disponibles cal_holidays y m v o (1 # 10)
  == available_hours_spec cal_holidays y m v o.
Proof.
  unfold calcular_horas_disponibles, available_hours_spec.
  rewrite py_max_Qmax. apply Q.max_compat; [reflexivity |].
  rewrite Z.gtb_ltb, inject_Z_mult.
  destruct (0 <? fst (calcular_dias_laborables_festivos cal_holidays y m)); ring.
Qed.




(** C10: when the provider lists each holiday once, for non-negative
    absence inputs the available hours never exceed the month's gross
    capacity netBusinessDays * hoursPerDay. *)
Theorem C10_available_hours_le_gross (cal_holidays : Z -> list date) (y m : Z) (v o : Q) :
  NoDup (cal_holidays y) -> (0 <= v)%Q -> (0 <= o)%Q ->
  (calcular_horas_disponibles cal_holidays y m v o (1 # 10)
   <= inject_Z (fst (calcular_dias_laborables_festivos cal_holidays y m)
                * (if m =? 8 then 7 else 8)))%Q.
Proof.
  intros Hnd Hv Ho.
  assert (Hh : (if m =? 8 then 7 else 8) = 7 \/ (if m =? 8 then 7 else 8) = 8)
    by (destruct (m =? 8); auto).
  exact (capacity_le_gross _ _ (v + o) Hh
           (net_business_days_nonneg cal_holidays y m Hnd) ltac:(lra)).
Qed.

Lemma C10_available_hours_le_gross_witness :
  NoDup (catalonia_holidays 2025) /\
  (calcular_horas_disponibles catalonia_holidays 2025 3 0 0 (1 # 10)
   <= inject_Z (fst (calcular_dias_laborables_festivos catalonia_holidays 2025 3)
                * (if 3 =? 8 then 7 else 8)))%Q.
Proof.
  assert (Hnd : NoDup (catalonia_holidays 2025))
    by (apply nodup_dates_NoDup; vm_compute; reflexivity).
  split; [exact Hnd |].
  apply (C10_available_hours_le_gross catalonia_holidays 2025 3 0 0 Hnd);
    vm_compute; discriminate.
Defined.

Example capacity_march_2025 :
  calcular_horas_disponibles catalonia_holidays 2025 3 0 0 (1 # 10) == 151.2.
Proof. reflexivity. Qed.

Example normalizar_albert :
  normalizar_nombre latin1_lower_table (u "  Albert   SUNYER ") = u "albert sunyer vilafranca".
Proof. vm_compute. reflexivity. Qed.

(** ** Name normalizer *)

Definition no_space (w : list Z) : bool := forallb (fun c => negb (py_isspace c)) w.

Definition good_word (w : list Z) : Prop := w <> [] /\ no_space w = true.

Lemma list_Z_eqb_eq (a b : list Z) : list_Z_eqb a b = true -> a = b.
Proof.
  revert b. induction a as [| x a IH]; intros [| y b]; simpl; try discriminate; auto.
  intros H. apply andb_true_iff in H as [H1 H2].
  apply Z.eqb_eq in H1. subst. f_equal. apply IH. exact H2.
Qed.

Lemma lookup_cp_In (c : Z) (t : list (Z * list Z)) (l : list Z) :
  lookup_cp c t = Some l -> In (c, l) t.
Proof.
  induction t as [| [k l'] t IH]; simpl; [discriminate |].
  destruct (Z.eqb_spec k c) as [-> | _]; intros H.
  - inversion H; subst. left. reflexivity.
  - right. apply IH. exact H.
Qed.

Lemma is_key_false_lower (t : casing) (c : Z) :
  is_key c t = false -> lower_char t c = [c].
Proof.
  unfold is_key, lower_char. destruct (lookup_cp c (lower_map t)); [discriminate | reflexivity].
Qed.

(** A stable table produces only code points it has no mapping for. *)
Lemma lower_char_output_not_key (t : casing) (c0 c : Z) :
  lower_table_stable t = true -> In c (lower_char t c0) -> is_key c t = false.
Proof.
  intros Hst Hin. unfold lower_char in Hin.
  destruct (lookup_cp c0 (lower_map t)) as [l |] eqn:E.
  - apply lookup_cp_In in E.
    unfold lower_table_stable in Hst. rewrite forallb_forall in Hst.
    specialize (Hst _ E). simpl in Hst. rewrite forallb_forall in Hst.
    specialize (Hst _ Hin). apply negb_true_iff in Hst. exact Hst.
  - destruct Hin as [<- | []]. unfold is_key. rewrite E. reflexivity.
Qed.

Lemma sigma_ok_spec (t : casing) :
  sigma_ok t = true -> is_key 931 t = true /\ is_key 962 t = false /\ is_key 963 t = false.
Proof.
  unfold sigma_ok. intros H. apply andb_true_iff in H as [H H3].
  apply andb_true_iff in H as [H1 H2].
  rewrite negb_true_iff in H2, H3. auto.
Qed.

(** Every code point [str.lower] produces has no mapping. *)
Lemma py_lower_aux_output (t : casing) (before s : list Z) (c : Z) :
  lower_table_stable t = true -> sigma_ok t = true ->
  In c (py_lower_aux t before s) -> is_key c t = false.
Proof.
  intros Hst Hsg. destruct (sigma_ok_spec t Hsg) as [_ [H962 H963]].
  revert before. induction s as [| c0 s IH]; intros before Hin; simpl in Hin; [destruct Hin |].
  apply in_app_or in Hin as [Hin | Hin]; [| exact (IH _ Hin)].
  destruct (c0 =? 931).
  - destruct Hin as [<- | []]. destruct (final_sigma t before s); assumption.
  - exact (lower_char_output_not_key t c0 c Hst Hin).
Qed.

Lemma not_key_not_sigma (t : casing) (c : Z) :
  sigma_ok t = true -> is_key c t = false -> (c =? 931) = false.
Proof.
  intros Hsg Hc. destruct (sigma_ok_spec t Hsg) as [H931 _].
  destruct (Z.eqb_spec c 931) as [-> | _]; [congruence | reflexivity].
Qed.

Lemma py_lower_aux_id (t : casing) (before s : list Z) :
  sigma_ok t = true -> (forall c, In c s -> is_key c t = false) ->
  py_lower_aux t before s = s.
Proof.
  intros Hsg. revert before.
  induction s as [| c s IH]; intros before H; simpl; [reflexivity |].
  assert (Hc : is_key c t = false) by (apply H; left; reflexivity).
  rewrite (not_key_not_sigma t c Hsg Hc), (is_key_false_lower t c Hc). simpl. f_equal.
  apply IH. intros c' Hc'. apply H. right. exact Hc'.
Qed.

Lemma py_lower_id (t : casing) (s : list Z) :
  sigma_ok t = true -> (forall c, In c s -> is_key c t = false) -> py_lower t s = s.
Proof. apply py_lower_aux_id. Qed.

(** Without a capital sigma, [str.lower] maps code point by code point. *)
Lemma py_lower_aux_no_sigma (t : casing) (before s : list Z) :
  (forall c, In c s -> c <> 931) -> py_lower_aux t before s = flat_map (lower_char t) s.
Proof.
  revert before. induction s as [| c s IH]; intros before H; simpl; [reflexivity |].
  destruct (Z.eqb_spec c 931) as [E | _]; [exfalso; exact (H c (or_introl eq_refl) E) |].
  f_equal. apply IH. intros c' Hc'. apply H. right. exact Hc'.
Qed.

(** On Latin-1 a checked table lowercases as Python does. *)
Lemma lower_char_latin1 (t : casing) (c : Z) :
  latin1_lower_ok t = true -> 0 <= c < 256 ->
  lower_char t c = if latin1_upper c then [c + 32] else [c].
Proof.
  intros Hok Hc. unfold latin1_lower_ok in Hok. rewrite forallb_forall in Hok.
  assert (Hin : In c (zseq 0 256)) by (apply in_zseq; simpl; lia).
  specialize (Hok c Hin). unfold lower_char.
  destruct (lookup_cp c (lower_map t)) as [l |].
  - apply andb_true_iff in Hok as [Hu Hl]. rewrite Hu.
    apply list_Z_eqb_eq. exact Hl.
  - apply negb_true_iff in Hok. rewrite Hok. reflexivity.
Qed.

Lemma latin1_not_key (t : casing) (c : Z) :
  latin1_lower_ok t = true -> 0 <= c < 256 -> latin1_upper c = false -> is_key c t = false.
Proof.
  intros Hok Hc Hu. unfold latin1_lower_ok in Hok. rewrite forallb_forall in Hok.
  assert (Hin : In c (zseq 0 256)) by (apply in_zseq; simpl; lia).
  specialize (Hok c Hin). unfold is_key.
  destruct (lookup_cp c (lower_map t)) as [l |]; [| reflexivity].
  rewrite Hu in Hok. discriminate.
Qed.

Definition latin1_text (s : list Z) : bool := forallb (fun c => (0 <=? c) && (c <? 256)) s.

Lemma py_lower_latin1 (t : casing) (s : list Z) :
  latin1_lower_ok t = true -> latin1_text s = true ->
  py_lower t s = py_lower latin1_lower_table s.
Proof.
  intros Hok Hs.
  assert (H931 : forall c, In c s -> c <> 931).
  { intros c Hc E. unfold latin1_text in Hs. rewrite forallb_forall in Hs.
    specialize (Hs c Hc). subst c. vm_compute in Hs. discriminate. }
  unfold py_lower. rewrite !py_lower_aux_no_sigma by exact H931. clear H931.
  induction s as [| c s IH]; [reflexivity |].
  simpl in Hs |- *. apply andb_true_iff in Hs as [Hc Hs].
  apply andb_true_iff in Hc as [H1 H2].
  apply Z.leb_le in H1. apply Z.ltb_lt in H2.
  rewrite (lower_char_latin1 t c Hok), (lower_char_latin1 latin1_lower_table c);
    [rewrite IH by exact Hs; reflexivity | vm_compute; reflexivity | lia | lia].
Qed.

Lemma lstrip_sub (s : list Z) (c : Z) : In c (lstrip s) -> In c s.
Proof.
  induction s as [| x s IH]; simpl; [auto |].
  destruct (py_isspace x); simpl; auto.
Qed.

Lemma py_strip_sub (s : list Z) (c : Z) : In c (py_strip s) -> In c s.
Proof.
  unfold py_strip. intros H. rewrite <- in_rev in H.
  apply lstrip_sub in H. rewrite <- in_rev in H. apply lstrip_sub. exact H.
Qed.

Lemma no_space_rev (w : list Z) : no_space (rev w) = no_space w.
Proof.
  unfold no_space. induction w as [| x w IH]; simpl; [reflexivity |].
  rewrite forallb_app, IH. simpl. rewrite andb_true_r, andb_comm. reflexivity.
Qed.

(** The words of [str.split()] are non-empty, contain no whitespace and
    consist of code points of the input. *)
Lemma py_split_aux_words (cur s : list Z) :
  no_space cur = true ->
  forall w, In w (py_split_aux cur s) ->
    good_word w /\ (forall c, In c w -> In c cur \/ In c s).
Proof.
  revert cur. induction s as [| x s IH]; intros cur Hcur w Hw; simpl in Hw.
  - destruct cur as [| y cur']; [destruct Hw |].
    destruct Hw as [<- | []]. split.
    + split; [| rewrite no_space_rev; exact Hcur].
      intro E. apply (f_equal (@length Z)) in E. rewrite length_rev in E.
      discriminate.
    + intros c Hc. left. apply in_rev. exact Hc.
  - destruct (py_isspace x) eqn:Ex.
    + assert (Hrest : forall w, In w (py_split_aux [] s) ->
                good_word w /\ (forall c, In c w -> In c cur \/ In c (x :: s))).
      { intros w' Hw'. destruct (IH [] eq_refl w' Hw') as [Hg Hc].
        split; [exact Hg |]. intros c Hin. destruct (Hc c Hin) as [[] | H].
        right. right. exact H. }
      destruct cur as [| y cur']; [apply Hrest; exact Hw |].
      destruct Hw as [<- | Hw]; [| apply Hrest; exact Hw].
      split.
      * split; [| rewrite no_space_rev; exact Hcur].
        intro E. apply (f_equal (@length Z)) in E. rewrite length_rev in E.
        discriminate.
      * intros c Hc. left. apply in_rev. exact Hc.
    + assert (Hc' : no_space (x :: cur) = true).
      { unfold no_space in *. simpl. rewrite Ex, Hcur. reflexivity. }
      destruct (IH (x :: cur) Hc' w Hw) as [Hg Hc]. split; [exact Hg |].
      intros c Hin. destruct (Hc c Hin) as [[<- | H] | H].
      * right. left. reflexivity.
      * left. exact H.
      * right. right. exact H.
Qed.

Lemma py_split_aux_app (cur w s : list Z) :
  no_space w = true -> py_split_aux cur (w ++ s) = py_split_aux (rev w ++ cur) s.
Proof.
  revert cur. induction w as [| x w IH]; intros cur Hw; simpl; [reflexivity |].
  unfold no_space in Hw. simpl in Hw. apply andb_true_iff in Hw as [Hx Hw].
  apply negb_true_iff in Hx. rewrite Hx. rewrite IH by exact Hw.
  rewrite <- app_assoc. reflexivity.
Qed.

Definition join_tail (ws : list (list Z)) : list Z := concat (map (fun w' => [32] ++ w') ws).

Lemma py_split_aux_join_tail (ws : list (list Z)) :
  Forall good_word ws ->
  forall cur, cur <> [] -> no_space cur = true ->
  py_split_aux cur (join_tail ws) = rev cur :: ws.
Proof.
  induction ws as [| w ws IH]; intros Hws cur Hne Hcur; simpl.
  - destruct cur; [congruence | reflexivity].
  - inversion Hws as [| ? ? [Hwne Hw] Hrest]; subst.
    destruct cur as [| y cur']; [congruence |].
    unfold join_tail in *. simpl. f_equal.
    rewrite py_split_aux_app by exact Hw. rewrite app_nil_r.
    rewrite IH; [rewrite rev_involutive; reflexivity | exact Hrest | |].
    + intro E. apply (f_equal (@length Z)) in E. rewrite length_rev in E.
      destruct w; [congruence | discriminate].
    + rewrite no_space_rev. exact Hw.
Qed.

Lemma py_split_join (ws : list (list Z)) :
  Forall good_word ws -> py_split (py_join [32] ws) = ws.
Proof.
  destruct ws as [| w ws]; intros Hws; [reflexivity |].
  inversion Hws as [| ? ? [Hwne Hw] Hrest]; subst.
  unfold py_split, py_join. fold (join_tail ws).
  rewrite py_split_aux_app by exact Hw. rewrite app_nil_r.
  rewrite py_split_aux_join_tail; [rewrite rev_involutive; reflexivity | exact Hrest | |].
  - intro E. apply (f_equal (@length Z)) in E. rewrite length_rev in E.
    destruct w; [congruence | discriminate].
  - rewrite no_space_rev. exact Hw.
Qed.

Lemma join_tail_last (ws : list (list Z)) :
  Forall good_word ws -> ws <> [] ->
  exists p c, join_tail ws = p ++ [c] /\ py_isspace c = false.
Proof.
  induction ws as [| w ws IH]; intros Hws Hne; [congruence |].
  inversion Hws as [| ? ? [Hwne Hw] Hrest]; subst.
  unfold join_tail in *. simpl.
  destruct ws as [| w' ws'].
  - destruct (exists_last Hwne) as [p [c Hpc]]. subst w.
    exists (32 :: p), c. simpl. rewrite app_nil_r. split; [reflexivity |].
    unfold no_space in Hw. rewrite forallb_app in Hw. simpl in Hw.
    rewrite andb_true_r in Hw. apply andb_true_iff in Hw as [_ Hw].
    apply negb_true_iff. exact Hw.
  - destruct (IH Hrest ltac:(discriminate)) as [p [c [Hpc Hc]]].
    exists (32 :: w ++ p), c. split; [| exact Hc].
    simpl in Hpc |- *. rewrite Hpc. rewrite <- app_assoc. reflexivity.
Qed.

Lemma lstrip_id (l : list Z) :
  (l = [] \/ exists c l', l = c :: l' /\ py_isspace c = false) -> lstrip l = l.
Proof.
  intros [-> | [c [l' [-> Hc]]]]; simpl; [reflexivity | rewrite Hc; reflexivity].
Qed.

Lemma py_strip_join (ws : list (list Z)) :
  Forall good_word ws -> py_strip (py_join [32] ws) = py_join [32] ws.
Proof.
  intros Hws. destruct ws as [| w ws]; [reflexivity |].
  inversion Hws as [| ? ? [Hwne Hw] Hrest]; subst.
  assert (Hlast : exists p c, py_join [32] (w :: ws) = p ++ [c] /\ py_isspace c = false).
  { destruct ws as [| w' ws'].
    - destruct (exists_last Hwne) as [p [c Hpc]]. subst w.
      exists p, c. simpl. rewrite app_nil_r. split; [reflexivity |].
      unfold no_space in Hw. rewrite forallb_app in Hw. simpl in Hw.
      rewrite andb_true_r in Hw. apply andb_true_iff in Hw as [_ Hw].
      apply negb_true_iff. exact Hw.
    - destruct (join_tail_last (w' :: ws') Hrest ltac:(discriminate)) as [p [c [Hpc Hc]]].
      exists (w ++ p), c. split; [| exact Hc].
      unfold py_join. fold (join_tail (w' :: ws')). rewrite Hpc, app_assoc. reflexivity. }
  assert (Hfirst : lstrip (py_join [32] (w :: ws)) = py_join [32] (w :: ws)).
  { apply lstrip_id. right. destruct w as [| c w]; [congruence |].
    exists c, (w ++ join_tail ws). split; [reflexivity |].
    unfold no_space in Hw. simpl in Hw. apply andb_true_iff in Hw as [Hc _].
    apply negb_true_iff. exact Hc. }
  unfold py_strip. rewrite Hfirst.
  destruct Hlast as [p [c [Hpc Hc]]]. rewrite Hpc.
  rewrite rev_app_distr. simpl. rewrite Hc. simpl.
  rewrite rev_involutive. reflexivity.
Qed.

Lemma in_py_join (ws : list (list Z)) (c : Z) :
  In c (py_join [32] ws) -> c = 32 \/ exists w, In w ws /\ In c w.
Proof.
  destruct ws as [| w ws]; simpl; [intros [] |].
  intros H. apply in_app_or in H as [H | H].
  - right. exists w. split; [left; reflexivity | exact H].
  - apply in_concat in H as [l [Hl Hc]]. apply in_map_iff in Hl as [w' [<- Hw']].
    destruct Hc as [<- | Hc]; [left; reflexivity |].
    right. exists w'. split; [right; exact Hw' | exact Hc].
Qed.

(** The whitespace-collapsed lowercase form, before the alias lookup. *)
Definition collapse (t : casing) (s : list Z) : list Z :=
  py_join [32] (py_split (py_strip (py_lower t s))).

Lemma collapse_idem (t : casing) (x : list Z) :
  lower_table_stable t = true -> latin1_lower_ok t = true -> sigma_ok t = true ->
  collapse t (collapse t x) = collapse t x.
Proof.
  intros Hst Hok Hsg. unfold collapse at 1.
  set (ws := py_split (py_strip (py_lower t x))).
  assert (Hws : forall w, In w ws ->
            good_word w /\ (forall c, In c w -> In c (py_strip (py_lower t x)))).
  { intros w Hw. destruct (py_split_aux_words [] _ eq_refl w Hw) as [Hg Hc].
    split; [exact Hg |]. intros c Hin. destruct (Hc c Hin) as [[] | H]. exact H. }
  assert (Hgood : Forall good_word ws).
  { apply Forall_forall. intros w Hw. apply (Hws w Hw). }
  fold ws. unfold collapse. fold ws.
  rewrite (py_lower_id t (py_join [32] ws) Hsg).
  - rewrite py_strip_join by exact Hgood. rewrite py_split_join by exact Hgood.
    reflexivity.
  - intros c Hc. apply in_py_join in Hc as [-> | [w [Hw Hc]]].
    + apply latin1_not_key; [exact Hok | lia | reflexivity].
    + apply (proj2 (Hws w Hw)) in Hc. apply py_strip_sub in Hc.
      exact (py_lower_aux_output t [] x c Hst Hsg Hc).
Qed.

Lemma dict_get_cases (k : list Z) (d : list (list Z * list Z)) (def : list Z) :
  dict_get k d def = def \/ exists k', In (k', dict_get k d def) d.
Proof.
  induction d as [| [k' v] d IH]; simpl; [left; reflexivity |].
  destruct (list_Z_eqb k' k).
  - right. exists k'. left. reflexivity.
  - destruct IH as [H | [k'' H]]; [left; exact H | right; exists k''; right; exact H].
Qed.

Lemma nombre_mapping_values_fixed (t : casing) :
  latin1_lower_ok t = true ->
  forall k v, In (k, v) NOMBRE_MAPPING -> normalizar_nombre t v = v.
Proof.
  intros Hok k v Hin. simpl in Hin.
  repeat destruct Hin as [Hin | Hin]; try contradiction;
    inversion Hin; subst; unfold normalizar_nombre;
    rewrite py_lower_latin1 by (exact Hok || (vm_compute; reflexivity));
    vm_compute; reflexivity.
Qed.

(** *** Whitespace and [str.lower] *)

Lemma py_isspace_spaces (c : Z) : py_isspace c = true -> In c py_spaces.
Proof.
  unfold py_isspace. intros H.
  repeat match type of H with
         | (_ || _) = true => apply orb_true_iff in H as [H | H]
         end;
  repeat match goal with
         | H : (_ && _) = true |- _ => apply andb_true_iff in H as [? ?]
         | H : (_ <=? _) = true |- _ => apply Z.leb_le in H
         | H : (_ =? _) = true |- _ => apply Z.eqb_eq in H
         end;
  unfold py_spaces; simpl; lia.
Qed.

Lemma space_facts (t : casing) (c : Z) :
  spaces_ok t = true -> py_isspace c = true ->
  cased t c = false /\ case_ignorable t c = false /\ is_key c t = false.
Proof.
  intros Hsp Hc. apply py_isspace_spaces in Hc.
  unfold spaces_ok in Hsp. rewrite forallb_forall in Hsp. specialize (Hsp c Hc).
  apply andb_true_iff in Hsp as [H H3]. apply andb_true_iff in H as [H1 H2].
  rewrite negb_true_iff in H1, H2, H3. auto.
Qed.

Lemma first_not_ignorable_app (t : casing) (l b : list Z) :
  first_not_ignorable t (l ++ b) =
  match first_not_ignorable t l with
  | Some c => Some c
  | None => first_not_ignorable t b
  end.
Proof.
  induction l as [| c l IH]; simpl; [reflexivity |].
  destruct (case_ignorable t c); [exact IH | reflexivity].
Qed.

(** Text whose first code point that is not case-ignorable is not cased
    (or that has none) does not change whether a sigma next to it is
    final. *)
Lemma final_sigma_app (t : casing) (l b r a : list Z) :
  match first_not_ignorable t b with Some c => cased t c = false | None => True end ->
  match first_not_ignorable t a with Some c => cased t c = false | None => True end ->
  final_sigma t (l ++ b) (r ++ a) = final_sigma t l r.
Proof.
  intros Hb Ha. unfold final_sigma. rewrite !first_not_ignorable_app.
  destruct (first_not_ignorable t l) as [c |];
  destruct (first_not_ignorable t b) as [cb |];
  destruct (first_not_ignorable t r) as [cr |];
  destruct (first_not_ignorable t a) as [ca |];
  repeat match goal with H : cased t _ = false |- _ => (try rewrite H); clear H end;
  reflexivity.
Qed.

Lemma py_lower_aux_app (t : casing) (p b w rest : list Z) :
  match first_not_ignorable t b with Some c => cased t c = false | None => True end ->
  match first_not_ignorable t rest with Some c => cased t c = false | None => True end ->
  py_lower_aux t (p ++ b) (w ++ rest) =
  py_lower_aux t p w ++ py_lower_aux t (rev w ++ p ++ b) rest.
Proof.
  intros Hb Hr. revert p. induction w as [| c w IH]; intros p; [reflexivity |].
  specialize (IH (c :: p)). simpl in IH |- *.
  rewrite <- !app_assoc. simpl. f_equal.
  - rewrite final_sigma_app by assumption. reflexivity.
  - exact IH.
Qed.

Lemma space_head_neutral (t : casing) (c : Z) (l : list Z) :
  spaces_ok t = true -> py_isspace c = true ->
  match first_not_ignorable t (c :: l) with Some c' => cased t c' = false | None => True end.
Proof.
  intros Hsp Hc. destruct (space_facts t c Hsp Hc) as [Hcs [Hig _]].
  simpl. rewrite Hig. exact Hcs.
Qed.

(** [str.lower] goes through a whitespace code point: the two sides are
    lowercased apart. *)
Lemma py_lower_space (t : casing) (a b : list Z) (c : Z) :
  spaces_ok t = true -> py_isspace c = true ->
  py_lower t (a ++ c :: b) = py_lower t a ++ c :: py_lower t b.
Proof.
  intros Hsp Hc. destruct (space_facts t c Hsp Hc) as [_ [_ Hk]].
  unfold py_lower.
  pose proof (py_lower_aux_app t [] [] a (c :: b) I (space_head_neutral t c b Hsp Hc)) as H1.
  simpl app in H1. rewrite app_nil_r in H1. rewrite H1. f_equal.
  simpl. destruct (Z.eqb_spec c 931) as [-> | _]; [vm_compute in Hc; discriminate |].
  rewrite (is_key_false_lower t c Hk). simpl. f_equal.
  pose proof (py_lower_aux_app t [] (c :: rev a) b [] (space_head_neutral t c _ Hsp Hc) I)
    as H2.
  simpl in H2. rewrite !app_nil_r in H2. exact H2.
Qed.

Lemma py_split_aux_space (cur a b : list Z) (c : Z) :
  py_isspace c = true ->
  py_split_aux cur (a ++ c :: b) = py_split_aux cur a ++ py_split_aux [] b.
Proof.
  intros Hc. revert cur. induction a as [| d a IH]; intros cur; simpl.
  - rewrite Hc. destruct cur; reflexivity.
  - destruct (py_isspace d).
    + destruct cur; rewrite IH; reflexivity.
    + apply IH.
Qed.

Lemma py_split_word (w : list Z) : good_word w -> py_split w = [w].
Proof.
  intros Hw. pose proof (py_split_join [w] (Forall_cons _ Hw (Forall_nil _))) as H.
  cbn [py_join map concat] in H. rewrite app_nil_r in H. exact H.
Qed.

Lemma first_space (x : list Z) :
  no_space x = true \/
  exists a c b, x = a ++ c :: b /\ no_space a = true /\ py_isspace c = true.
Proof.
  induction x as [| d x IH]; [left; reflexivity |].
  destruct (py_isspace d) eqn:Ed.
  - right. exists [], d, x. split; [reflexivity | split; [reflexivity | exact Ed]].
  - destruct IH as [H | [a [c [b [-> [Ha Hc]]]]]].
    + left. unfold no_space in *. simpl. rewrite Ed, H. reflexivity.
    + right. exists (d :: a), c, b. split; [reflexivity |]. split; [| exact Hc].
      unfold no_space in *. simpl. rewrite Ed, Ha. reflexivity.
Qed.

(** The words of [x.lower()] are the words of the lowercased words of [x]. *)
Lemma py_split_lower (t : casing) (x : list Z) :
  spaces_ok t = true ->
  py_split (py_lower t x) = concat (map (fun w => py_split (py_lower t w)) (py_split x)).
Proof.
  intros Hsp.
  assert (G : forall n x, (length x <= n)%nat ->
            py_split (py_lower t x) =
            concat (map (fun w => py_split (py_lower t w)) (py_split x))).
  { induction n as [| n IH]; intros y Hy.
    - destruct y; [reflexivity | simpl in Hy; lia].
    - destruct (first_space y) as [H | [a [c [b [-> [Ha Hc]]]]]].
      + destruct y as [| d y'] eqn:Ey; [reflexivity |].
        rewrite <- Ey in *.
        assert (Hw : good_word y) by (split; [rewrite Ey; discriminate | exact H]).
        rewrite (py_split_word y Hw). simpl. rewrite app_nil_r. reflexivity.
      + rewrite py_lower_space by assumption. unfold py_split at 1 3.
        rewrite !(py_split_aux_space []) by assumption.
        rewrite map_app, concat_app. f_equal.
        * destruct a as [| d a'] eqn:Ea; [reflexivity |]. rewrite <- Ea in *.
          assert (Hw : good_word a) by (split; [rewrite Ea; discriminate | exact Ha]).
          fold (py_split a). rewrite (py_split_word a Hw). simpl.
          rewrite app_nil_r. reflexivity.
        * apply IH. rewrite length_app in Hy. simpl in Hy. lia. }
  apply (G (length x)). lia.
Qed.

Lemma py_split_lstrip (s : list Z) : py_split (lstrip s) = py_split s.
Proof.
  unfold py_split. induction s as [| c s IH]; simpl; [reflexivity |].
  destruct (py_isspace c) eqn:Ec; [exact IH | simpl; rewrite Ec; reflexivity].
Qed.

Lemma lstrip_prefix (s : list Z) :
  exists P, s = P ++ lstrip s /\ forall c, In c P -> py_isspace c = true.
Proof.
  induction s as [| c s IH]; [exists []; split; [reflexivity | intros _ []] |].
  simpl. destruct (py_isspace c) eqn:Ec.
  - destruct IH as [P [HP HPs]]. exists (c :: P). split.
    + simpl. rewrite <- HP. reflexivity.
    + intros c' [<- | H]; [exact Ec | exact (HPs c' H)].
  - exists []. split; [reflexivity | intros _ []].
Qed.

Lemma py_split_aux_nil_spaces (W : list Z) :
  (forall c, In c W -> py_isspace c = true) -> py_split_aux [] W = [].
Proof.
  induction W as [| c W IH]; intros H; simpl; [reflexivity |].
  rewrite (H c (or_introl eq_refl)). apply IH. intros c' Hc'. apply H. right. exact Hc'.
Qed.

Lemma py_split_trailing (l W : list Z) :
  (forall c, In c W -> py_isspace c = true) -> py_split (l ++ W) = py_split l.
Proof.
  intros H. destruct W as [| c W]; [rewrite app_nil_r; reflexivity |].
  unfold py_split. rewrite py_split_aux_space by (apply H; left; reflexivity).
  rewrite (py_split_aux_nil_spaces W) by (intros c' Hc'; apply H; right; exact Hc').
  apply app_nil_r.
Qed.

(** [str.strip()] does not change the words of [str.split()]. *)
Lemma py_split_strip (s : list Z) : py_split (py_strip s) = py_split s.
Proof.
  unfold py_strip. rewrite <- (py_split_lstrip s).
  destruct (lstrip_prefix (rev (lstrip s))) as [P [HP HPs]].
  assert (E : lstrip s = rev (lstrip (rev (lstrip s))) ++ rev P).
  { rewrite <- rev_app_distr, <- HP. symmetry. apply rev_involutive. }
  rewrite E at 2. rewrite py_split_trailing; [reflexivity |].
  intros c Hc. apply HPs. rewrite in_rev. exact Hc.
Qed.

Lemma normalizar_nombre_split (t : casing) (x : list Z) :
  normalizar_nombre t x =
  dict_get (py_join [32] (py_split (py_lower t x))) NOMBRE_MAPPING
           (py_join [32] (py_split (py_lower t x))).
Proof. unfold normalizar_nombre. rewrite py_split_strip. reflexivity. Qed.

(** C7: for case data that is stable, agrees with Python on Latin-1, maps
    only the capital sigma among the sigmas and leaves whitespace alone,
    [normalizar_nombre] is idempotent on every string; every value of
    [NOMBRE_MAPPING] is a fixed point of it; it gives the same result on
    [x] and on [x.lower()]; it gives the same result on [x] and on
    [' '.join(x.split())]; two strings whose [lower().split()] agree
    get the same result; and normalize("  Albert   SUNYER ") =
    normalize("albert sunyer") = "albert sunyer vilafranca". (It is a
    total function, so it is defined on every string.) *)
Theorem C7_normalizar_nombre_case_space (t : casing) :
  lower_table_stable t = true -> latin1_lower_ok t = true ->
  sigma_ok t = true -> spaces_ok t = true ->
  (forall x, normalizar_nombre t (normalizar_nombre t x) = normalizar_nombre t x) /\
  (forall k v, In (k, v) NOMBRE_MAPPING -> normalizar_nombre t v = v) /\
  (forall x, normalizar_nombre t (py_lower t x) = normalizar_nombre t x) /\
  (forall x, normalizar_nombre t (py_join [32] (py_split x)) = normalizar_nombre t x) /\
  (forall x y, py_split (py_lower t x) = py_split (py_lower t y) ->
     normalizar_nombre t x = normalizar_nombre t y) /\
  normalizar_nombre t (u "  Albert   SUNYER ") = normalizar_nombre t (u "albert sunyer") /\
  normalizar_nombre t (u "albert sunyer") = u "albert sunyer vilafranca".
Proof.
  intros Hst Hok Hsg Hsp.
  split; [| split; [| split; [| split; [| split; [| split]]]]].
  - intros x. unfold normalizar_nombre at 2. fold (collapse t x).
    destruct (dict_get_cases (collapse t x) NOMBRE_MAPPING (collapse t x))
      as [E | [k Hk]].
    + rewrite E. unfold normalizar_nombre. fold (collapse t (collapse t x)).
      rewrite collapse_idem by assumption. etransitivity; [exact E | symmetry; exact E].
    + exact (nombre_mapping_values_fixed t Hok k _ Hk).
  - exact (nombre_mapping_values_fixed t Hok).
  - intros x. rewrite !normalizar_nombre_split.
    rewrite (py_lower_id t (py_lower t x) Hsg); [reflexivity |].
    intros c Hc. exact (py_lower_aux_output t [] x c Hst Hsg Hc).
  - intros x. rewrite !normalizar_nombre_split.
    rewrite (py_split_lower t (py_join [32] (py_split x)) Hsp).
    rewrite (py_split_join (py_split x))
      by (apply Forall_forall; intros w Hw; exact (proj1 (py_split_aux_words [] x eq_refl w Hw))).
    rewrite <- (py_split_lower t x Hsp). reflexivity.
  - intros x y H. rewrite !normalizar_nombre_split, H. reflexivity.
  - unfold normalizar_nombre.
    rewrite !(py_lower_latin1 t) by (exact Hok || (vm_compute; reflexivity)).
    vm_compute. reflexivity.
  - unfold normalizar_nombre.
    rewrite (py_lower_latin1 t) by (exact Hok || (vm_compute; reflexivity)).
    vm_compute. reflexivity.
Qed.

Lemma C7_normalizar_nombre_case_space_witness :
  lower_table_stable latin1_greek_casing = true /\
  latin1_lower_ok latin1_greek_casing = true /\
  sigma_ok latin1_greek_casing = true /\
  spaces_ok latin1_greek_casing = true /\
  normalizar_nombre latin1_greek_casing
    (py_lower latin1_greek_casing (u " Mar  ESTEVA ")) =
  normalizar_nombre latin1_greek_casing (u " Mar  ESTEVA ").
Proof.
  assert (H1 : lower_table_stable latin1_greek_casing = true) by (vm_compute; reflexivity).
  assert (H2 : latin1_lower_ok latin1_greek_casing = true) by (vm_compute; reflexivity).
  assert (H3 : sigma_ok latin1_greek_casing = true) by (vm_compute; reflexivity).
  assert (H4 : spaces_ok latin1_greek_casing = true) by (vm_compute; reflexivity).
  split; [exact H1 | split; [exact H2 | split; [exact H3 | split; [exact H4 |]]]].
  exact (proj1 (proj2 (proj2 (C7_normalizar_nombre_case_space latin1_greek_casing
                                H1 H2 H3 H4))) _).
Defined.

(** C7 (counterexample to case-insensitivity in general): "ΑΣ" is "ασ"
    with each letter in upper case, yet "ασ" normalizes to "ασ" and "ΑΣ" to
    "ας", since Python lowercases a word-final capital sigma to the final
    sigma U+03C2. *)
Lemma C7_case_variants_normalize_apart :
  flat_map (lower_char latin1_greek_casing) [913; 931] = [945; 963] /\
  normalizar_nombre latin1_greek_casing [945; 963] = [945; 963] /\
  normalizar_nombre latin1_greek_casing [913; 931] = [945; 962].
Proof. vm_compute. repeat split. Qed.

Example date_range_jan_feb :
  pd_date_range (mkdate 2025 1 30) (mkdate 2025 2 2)
  = [mkdate 2025 1 30; mkdate 2025 1 31; mkdate 2025 2 1; mkdate 2025 2 2].
Proof. reflexivity. Qed.

Example date_range_year_end :
  pd_date_range (mkdate 2024 12 31) (mkdate 2025 1 1)
  = [mkdate 2024 12 31; mkdate 2025 1 1].
Proof. reflexivity. Qed.

(** ** Dates and [pd.date_range] *)

Lemma valid_date_spec (d : date) : valid_date d = true <-> valid d.
Proof.
  unfold valid_date, valid. rewrite !andb_true_iff, !Z.leb_le. tauto.
Qed.

Lemma valid_bounds (d : date) : valid d -> 1 <= month d <= 12 /\ 1 <= day d <= 31.
Proof.
  intros [Hm Hd]. pose proof (days_in_month_pos (year d) (month d)). lia.
Qed.

Lemma date_le_key (a b : date) : valid a -> valid b -> date_le a b = (date_key a <=? date_key b).
Proof.
  intros Ha Hb. apply valid_bounds in Ha, Hb.
  destruct a as [ya ma da], b as [yb mb db]; unfold date_le, date_key in *; simpl in *.
  destruct (Z.leb_spec (ya * 416 + ma * 32 + da) (yb * 416 + mb * 32 + db));
  zcase; rewrite ?andb_true_r, ?andb_false_r; simpl; zcase.
Qed.

Lemma date_key_inj (a b : date) : valid a -> valid b -> date_key a = date_key b -> a = b.
Proof.
  intros Ha Hb E. apply valid_bounds in Ha, Hb.
  destruct a as [ya ma da], b as [yb mb db]; unfold date_key in *; simpl in *.
  assert (ya = yb) by lia. subst. assert (ma = mb) by lia. subst.
  assert (da = db) by lia. subst. reflexivity.
Qed.

Lemma next_day_valid (d : date) : valid d -> valid (next_day d).
Proof.
  intros [Hm Hd]. unfold next_day, valid in *.
  destruct (Z.ltb_spec (day d) (days_in_month (year d) (month d))); simpl.
  - lia.
  - destruct (Z.ltb_spec (month d) 12); simpl.
    + pose proof (days_in_month_pos (year d) (month d + 1)). lia.
    + pose proof (days_in_month_pos (year d + 1) 1). lia.
Qed.

Lemma next_day_key (d : date) : valid d -> date_key d < date_key (next_day d).
Proof.
  intros Hv. pose proof (valid_bounds d Hv). unfold next_day, date_key.
  destruct (Z.ltb_spec (day d) (days_in_month (year d) (month d))); simpl.
  - lia.
  - destruct (Z.ltb_spec (month d) 12); simpl; lia.
Qed.

(** [next_day] is the successor among valid dates. *)
Lemma next_day_succ (d e : date) : valid d -> valid e -> date_key d < date_key e ->
  date_key (next_day d) <= date_key e.
Proof.
  intros Hd He Hlt. pose proof (valid_bounds d Hd) as Bd. pose proof (valid_bounds e He) as Be.
  destruct Hd as [_ Hdd]. destruct He as [_ Hed].
  pose proof (days_in_month_pos (year d) (month d)).
  unfold next_day, date_key in *.
  destruct (Z.ltb_spec (day d) (days_in_month (year d) (month d))); simpl.
  - lia.
  - destruct (Z.eq_dec (year e) (year d)) as [Ey | Ey];
    [destruct (Z.eq_dec (month e) (month d)) as [Em | Em] |].
    + rewrite Ey, Em in Hed. lia.
    + destruct (Z.ltb_spec (month d) 12); simpl; lia.
    + destruct (Z.ltb_spec (month d) 12); simpl; lia.
Qed.

Lemma period_mono (a b : date) : valid a -> valid b -> date_key a <= date_key b ->
  period_of a <= period_of b.
Proof.
  intros Ha Hb H. apply valid_bounds in Ha, Hb.
  unfold period_of, period_m, date_key in *. lia.
Qed.

Lemma range_from_sound (n : nat) (d f e : date) : valid d -> valid f ->
  In e (range_from n d f) -> valid e /\ date_key d <= date_key e <= date_key f.
Proof.
  revert d. induction n as [| n IH]; intros d Hd Hf Hin; simpl in Hin; [destruct Hin |].
  destruct (date_le d f) eqn:Ele; [| destruct Hin].
  rewrite date_le_key in Ele by assumption. apply Z.leb_le in Ele.
  destruct Hin as [<- | Hin]; [split; [exact Hd | lia] |].
  destruct (IH (next_day d) (next_day_valid d Hd) Hf Hin) as [He Hk].
  pose proof (next_day_key d Hd). split; [exact He | lia].
Qed.

Lemma range_from_complete (n : nat) (d f e : date) : valid d -> valid f -> valid e ->
  date_key d <= date_key e <= date_key f -> date_key e - date_key d < Z.of_nat n ->
  In e (range_from n d f).
Proof.
  revert d. induction n as [| n IH]; intros d Hd Hf He Hk Hn; [simpl in Hn; lia |].
  simpl. rewrite date_le_key by assumption.
  destruct (Z.leb_spec (date_key d) (date_key f)); [| lia].
  destruct (Z.eq_dec (date_key d) (date_key e)) as [E | E].
  - left. apply date_key_inj; assumption.
  - right. pose proof (next_day_succ d e Hd He ltac:(lia)).
    pose proof (next_day_key d Hd).
    apply IH; [apply next_day_valid; exact Hd | exact Hf | exact He | lia | lia].
Qed.

Lemma range_from_NoDup (n : nat) (d f : date) : valid d -> valid f -> NoDup (range_from n d f).
Proof.
  revert d. induction n as [| n IH]; intros d Hd Hf; simpl; [constructor |].
  destruct (date_le d f); [| constructor].
  constructor.
  - intro Hin. apply range_from_sound in Hin; [| apply next_day_valid; exact Hd | exact Hf].
    pose proof (next_day_key d Hd). lia.
  - apply IH; [apply next_day_valid; exact Hd | exact Hf].
Qed.

Lemma pd_date_range_spec (s f e : date) : valid s -> valid f ->
  In e (pd_date_range s f) <-> valid e /\ date_le s e = true /\ date_le e f = true.
Proof.
  intros Hs Hf. unfold pd_date_range. split.
  - intros Hin. destruct (range_from_sound _ s f e Hs Hf Hin) as [He Hk].
    rewrite !date_le_key by assumption. rewrite !Z.leb_le. tauto.
  - intros [He [H1 H2]]. rewrite date_le_key in H1, H2 by assumption.
    apply Z.leb_le in H1, H2. apply range_from_complete; try assumption; [lia |].
    rewrite Z2Nat.id by lia. lia.
Qed.

Lemma in_month_dates (y m : Z) (e : date) :
  In e (month_dates y m) <-> year e = y /\ month e = m /\ 1 <= day e <= days_in_month y m.
Proof.
  unfold month_dates. rewrite in_map_iff. split.
  - intros [k [<- Hk]]. apply in_zseq in Hk. simpl.
    pose proof (days_in_month_pos y m). rewrite Z2Nat.id in Hk by lia. lia.
  - intros [Hy [Hm Hd]]. exists (day e). split.
    + destruct e; simpl in *; subst; reflexivity.
    + apply in_zseq. pose proof (days_in_month_pos y m). rewrite Z2Nat.id by lia. lia.
Qed.

Lemma zseq_NoDup (a : Z) (n : nat) : NoDup (zseq a n).
Proof.
  revert a. induction n as [| n IH]; intros a; simpl; constructor.
  - rewrite in_zseq. lia.
  - apply IH.
Qed.

Lemma month_dates_NoDup (y m : Z) : NoDup (month_dates y m).
Proof.
  unfold month_dates. generalize (zseq_NoDup 1 (Z.to_nat (days_in_month y m))).
  induction 1 as [| k l Hk Hl IH]; simpl; constructor; [| exact IH].
  intro Hin. apply in_map_iff in Hin as [k' [E Hk']]. inversion E; subst. contradiction.
Qed.

(** ** Apportionment of a leave over months *)

Lemma length_same_elems {A} (l1 l2 : list A) :
  NoDup l1 -> NoDup l2 -> (forall x, In x l1 <-> In x l2) -> length l1 = length l2.
Proof.
  intros H1 H2 H. apply Nat.le_antisymm; apply NoDup_incl_length; try assumption;
    intros x Hx; apply H; exact Hx.
Qed.

Lemma count_in_month (fes : date -> bool) (s f : date) (y m : Z) :
  valid s -> valid f -> 1 <= m <= 12 ->
  calcular_dias_laborables_por_mes fes s f (period_m y m) = leave_days_in_month fes s f y m.
Proof.
  intros Hs Hf Hm. unfold calcular_dias_laborables_por_mes, leave_days_in_month.
  f_equal. apply length_same_elems.
  - apply NoDup_filter, NoDup_filter, NoDup_filter, range_from_NoDup; assumption.
  - apply NoDup_filter, month_dates_NoDup.
  - intros d. rewrite !filter_In, in_month_dates, pd_date_range_spec by assumption.
    unfold working_day, period_of, period_m.
    rewrite !andb_true_iff, negb_true_iff, Z.eqb_eq. split.
    + intros [[[[Hv [H1 H2]] Hw] Hh] Hp]. apply valid_bounds in Hv as Hb.
      destruct Hv as [_ Hd].
      assert (year d = y /\ month d = m) as [Ey Em] by lia.
      rewrite Ey, Em in Hd. tauto.
    + intros [[Hy [Em Hd]] [[[Hw Hh] H1] H2]].
      assert (Hv : valid d) by (unfold valid; rewrite Hy, Em; lia).
      subst y m. repeat split; try assumption; lia.
Qed.

(** A day lies in exactly one month: the one-hot sum over consecutive
    periods. *)
Lemma zsum_one_hot (p a : Z) (n : nat) : a <= p < a + Z.of_nat n ->
  zsum (map (fun k => if p =? k then 1 else 0) (zseq a n)) = 1.
Proof.
  revert a. induction n as [| n IH]; intros a Ha; [lia |]. simpl.
  destruct (Z.eqb_spec p a) as [-> | Hne].
  - assert (Hz : forall b n', a < b ->
              zsum (map (fun k => if a =? k then 1 else 0) (zseq b n')) = 0).
    { intros b n'. revert b. induction n' as [| n' IHn]; intros b Hb; simpl; [reflexivity |].
      destruct (Z.eqb_spec a b); [lia |]. rewrite IHn by lia. reflexivity. }
    rewrite Hz by lia. reflexivity.
  - rewrite IH by lia. reflexivity.
Qed.

Lemma zsum_map_plus {A} (g h : A -> Z) (l : list A) :
  zsum (map (fun x => g x + h x) l) = zsum (map g l) + zsum (map h l).
Proof. induction l as [| x l IH]; simpl; [reflexivity | rewrite IH; lia]. Qed.

Lemma zsum_map_ext {A} (g h : A -> Z) (l : list A) :
  (forall x, In x l -> g x = h x) -> zsum (map g l) = zsum (map h l).
Proof.
  induction l as [| x l IH]; simpl; intros H; [reflexivity |].
  rewrite (H x (or_introl eq_refl)), IH; [reflexivity |]. intros y Hy. apply H. right. exact Hy.
Qed.

(** Counting a list by month and summing over the months that cover it
    gives its length. *)
Lemma zsum_count_by_period (W : list date) (a : Z) (n : nat) :
  (forall d, In d W -> a <= period_of d < a + Z.of_nat n) ->
  zsum (map (fun k => Z.of_nat (length (filter (fun d => period_of d =? k) W))) (zseq a n))
  = Z.of_nat (length W).
Proof.
  induction W as [| d W IH]; intros H.
  - simpl. clear H. generalize a. induction n as [| n IHn]; intros b; simpl; [reflexivity |].
    rewrite IHn. reflexivity.
  - rewrite (zsum_map_ext _ (fun k => (if period_of d =? k then 1 else 0)
                                     + Z.of_nat (length (filter (fun d => period_of d =? k) W)))).
    + rewrite zsum_map_plus, zsum_one_hot, IH.
      * simpl length. lia.
      * intros d' Hd'. apply H. right. exact Hd'.
      * apply H. left. reflexivity.
    + intros k _. simpl. destruct (period_of d =? k); simpl length; lia.
Qed.

Lemma list_Z_eqb_refl (a : list Z) : list_Z_eqb a a = true.
Proof. induction a as [| x a IH]; simpl; [reflexivity | rewrite Z.eqb_refl, IH; reflexivity]. Qed.

Lemma filter_filter_andb {A} (g h : A -> bool) (l : list A) :
  filter g (filter h l) = filter (fun x => h x && g x) l.
Proof.
  induction l as [| x l IH]; simpl; [reflexivity |].
  destruct (h x); simpl; [destruct (g x); simpl; rewrite IH; reflexivity | exact IH].
Qed.

Lemma to_datetime_field_ok (d : date) :
  valid_date d = true -> in_bounds d = true -> to_datetime_field (Some d) = Ok d.
Proof. intros H1 H2. simpl. rewrite H1, H2. reflexivity. Qed.

Lemma filter_none_length {A} (p : A -> bool) (l : list A) :
  (forall x, In x l -> p x = false) -> length (filter p l) = 0%nat.
Proof.
  induction l as [| x l IH]; simpl; intros H; [reflexivity |].
  rewrite (H x (or_introl eq_refl)). apply IH. intros y Hy. apply H. right. exact Hy.
Qed.

(** Outside the months of [[s, f]] a month has no working day of it. *)
Lemma leave_days_outside (fes : date -> bool) (s f : date) (y m : Z) :
  valid s -> valid f -> 1 <= m <= 12 ->
  (period_m y m < period_of s \/ period_of f < period_m y m) ->
  leave_days_in_month fes s f y m = 0.
Proof.
  intros Hs Hf Hm Hout. unfold leave_days_in_month.
  rewrite filter_none_length; [reflexivity |].
  intros d Hd. apply in_month_dates in Hd as [Hy [Em Hdd]].
  assert (Hv : valid d) by (unfold valid; rewrite Hy, Em; lia).
  destruct (working_day fes d); simpl; [| reflexivity].
  destruct (date_le s d) eqn:H1; simpl; [| reflexivity].
  destruct (date_le d f) eqn:H2; [| reflexivity].
  rewrite date_le_key in H1, H2 by assumption. apply Z.leb_le in H1, H2.
  pose proof (period_mono s d Hs Hv H1). pose proof (period_mono d f Hv Hf H2).
  unfold period_of in *. rewrite Hy, Em in *. lia.
Qed.

Lemma single_leave_month (fes : date -> bool) (t : casing) (emp n : list Z)
    (l : leave) (s f : date) (y m : Z) :
  employee_full_name l = Some n -> normalizar_nombre t n = normalizar_nombre t emp ->
  start_on l = Some s -> finish_on l = Some f ->
  valid_date s = true -> valid_date f = true -> in_bounds s = true -> in_bounds f = true ->
  1 <= m <= 12 ->
  exists v o te, calcular_ausencias_empleado fes t [l] emp y m = Ok (v, o, te)
                 /\ v + o + te = leave_days_in_month fes s f y m.
Proof.
  intros Hn Hnm Hs Hf Hvs Hvf Hbs Hbf Hm.
  pose proof (proj1 (valid_date_spec s) Hvs) as Vs.
  pose proof (proj1 (valid_date_spec f) Hvf) as Vf.
  unfold calcular_ausencias_empleado. simpl. unfold ausencia_step.
  rewrite Hn, Hnm, list_Z_eqb_refl. simpl negb. cbv iota.
  rewrite Hs, Hf, (to_datetime_field_ok s), (to_datetime_field_ok f) by assumption.
  simpl bind.
  destruct ((period_m y m <? period_of s) || (period_of f <? period_m y m)) eqn:Hskip.
  - exists 0, 0, 0. split; [reflexivity |].
    rewrite leave_days_outside; try assumption; [reflexivity |].
    apply orb_true_iff in Hskip as [H | H]; apply Z.ltb_lt in H; [left | right]; exact H.
  - rewrite (count_in_month fes s f y m Vs Vf Hm).
    destruct (leave_type_id l) as [tipo |];
    repeat match goal with |- context [if ?b then _ else _] => destruct b end;
    eexists; eexists; eexists; (split; [reflexivity | lia]).
Qed.

(** For any holiday test [fes], and a leave of the employee with valid,
    representable dates [s] and [f], the classification for any target month counts exactly
    the working days (Monday-Friday, not a holiday) of [[s, f]] that fall
    in that month (whatever month the leave starts in), and summing the
    classified days over every month from the month of [s] to the month
    of [f] gives the working-day count of the whole range. *)
Lemma leave_apportioned_by_month (fes : date -> bool) (t : casing)
    (emp n : list Z) (l : leave) (s f : date) :
  employee_full_name l = Some n -> normalizar_nombre t n = normalizar_nombre t emp ->
  start_on l = Some s -> finish_on l = Some f ->
  valid_date s = true -> valid_date f = true -> in_bounds s = true -> in_bounds f = true ->
  (forall y m, 1 <= m <= 12 ->
     exists v o te, calcular_ausencias_empleado fes t [l] emp y m = Ok (v, o, te)
                    /\ v + o + te = leave_days_in_month fes s f y m) /\
  zsum (map (classified_days fes t [l] emp) (months_between s f))
  = range_working_days fes s f.
Proof.
  intros Hn Hnm Hs Hf Hvs Hvf Hbs Hbf.
  pose proof (proj1 (valid_date_spec s) Hvs) as Vs.
  pose proof (proj1 (valid_date_spec f) Hvf) as Vf.
  split.
  - intros y m Hm. apply (single_leave_month fes t emp n); assumption.
  - set (W := filter (fun d => negb (fes d)) (filter is_weekday (pd_date_range s f))).
    assert (HW : forall d, In d W ->
              period_of s <= period_of d < period_of s
                + Z.of_nat (Z.to_nat (period_of f - period_of s + 1))).
    { intros d Hd. unfold W in Hd. rewrite !filter_In in Hd.
      destruct Hd as [[Hd _] _]. apply pd_date_range_spec in Hd as [Hv [H1 H2]]; try assumption.
      rewrite date_le_key in H1, H2 by assumption. apply Z.leb_le in H1, H2.
      pose proof (period_mono s d Vs Hv H1). pose proof (period_mono d f Hv Vf H2). lia. }
    unfold months_between.
    rewrite (zsum_map_ext _ (fun k => Z.of_nat (length (filter (fun d => period_of d =? k) W)))).
    + rewrite zsum_count_by_period by exact HW.
      unfold range_working_days, W, working_day. rewrite filter_filter_andb. reflexivity.
    + intros k _. unfold classified_days.
      assert (Hk : 1 <= k mod 12 + 1 <= 12) by (pose proof (Z.mod_pos_bound k 12); lia).
      destruct (single_leave_month fes t emp n l s f (k / 12) (k mod 12 + 1)
                  Hn Hnm Hs Hf Hvs Hvf Hbs Hbf Hk) as [v [o [te [E Hsum]]]].
      rewrite E, Hsum, <- count_in_month by assumption.
      unfold calcular_dias_laborables_por_mes.
      replace (period_m (k / 12) (k mod 12 + 1)) with k
        by (unfold period_m; pose proof (Z.div_mod k 12); lia).
      reflexivity.
Qed.

(** C2 (code bug): with the holiday test the code really has, nothing is
    left out. For a leave of the employee with valid, representable dates
    [s] and [f], the classification for a month counts every Monday-Friday
    date of [[s, f]] in that month, holidays included, and these counts
    add up over the months of the leave to the number of Monday-Friday
    dates of [[s, f]]. *)
Theorem C2_holidays_not_excluded (t : casing) (emp n : list Z) (l : leave)
    (s f : date) :
  employee_full_name l = Some n -> normalizar_nombre t n = normalizar_nombre t emp ->
  start_on l = Some s -> finish_on l = Some f ->
  valid_date s = true -> valid_date f = true -> in_bounds s = true -> in_bounds f = true ->
  (forall y m, 1 <= m <= 12 ->
     exists v o te,
       calcular_ausencias_empleado festivos_barcelona_isin t [l] emp y m = Ok (v, o, te)
       /\ v + o + te = Z.of_nat (length (filter (fun d => is_weekday d && date_le s d
                                                         && date_le d f) (month_dates y m)))) /\
  zsum (map (classified_days festivos_barcelona_isin t [l] emp) (months_between s f))
  = Z.of_nat (length (filter is_weekday (pd_date_range s f))).
Proof.
  intros Hn Hnm Hs Hf Hvs Hvf Hbs Hbf.
  destruct (leave_apportioned_by_month festivos_barcelona_isin t emp n l s f
              Hn Hnm Hs Hf Hvs Hvf Hbs Hbf) as [H1 H2].
  split.
  - intros y m Hm. destruct (H1 y m Hm) as [v [o [te [E S]]]].
    exists v, o, te. split; [exact E |]. rewrite S.
    unfold leave_days_in_month, working_day, festivos_barcelona_isin. simpl negb.
    do 2 f_equal. apply filter_ext. intros d. rewrite andb_true_r. reflexivity.
  - rewrite H2. unfold range_working_days, working_day, festivos_barcelona_isin. simpl negb.
    do 2 f_equal. apply filter_ext. intros d. apply andb_true_r.
Qed.

(** On the Easter leave of April 2025 the classification gives ten
    vacation days, where leaving out the two Catalan holidays gives eight. *)
Lemma C2_holidays_not_excluded_witness :
  ((forall y m, 1 <= m <= 12 ->
     exists v o te,
       calcular_ausencias_empleado festivos_barcelona_isin latin1_lower_table
         [leave_semana_santa] (u "albert sunyer") y m = Ok (v, o, te)
       /\ v + o + te = Z.of_nat (length (filter (fun d => is_weekday d
                                   && date_le (mkdate 2025 4 14) d
                                   && date_le d (mkdate 2025 4 25)) (month_dates y m)))) /\
   zsum (map (classified_days festivos_barcelona_isin latin1_lower_table [leave_semana_santa]
                (u "albert sunyer"))
             (months_between (mkdate 2025 4 14) (mkdate 2025 4 25)))
   = Z.of_nat (length (filter is_weekday (pd_date_range (mkdate 2025 4 14) (mkdate 2025 4 25))))) /\
  calcular_ausencias_empleado festivos_barcelona_isin latin1_lower_table
    [leave_semana_santa] (u "Albert Sunyer") 2025 4 = Ok (10, 0, 0) /\
  range_working_days fes_ct (mkdate 2025 4 14) (mkdate 2025 4 25) = 8.
Proof.
  split; [| split; vm_compute; reflexivity].
  apply (C2_holidays_not_excluded latin1_lower_table (u "albert sunyer") (u "Albert Sunyer")
           leave_semana_santa (mkdate 2025 4 14) (mkdate 2025 4 25));
    vm_compute; reflexivity.
Defined.

Example leave_mar_apr_march :
  calcular_ausencias_empleado (fun d => existsb (date_eqb d) (catalonia_holidays (year d)))
    latin1_lower_table [leave_mar_apr] (u "Albert Sunyer") 2025 3 = Ok (2, 0, 0).
Proof. vm_compute. reflexivity. Qed.

Example leave_mar_apr_april :
  calcular_ausencias_empleado (fun d => existsb (date_eqb d) (catalonia_holidays (year d)))
    latin1_lower_table [leave_mar_apr] (u "Albert Sunyer") 2025 4 = Ok (2, 0, 0).
Proof. vm_compute. reflexivity. Qed.

(* ------------------------------------------------------------------ *)
(** ** Classification by leave type *)

Lemma ausencias_loop_app (fes : date -> bool) (t : casing) (en : list Z) (p : Z)
    (acc : Z * Z * Z) (ls : list leave) (a : leave) :
  ausencias_loop fes t en p acc (ls ++ [a])
  = bind (ausencias_loop fes t en p acc ls) (fun acc' => ausencia_step fes t en p acc' a).
Proof.
  revert acc. induction ls as [| b ls IH]; intros acc; simpl.
  - destruct (ausencia_step fes t en p acc a); reflexivity.
  - destruct (ausencia_step fes t en p acc b); [apply IH | reflexivity].
Qed.

Lemma valid_of_datetime (r : option date) (d : date) :
  to_datetime_field r = Ok d -> r = Some d /\ valid d.
Proof.
  destruct r as [d0 |]; simpl; [| discriminate].
  destruct (valid_date d0) eqn:V; simpl; [| discriminate].
  destruct (in_bounds d0); [| discriminate]. intros H; injection H as <-.
  split; [reflexivity | apply valid_date_spec; exact V].
Qed.

(** One iteration adds the leave's in-month working days to the bucket
    of its type id, provided [1 <= m <= 12]. *)
Lemma ausencia_step_ok (fes : date -> bool) (t : casing) (emp : list Z)
    (y m : Z) (v0 o0 t0 v1 o1 t1 : Z) (a : leave) : 1 <= m <= 12 ->
  ausencia_step fes t (normalizar_nombre t emp) (period_m y m) (v0, o0, t0) a = Ok (v1, o1, t1) ->
  let d k := if leave_matches t emp a && Nat.eqb (bucket_of (leave_type_id a)) k
             then leave_month_days fes a y m else 0 in
  v1 = v0 + d 0%nat /\ o1 = o0 + d 1%nat /\ t1 = t0 + d 2%nat.
Proof.
  intros Hm H d. unfold d; clear d. unfold ausencia_step, leave_matches in *.
  destruct (list_Z_eqb _ _) eqn:Em; simpl negb in H; cbv iota in H; simpl andb.
  2: { injection H as <- <- <-. lia. }
  destruct (to_datetime_field (start_on a)) as [s |] eqn:Hs; simpl in H; [| discriminate].
  destruct (to_datetime_field (finish_on a)) as [f |] eqn:Hf; simpl in H; [| discriminate].
  apply valid_of_datetime in Hs as [Hs Vs]. apply valid_of_datetime in Hf as [Hf Vf].
  unfold leave_month_days. rewrite Hs, Hf.
  destruct ((period_m y m <? period_of s) || (period_of f <? period_m y m)) eqn:Hskip.
  - injection H as <- <- <-.
    rewrite leave_days_outside; try assumption.
    + destruct (Nat.eqb _ _), (Nat.eqb _ _), (Nat.eqb _ _); lia.
    + apply orb_true_iff in Hskip as [E | E]; apply Z.ltb_lt in E; [left | right]; exact E.
  - rewrite (count_in_month fes s f y m Vs Vf Hm) in H.
    unfold ids_no_descuentan, ID_VACACIONES in H.
    destruct (leave_type_id a) as [tipo |]; simpl existsb in H; simpl bucket_of.
    + destruct (tipo =? 2280065); simpl in H |- *;
        [| destruct (tipo =? 2276680); simpl in H |- *];
        injection H as <- <- <-; lia.
    + injection H as <- <- <-. simpl. lia.
Qed.

Lemma ausencias_loop_buckets (fes : date -> bool) (t : casing) (emp : list Z)
    (y m : Z) (ls : list leave) : 1 <= m <= 12 ->
  forall v0 o0 t0 v o te,
  ausencias_loop fes t (normalizar_nombre t emp) (period_m y m) (v0, o0, t0) ls = Ok (v, o, te) ->
  v = v0 + bucket_total fes t emp y m 0 ls /\ o = o0 + bucket_total fes t emp y m 1 ls
  /\ te = t0 + bucket_total fes t emp y m 2 ls.
Proof.
  intros Hm. induction ls as [| a ls IH]; intros v0 o0 t0 v o te H; simpl in H.
  - injection H as <- <- <-. unfold bucket_total. simpl. lia.
  - destruct (ausencia_step fes t (normalizar_nombre t emp) (period_m y m) (v0, o0, t0) a)
      as [[[v1 o1] t1] |] eqn:Hstep; simpl in H; [| discriminate].
    apply ausencia_step_ok in Hstep as [E1 [E2 E3]]; [| exact Hm].
    destruct (IH v1 o1 t1 v o te H) as [F1 [F2 F3]].
    unfold bucket_total in *. simpl. lia.
Qed.

(** C3: when the classification returns [(vacationDays, otherAbsenceDays,
    remoteCreditDays)], each output is the sum of the in-month working
    days of the matching leaves whose type id falls in its bucket (type id
    2276680: vacation; 2280065: remote-work credit; any other: other
    absence), every leave lying in exactly one bucket. Adding a matching
    leave of type 2280065 with valid dates changes only the third output,
    by its in-month working days: the two inputs [dias_vacaciones] and
    [dias_otras_ausencias] of [calcular_horas_disponibles] stay the same
    (it has no remote-credit input). The sample leave of Albert Sunyer,
    3 to 5 March 2025, gives [(0, 0, 3)]. *)
Theorem C3_leave_type_buckets (fes : date -> bool) (t : casing) (emp : list Z)
    (ls : list leave) (y m v o te : Z) (a : leave) (s f : date) :
  1 <= m <= 12 ->
  calcular_ausencias_empleado fes t ls emp y m = Ok (v, o, te) ->
  leave_matches t emp a = true -> leave_type_id a = Some 2280065 ->
  start_on a = Some s -> finish_on a = Some f ->
  valid_date s = true -> valid_date f = true -> in_bounds s = true -> in_bounds f = true ->
  (v = bucket_total fes t emp y m 0 ls /\ o = bucket_total fes t emp y m 1 ls
   /\ te = bucket_total fes t emp y m 2 ls) /\
  calcular_ausencias_empleado fes t (ls ++ [a]) emp y m
  = Ok (v, o, te + leave_month_days fes a y m) /\
  calcular_ausencias_empleado fes_ct latin1_lower_table [albert_remote]
    (u "Albert Sunyer") 2025 3 = Ok (0, 0, 3).
Proof.
  intros Hm H Ha Ht Hs Hf Vs Vf Bs Bf.
  split; [| split].
  - apply (ausencias_loop_buckets fes t emp y m ls Hm 0 0 0) in H. lia.
  - unfold calcular_ausencias_empleado in *. rewrite ausencias_loop_app, H. simpl bind.
    unfold ausencia_step. unfold leave_matches in Ha. rewrite Ha. simpl negb. cbv iota.
    rewrite Hs, Hf, (to_datetime_field_ok s), (to_datetime_field_ok f) by assumption.
    simpl bind. unfold leave_month_days. rewrite Hs, Hf.
    apply valid_date_spec in Vs, Vf.
    destruct ((period_m y m <? period_of s) || (period_of f <? period_m y m)) eqn:Hskip.
    + rewrite leave_days_outside; try assumption.
      * rewrite Z.add_0_r. reflexivity.
      * apply orb_true_iff in Hskip as [E | E]; apply Z.ltb_lt in E; [left | right]; exact E.
    + rewrite (count_in_month fes s f y m Vs Vf Hm), Ht. reflexivity.
  - vm_compute. reflexivity.
Qed.

Lemma C3_leave_type_buckets_witness :
  (0 = bucket_total fes_ct latin1_lower_table (u "Albert Sunyer") 2025 3 0 []
   /\ 0 = bucket_total fes_ct latin1_lower_table (u "Albert Sunyer") 2025 3 1 []
   /\ 0 = bucket_total fes_ct latin1_lower_table (u "Albert Sunyer") 2025 3 2 []) /\
  calcular_ausencias_empleado fes_ct latin1_lower_table ([] ++ [albert_remote])
    (u "Albert Sunyer") 2025 3
  = Ok (0, 0, 0 + leave_month_days fes_ct albert_remote 2025 3) /\
  calcular_ausencias_empleado fes_ct latin1_lower_table [albert_remote]
    (u "Albert Sunyer") 2025 3 = Ok (0, 0, 3).
Proof.
  apply (C3_leave_type_buckets fes_ct latin1_lower_table (u "Albert Sunyer") [] 2025 3 0 0 0
           albert_remote (mkdate 2025 3 3) (mkdate 2025 3 5));
    first [lia | vm_compute; reflexivity].
Defined.

(* ------------------------------------------------------------------ *)
(** ** Task aggregator *)

Section Assoc.

Context {K V : Type} (eqb : K -> K -> bool).
Hypothesis eqb_iff : forall x y, eqb x y = true <-> x = y.

Lemma eqb_sym_false (x y : K) : eqb x y = false -> eqb y x = false.
Proof.
  intros H. destruct (eqb y x) eqn:E; [| reflexivity].
  apply eqb_iff in E. subst. rewrite (proj2 (eqb_iff x x) eq_refl) in H. discriminate.
Qed.

Lemma assoc_get_update (k k' : K) (f : V -> V) (l : list (K * V)) :
  assoc_get eqb k' (assoc_update eqb k f l)
  = if eqb k' k then option_map f (assoc_get eqb k l) else assoc_get eqb k' l.
Proof.
  induction l as [| [k0 v] l IH]; simpl.
  - destruct (eqb k' k); reflexivity.
  - destruct (eqb k k0) eqn:E1; simpl.
    + apply eqb_iff in E1. subst k0. destruct (eqb k' k); reflexivity.
    + destruct (eqb k' k0) eqn:E2.
      * apply eqb_iff in E2. subst k0. rewrite (eqb_sym_false _ _ E1). reflexivity.
      * rewrite IH. destruct (eqb k' k); reflexivity.
Qed.

Lemma assoc_get_app_one (k k' : K) (v : V) (l : list (K * V)) :
  assoc_get eqb k' (l ++ [(k, v)])
  = match assoc_get eqb k' l with Some x => Some x | None => if eqb k' k then Some v else None end.
Proof.
  induction l as [| [k0 v0] l IH]; simpl; [destruct (eqb k' k); reflexivity |].
  destruct (eqb k' k0); [reflexivity | exact IH].
Qed.

Lemma assoc_get_setdefault (k k' : K) (v : V) (l : list (K * V)) :
  assoc_get eqb k' (setdefault eqb k v l)
  = match assoc_get eqb k' l with Some x => Some x | None => if eqb k' k then Some v else None end.
Proof.
  unfold setdefault. destruct (assoc_get eqb k l) eqn:E.
  - destruct (assoc_get eqb k' l) eqn:E'; [reflexivity |].
    destruct (eqb k' k) eqn:Ek; [| reflexivity].
    apply eqb_iff in Ek. subst. congruence.
  - apply assoc_get_app_one.
Qed.

End Assoc.

Lemma sheet_eqb_iff (a b : Z * Z) : sheet_eqb a b = true <-> a = b.
Proof.
  destruct a as [a1 a2], b as [b1 b2]. unfold sheet_eqb. simpl.
  rewrite andb_true_iff, !Z.eqb_eq. split; [intros [-> ->]; reflexivity |].
  intros H. injection H as -> ->. split; reflexivity.
Qed.

Lemma list_Z_eqb_iff (a b : list Z) : list_Z_eqb a b = true <-> a = b.
Proof.
  split; [apply list_Z_eqb_eq | intros <-; apply list_Z_eqb_refl].
Qed.

Section AggregatorFacts.

Variable t : casing.
Context {num : Type} (zero : num) (add div : num -> num -> num) (of_nat : nat -> num)
  (sixty : num).
Variable proj : empleado_mes num -> num.
Variable hc est sh : num.
Hypothesis proj_nuevo : proj (nuevo_empleado zero) = zero.
Hypothesis proj_sumar : forall r, proj (sumar_horas add hc est r) = add (proj r) sh.

Lemma sumar_colab_field (s : sheet num) (c : list Z * list Z) (nm : list Z) :
  field_of zero proj (sumar_colab t zero add hc est s c) nm
  = if list_Z_eqb nm (colab_name t c) then add (field_of zero proj s nm) sh
    else field_of zero proj s nm.
Proof.
  unfold sumar_colab, field_of.
  rewrite (assoc_get_update _ list_Z_eqb_iff), !(assoc_get_setdefault _ list_Z_eqb_iff).
  destruct (list_Z_eqb nm (colab_name t c)) eqn:E.
  - apply list_Z_eqb_iff in E. subst nm.
    destruct (assoc_get list_Z_eqb (colab_name t c) s); simpl;
      rewrite ?list_Z_eqb_refl; simpl; rewrite proj_sumar, ?proj_nuevo; reflexivity.
  - destruct (assoc_get list_Z_eqb nm s); reflexivity.
Qed.

Lemma fold_sumar_colab_field (cols : list (list Z * list Z)) (s : sheet num) (nm : list Z) :
  field_of zero proj (fold_left (sumar_colab t zero add hc est) cols s) nm
  = Nat.iter (count_name nm (map (colab_name t) cols)) (fun x => add x sh)
      (field_of zero proj s nm).
Proof.
  revert s. induction cols as [| c cols IH]; intros s; simpl; [reflexivity |].
  rewrite IH, sumar_colab_field. unfold count_name. simpl.
  destruct (list_Z_eqb nm (colab_name t c)); simpl; [| reflexivity].
  exact (Nat.iter_swap _ _ (fun x => add x sh) _).
Qed.

End AggregatorFacts.

Lemma field_of_nil {num} (zero : num) proj nm : field_of zero proj [] nm = zero.
Proof. reflexivity. Qed.

(** The effect of one task on a running total: for a task with a
    timestamp and collaborators, [c] times the share is added to the total
    of its month, once per collaborator whose normalized name is [nm];
    otherwise nothing changes. *)
Lemma agregar_tarea_total (t : casing) {num : Type} (zero : num)
    (add div : num -> num -> num) (of_nat : nat -> num) (sixty : num)
    (proj : empleado_mes num -> num) (sel : task num -> num)
    (emp : empleados_por_mes num) (tk : task num) (k : Z * Z) (nm : list Z) :
  proj (nuevo_empleado zero) = zero ->
  (forall r, proj (sumar_horas add (div (hour_charged tk) (of_nat (length (collaborators tk))))
                 (div (div (estimated tk) sixty) (of_nat (length (collaborators tk)))) r)
             = add (proj r) (div (sel tk) (of_nat (length (collaborators tk))))) ->
  total_of zero proj (agregar_tarea t zero add div of_nat sixty emp tk) k nm
  = match datetime tk with
    | Some dt =>
        if sheet_eqb k (year dt, month dt) then
          Nat.iter (count_name nm (map (colab_name t) (collaborators tk)))
            (fun x => add x (div (sel tk) (of_nat (length (collaborators tk)))))
            (total_of zero proj emp k nm)
        else total_of zero proj emp k nm
    | None => total_of zero proj emp k nm
    end.
Proof.
  intros H0 H1. unfold agregar_tarea.
  destruct (datetime tk) as [dt |]; [| reflexivity].
  destruct (collaborators tk) as [| c cols] eqn:Ec.
  - unfold total_of. rewrite (assoc_get_setdefault _ sheet_eqb_iff).
    destruct (assoc_get sheet_eqb k emp); [destruct (sheet_eqb _ _); reflexivity |].
    destruct (sheet_eqb k (year dt, month dt)); reflexivity.
  - rewrite <- Ec in *. unfold total_of.
    rewrite (assoc_get_update _ sheet_eqb_iff), !(assoc_get_setdefault _ sheet_eqb_iff).
    destruct (sheet_eqb k (year dt, month dt)) eqn:Ek.
    + apply sheet_eqb_iff in Ek. rewrite <- Ek.
      rewrite (proj2 (sheet_eqb_iff k k) eq_refl).
      destruct (assoc_get sheet_eqb k emp) as [s |]; simpl;
        rewrite (fold_sumar_colab_field t zero add proj _ _ _ H0 H1); reflexivity.
    + destruct (assoc_get sheet_eqb k emp); reflexivity.
Qed.

(** C6: a task with a timestamp and [n > 0] collaborators adds
    [hour_charged / n] to the charged-hours total and
    [(estimated / 60.0) / n] to the estimated-hours total of the month of
    its timestamp, once for each of its collaborators with normalized name
    [nm] (for any number type and its operations, so also for Python
    floats); the totals of other months do not change. A task without a
    timestamp or without collaborators changes no total. *)
Theorem C6_task_split_per_collaborator (t : casing) {num : Type} (zero : num)
    (add div : num -> num -> num) (of_nat : nat -> num) (sixty : num)
    (emp : empleados_por_mes num) (tk : task num) (dt : date) (k : Z * Z) (nm : list Z) :
  datetime tk = Some dt -> collaborators tk <> [] ->
  (total_of zero horas_cargadas (agregar_tarea t zero add div of_nat sixty emp tk) k nm
   = if sheet_eqb k (year dt, month dt) then
       Nat.iter (count_name nm (map (colab_name t) (collaborators tk)))
         (fun x => add x (div (hour_charged tk) (of_nat (length (collaborators tk)))))
         (total_of zero horas_cargadas emp k nm)
     else total_of zero horas_cargadas emp k nm) /\
  (total_of zero horas_estimadas (agregar_tarea t zero add div of_nat sixty emp tk) k nm
   = if sheet_eqb k (year dt, month dt) then
       Nat.iter (count_name nm (map (colab_name t) (collaborators tk)))
         (fun x => add x (div (div (estimated tk) sixty) (of_nat (length (collaborators tk)))))
         (total_of zero horas_estimadas emp k nm)
     else total_of zero horas_estimadas emp k nm) /\
  (forall tk' k' nm', datetime tk' = None \/ collaborators tk' = [] ->
     total_of zero horas_cargadas (agregar_tarea t zero add div of_nat sixty emp tk') k' nm'
     = total_of zero horas_cargadas emp k' nm' /\
     total_of zero horas_estimadas (agregar_tarea t zero add div of_nat sixty emp tk') k' nm'
     = total_of zero horas_estimadas emp k' nm').
Proof.
  intros Hdt _. split; [| split].
  - rewrite (agregar_tarea_total t zero add div of_nat sixty horas_cargadas hour_charged)
      by reflexivity.
    rewrite Hdt. reflexivity.
  - rewrite (agregar_tarea_total t zero add div of_nat sixty horas_estimadas
               (fun tk => div (estimated tk) sixty)) by reflexivity.
    rewrite Hdt. reflexivity.
  - intros tk' k' nm' Hskip.
    rewrite (agregar_tarea_total t zero add div of_nat sixty horas_cargadas hour_charged)
      by reflexivity.
    rewrite (agregar_tarea_total t zero add div of_nat sixty horas_estimadas
               (fun tk => div (estimated tk) sixty)) by reflexivity.
    destruct Hskip as [E | E]; rewrite E; [split; reflexivity |].
    destruct (datetime tk'); [| split; reflexivity].
    simpl. destruct (sheet_eqb _ _); split; reflexivity.
Qed.

Lemma C6_task_split_per_collaborator_witness :
  datetime tarea_10_120 = Some (mkdate 2025 3 10) /\ collaborators tarea_10_120 <> [] /\
  ((total_of 0%Q horas_cargadas
      (agregar_tarea latin1_lower_table 0%Q Qplus Qdiv Q_of_nat (60 # 1) [] tarea_10_120)
      (2025, 3) (colab_name latin1_lower_table (u "Albert", u "Sunyer"))
    = if sheet_eqb (2025, 3) (2025, 3) then
        Nat.iter (count_name (colab_name latin1_lower_table (u "Albert", u "Sunyer"))
                    (map (colab_name latin1_lower_table) (collaborators tarea_10_120)))
          (fun x => Qplus x (Qdiv (hour_charged tarea_10_120)
                                  (Q_of_nat (length (collaborators tarea_10_120)))))
          (total_of 0%Q horas_cargadas [] (2025, 3)
             (colab_name latin1_lower_table (u "Albert", u "Sunyer")))
      else total_of 0%Q horas_cargadas [] (2025, 3)
             (colab_name latin1_lower_table (u "Albert", u "Sunyer"))) /\
  (total_of 0%Q horas_estimadas
      (agregar_tarea latin1_lower_table 0%Q Qplus Qdiv Q_of_nat (60 # 1) [] tarea_10_120)
      (2025, 3) (colab_name latin1_lower_table (u "Albert", u "Sunyer"))
    = if sheet_eqb (2025, 3) (2025, 3) then
        Nat.iter (count_name (colab_name latin1_lower_table (u "Albert", u "Sunyer"))
                    (map (colab_name latin1_lower_table) (collaborators tarea_10_120)))
          (fun x => Qplus x (Qdiv (Qdiv (estimated tarea_10_120) (60 # 1))
                                  (Q_of_nat (length (collaborators tarea_10_120)))))
          (total_of 0%Q horas_estimadas [] (2025, 3)
             (colab_name latin1_lower_table (u "Albert", u "Sunyer")))
      else total_of 0%Q horas_estimadas [] (2025, 3)
             (colab_name latin1_lower_table (u "Albert", u "Sunyer")))).
Proof.
  split; [reflexivity | split; [discriminate |]].
  destruct (C6_task_split_per_collaborator latin1_lower_table 0%Q Qplus Qdiv Q_of_nat (60 # 1)
              [] tarea_10_120 (mkdate 2025 3 10) (2025, 3)
              (colab_name latin1_lower_table (u "Albert", u "Sunyer")))
    as [H1 [H2 _]]; [reflexivity | discriminate | split; [exact H1 | exact H2]].
Defined.

(** The example of the claim: each of the two collaborators gets 5 charged
    hours and 1 estimated hour. *)
Example tarea_10_120_shares :
  total_of 0%Q horas_cargadas (agregar_tareas_Q latin1_lower_table [tarea_10_120])
    (2025, 3) (u "ana ruiz") == 5 /\
  total_of 0%Q horas_estimadas (agregar_tareas_Q latin1_lower_table [tarea_10_120])
    (2025, 3) (u "ana ruiz") == 1.
Proof. split; vm_compute; reflexivity. Qed.

(** The same run in binary64 gives exactly 5.0 and 1.0. *)
Example tarea_10_120_shares_float :
  let tk := mktask (Some (mkdate 2025 3 10)) 10%float 120%float
              [(u "Albert", u "Sunyer"); (u "Ana", u "Ruiz")] in
  PrimFloat.eqb (total_of 0%float horas_cargadas
                   (agregar_tareas_float latin1_lower_table [tk]) (2025, 3) (u "ana ruiz"))
                5%float = true /\
  PrimFloat.eqb (total_of 0%float horas_estimadas
                   (agregar_tareas_float latin1_lower_table [tk]) (2025, 3) (u "ana ruiz"))
                1%float = true.
Proof. split; vm_compute; reflexivity. Qed.

(* ------------------------------------------------------------------ *)
(** ** Order of the tasks *)

Lemma Q_of_nat_S (n : nat) : Q_of_nat (S n) == (Q_of_nat n + 1)%Q.
Proof. unfold Q_of_nat. rewrite Nat2Z.inj_succ. unfold Z.succ. rewrite inject_Z_plus. reflexivity. Qed.

Lemma iter_Qplus (c : nat) (x sh : Q) :
  Nat.iter c (fun y => (y + sh)%Q) x == (x + Q_of_nat c * sh)%Q.
Proof.
  induction c as [| c IH].
  - unfold Q_of_nat. simpl. ring.
  - simpl Nat.iter. rewrite IH, Q_of_nat_S. ring.
Qed.

Lemma agregar_tarea_Q_total (t : casing) (proj : empleado_mes Q -> Q)
    (sel : task Q -> Q) (emp : empleados_por_mes Q) (tk : task Q) (k : Z * Z) (nm : list Z) :
  proj (nuevo_empleado 0%Q) = 0%Q ->
  (forall r, proj (sumar_horas Qplus (hour_charged tk / Q_of_nat (length (collaborators tk)))
                 (estimated tk / (60 # 1) / Q_of_nat (length (collaborators tk))) r)
             = proj r + sel tk / Q_of_nat (length (collaborators tk)))%Q ->
  total_of 0%Q proj (agregar_tarea t 0%Q Qplus Qdiv Q_of_nat (60 # 1) emp tk) k nm
  == (total_of 0%Q proj emp k nm + task_share t sel k nm tk)%Q.
Proof.
  intros H0 H1.
  rewrite (agregar_tarea_total t 0%Q Qplus Qdiv Q_of_nat (60 # 1) proj sel emp tk k nm H0 H1).
  unfold task_share. destruct (datetime tk) as [dt |]; [| ring].
  destruct (sheet_eqb k (year dt, month dt)); [| ring].
  rewrite iter_Qplus. unfold Qdiv. ring.
Qed.

Lemma agregar_fold_Q_total (t : casing) (proj : empleado_mes Q -> Q)
    (sel : task Q -> Q) (k : Z * Z) (nm : list Z) :
  proj (nuevo_empleado 0%Q) = 0%Q ->
  (forall tk r, proj (sumar_horas Qplus (hour_charged tk / Q_of_nat (length (collaborators tk)))
                   (estimated tk / (60 # 1) / Q_of_nat (length (collaborators tk))) r)
                = proj r + sel tk / Q_of_nat (length (collaborators tk)))%Q ->
  forall ts emp,
  total_of 0%Q proj (fold_left (agregar_tarea t 0%Q Qplus Qdiv Q_of_nat (60 # 1)) ts emp) k nm
  == (total_of 0%Q proj emp k nm + qsum (map (task_share t sel k nm) ts))%Q.
Proof.
  intros H0 H1. induction ts as [| tk ts IH]; intros emp; simpl.
  - ring.
  - rewrite IH, agregar_tarea_Q_total by auto. ring.
Qed.

Lemma qsum_perm (l l' : list Q) : Permutation l l' -> qsum l == qsum l'.
Proof.
  induction 1 as [| x l l' _ IH | x y l | l l' l'' _ IH1 _ IH2]; simpl.
  - reflexivity.
  - rewrite IH. reflexivity.
  - ring.
  - rewrite IH1. exact IH2.
Qed.

(** C9 (as amended): with exact arithmetic (hours as rationals), any
    permutation of the tasks gives the same charged-hours and
    estimated-hours totals for every month and collaborator name. *)
Theorem C9_aggregation_order_independent_Q (t : casing) (ts ts' : list (task Q))
    (k : Z * Z) (nm : list Z) :
  Permutation ts ts' ->
  total_of 0%Q horas_cargadas (agregar_tareas_Q t ts) k nm
  == total_of 0%Q horas_cargadas (agregar_tareas_Q t ts') k nm /\
  total_of 0%Q horas_estimadas (agregar_tareas_Q t ts) k nm
  == total_of 0%Q horas_estimadas (agregar_tareas_Q t ts') k nm.
Proof.
  intros HP. unfold agregar_tareas_Q, agregar_tareas. split.
  - rewrite !(agregar_fold_Q_total t horas_cargadas hour_charged k nm) by reflexivity.
    rewrite (qsum_perm _ _ (Permutation_map _ HP)). reflexivity.
  - rewrite !(agregar_fold_Q_total t horas_estimadas (fun tk => (estimated tk / (60 # 1))%Q) k nm)
      by reflexivity.
    rewrite (qsum_perm _ _ (Permutation_map _ HP)). reflexivity.
Qed.

Lemma C9_aggregation_order_independent_Q_witness :
  Permutation [tarea_10_120; tarea_10_120] [tarea_10_120; tarea_10_120] /\
  total_of 0%Q horas_cargadas (agregar_tareas_Q latin1_lower_table [tarea_10_120; tarea_10_120])
    (2025, 3) (u "ana ruiz")
  == total_of 0%Q horas_cargadas (agregar_tareas_Q latin1_lower_table [tarea_10_120; tarea_10_120])
    (2025, 3) (u "ana ruiz") /\
  total_of 0%Q horas_estimadas (agregar_tareas_Q latin1_lower_table [tarea_10_120; tarea_10_120])
    (2025, 3) (u "ana ruiz")
  == total_of 0%Q horas_estimadas (agregar_tareas_Q latin1_lower_table [tarea_10_120; tarea_10_120])
    (2025, 3) (u "ana ruiz").
Proof.
  split; [apply Permutation_refl |].
  apply C9_aggregation_order_independent_Q. apply Permutation_refl.
Defined.

(** C9 counterexample: with Python floats the order matters. The charged
    hours 0.1, 0.2, 0.3 of one collaborator in one month total
    0.6000000000000001 in this order and 0.6 in the reverse order. *)
Lemma C9_float_totals_depend_on_order :
  Permutation tareas_123 tareas_321 /\
  total_of 0%float horas_cargadas (agregar_tareas_float latin1_lower_table tareas_123)
    (2025, 3) (u "albert sunyer vilafranca")
  <> total_of 0%float horas_cargadas (agregar_tareas_float latin1_lower_table tareas_321)
    (2025, 3) (u "albert sunyer vilafranca").
Proof.
  split.
  - exact (Permutation_rev tareas_123).
  - intros H. apply (f_equal (fun x => PrimFloat.eqb x 0.6%float)) in H.
    vm_compute in H. discriminate.
Qed.

(* ------------------------------------------------------------------ *)
(** ** Errors of the classifier and the report builder *)

Lemma pd_date_range_empty (s f : date) : date_le s f = false -> pd_date_range s f = [].
Proof.
  intros H. unfold pd_date_range.
  destruct (Z.to_nat _); simpl; [reflexivity | rewrite H; reflexivity].
Qed.

Lemma ausencias_loop_no_match (fes : date -> bool) (t : casing) (emp : list Z)
    (p : Z) (acc : Z * Z * Z) (ls : list leave) :
  (forall a, In a ls -> leave_matches t emp a = false) ->
  ausencias_loop fes t (normalizar_nombre t emp) p acc ls = Ok acc.
Proof.
  induction ls as [| a ls IH]; intros H; simpl; [reflexivity |].
  unfold ausencia_step at 1. pose proof (H a (or_introl eq_refl)) as Ha.
  unfold leave_matches in Ha. rewrite Ha. simpl.
  apply IH. intros b Hb. apply H. right. exact Hb.
Qed.

Lemma ausencia_step_reversed (fes : date -> bool) (t : casing) (en : list Z)
    (p : Z) (acc : Z * Z * Z) (a : leave) (s f : date) :
  start_on a = Some s -> finish_on a = Some f ->
  valid_date s = true -> valid_date f = true -> in_bounds s = true -> in_bounds f = true ->
  date_le s f = false ->
  ausencia_step fes t en p acc a = Ok acc.
Proof.
  intros Hs Hf Vs Vf Bs Bf Hlt. unfold ausencia_step.
  destruct (negb _); [reflexivity |].
  rewrite Hs, Hf, (to_datetime_field_ok s), (to_datetime_field_ok f) by assumption.
  simpl bind. destruct (_ || _); [reflexivity |].
  unfold calcular_dias_laborables_por_mes. rewrite (pd_date_range_empty s f Hlt). simpl.
  destruct acc as [[v o] te].
  destruct (leave_type_id a) as [tipo |];
    repeat match goal with |- context [if ?b then _ else _] => destruct b end;
    rewrite Z.add_0_r; reflexivity.
Qed.

Lemma ausencias_loop_app_gen (fes : date -> bool) (t : casing) (en : list Z)
    (p : Z) (acc : Z * Z * Z) (ls1 ls2 : list leave) :
  ausencias_loop fes t en p acc (ls1 ++ ls2)
  = bind (ausencias_loop fes t en p acc ls1) (fun acc' => ausencias_loop fes t en p acc' ls2).
Proof.
  revert acc. induction ls1 as [| b ls IH]; intros acc; simpl; [reflexivity |].
  destruct (ausencia_step fes t en p acc b); [apply IH | reflexivity].
Qed.

Lemma classify_raises_at (fes : date -> bool) (t : casing) (emp : list Z)
    (y m : Z) (ls1 ls2 : list leave) (a : leave) (r : Z * Z * Z) (e : exn) :
  calcular_ausencias_empleado fes t ls1 emp y m = Ok r ->
  (forall acc, ausencia_step fes t (normalizar_nombre t emp) (period_m y m) acc a = Err e) ->
  calcular_ausencias_empleado fes t (ls1 ++ a :: ls2) emp y m = Err e.
Proof.
  unfold calcular_ausencias_empleado. intros H1 H2.
  rewrite ausencias_loop_app_gen, H1. simpl. rewrite H2. reflexivity.
Qed.

(** C8 (code bug): the classifier does raise on a malformed leave, and the
    report does not always recover. (1) With no matching leave the
    classification is [(0, 0, 0)]; (2) a matching leave with valid dates
    and start after finish adds nothing. But once the leaves before it
    classify, a matching leave (3) with no [start_on] key raises
    [KeyError], (4) whose [start_on] is not a calendar date raises
    [ValueError], (5) with a parsed start and no [finish_on] key raises
    [KeyError], (6) with a parsed start and a [finish_on] that is not a
    calendar date raises [ValueError]: [pd.to_datetime] runs before the
    [ValueError] handler of [calcular_dias_laborables_por_mes]. In the
    report build, (7) while no classification of a month raises anything
    but [ValueError], each employee-month gets its classification, or
    zeros where it raised [ValueError]; (8) a classification raising
    another exception leaves that employee and the rest of the month's
    employees unclassified; (9) each month is processed on its own. *)
Theorem C8_classifier_raises_on_malformed_leaves (fes : date -> bool)
    (t : casing) {num : Type} :
  (forall ls emp y m, (forall a, In a ls -> leave_matches t emp a = false) ->
     calcular_ausencias_empleado fes t ls emp y m = Ok (0, 0, 0)) /\
  (forall ls emp y m a s f,
     start_on a = Some s -> finish_on a = Some f ->
     valid_date s = true -> valid_date f = true -> in_bounds s = true -> in_bounds f = true ->
     date_le s f = false ->
     calcular_ausencias_empleado fes t (ls ++ [a]) emp y m
     = calcular_ausencias_empleado fes t ls emp y m) /\
  (forall ls1 ls2 emp y m a r,
     calcular_ausencias_empleado fes t ls1 emp y m = Ok r -> leave_matches t emp a = true ->
     start_on a = None ->
     calcular_ausencias_empleado fes t (ls1 ++ a :: ls2) emp y m = Err OtherError) /\
  (forall ls1 ls2 emp y m a r s,
     calcular_ausencias_empleado fes t ls1 emp y m = Ok r -> leave_matches t emp a = true ->
     start_on a = Some s -> valid_date s = false ->
     calcular_ausencias_empleado fes t (ls1 ++ a :: ls2) emp y m = Err ValueError) /\
  (forall ls1 ls2 emp y m a r s,
     calcular_ausencias_empleado fes t ls1 emp y m = Ok r -> leave_matches t emp a = true ->
     start_on a = Some s -> valid_date s && in_bounds s = true -> finish_on a = None ->
     calcular_ausencias_empleado fes t (ls1 ++ a :: ls2) emp y m = Err OtherError) /\
  (forall ls1 ls2 emp y m a r s f,
     calcular_ausencias_empleado fes t ls1 emp y m = Ok r -> leave_matches t emp a = true ->
     start_on a = Some s -> valid_date s && in_bounds s = true ->
     finish_on a = Some f -> valid_date f = false ->
     calcular_ausencias_empleado fes t (ls1 ++ a :: ls2) emp y m = Err ValueError) /\
  (forall ls anio mes (cols : sheet num),
     (forall c r, In (c, r) cols ->
        calcular_ausencias_empleado fes t ls c anio mes <> Err OtherError) ->
     rellenar_colaboradores fes t ls anio mes cols
     = map (fun e => (fst e,
              match calcular_ausencias_empleado fes t ls (fst e) anio mes with
              | Ok (v, o, te) => fijar_ausencias (snd e) v o te
              | Err _ => fijar_ausencias (snd e) 0 0 0
              end)) cols) /\
  (forall ls anio mes (cols1 : sheet num) c r cols2,
     (forall c' r', In (c', r') cols1 ->
        calcular_ausencias_empleado fes t ls c' anio mes <> Err OtherError) ->
     calcular_ausencias_empleado fes t ls c anio mes = Err OtherError ->
     rellenar_colaboradores fes t ls anio mes (cols1 ++ (c, r) :: cols2)
     = rellenar_colaboradores fes t ls anio mes cols1 ++ (c, r) :: cols2) /\
  (forall ls (emp1 : empleados_por_mes num) e emp2,
     anadir_ausencias fes t ls (emp1 ++ e :: emp2)
     = anadir_ausencias fes t ls emp1
       ++ (fst e, rellenar_colaboradores fes t ls (fst (fst e)) (snd (fst e)) (snd e))
       :: anadir_ausencias fes t ls emp2).
Proof.
  split; [| split; [| split; [| split; [| split; [| split; [| split; [| split]]]]]]].
  - intros ls emp y m H. apply ausencias_loop_no_match. exact H.
  - intros ls emp y m a s f Hs Hf Vs Vf Bs Bf Hlt. unfold calcular_ausencias_empleado.
    rewrite ausencias_loop_app.
    destruct (ausencias_loop _ _ _ _ _ ls) as [acc |]; simpl; [| reflexivity].
    apply (ausencia_step_reversed fes t _ _ acc a s f); assumption.
  - intros ls1 ls2 emp y m a r H1 Ha Hs. apply (classify_raises_at _ _ _ _ _ _ _ _ r _ H1).
    intros acc. unfold ausencia_step. unfold leave_matches in Ha. rewrite Ha, Hs. reflexivity.
  - intros ls1 ls2 emp y m a r s H1 Ha Hs Hb.
    apply (classify_raises_at _ _ _ _ _ _ _ _ r _ H1).
    intros acc. unfold ausencia_step. unfold leave_matches in Ha. rewrite Ha, Hs. simpl.
    unfold to_datetime_field. rewrite Hb. reflexivity.
  - intros ls1 ls2 emp y m a r s H1 Ha Hs Hb Hf.
    apply (classify_raises_at _ _ _ _ _ _ _ _ r _ H1).
    intros acc. unfold ausencia_step. unfold leave_matches in Ha. rewrite Ha, Hs. simpl.
    unfold to_datetime_field at 1. rewrite Hb. simpl. rewrite Hf. reflexivity.
  - intros ls1 ls2 emp y m a r s f H1 Ha Hs Hb Hf Hvf.
    apply (classify_raises_at _ _ _ _ _ _ _ _ r _ H1).
    intros acc. unfold ausencia_step. unfold leave_matches in Ha. rewrite Ha, Hs. simpl.
    unfold to_datetime_field at 1. rewrite Hb. simpl. rewrite Hf. simpl. rewrite Hvf.
    reflexivity.
  - intros ls anio mes cols. induction cols as [| [c r] cols IH]; intros H; simpl;
      [reflexivity |].
    destruct (calcular_ausencias_empleado fes t ls c anio mes) as [[[v o] te] | [|]] eqn:E.
    + rewrite IH; [reflexivity |]. intros c' r' Hin. apply (H c' r'). right. exact Hin.
    + rewrite IH; [reflexivity |]. intros c' r' Hin. apply (H c' r'). right. exact Hin.
    + exfalso. apply (H c r); [left; reflexivity | exact E].
  - intros ls anio mes cols1 c r cols2. induction cols1 as [| [c1 r1] cols1 IH]; intros H E;
      simpl.
    + rewrite E. reflexivity.
    + destruct (calcular_ausencias_empleado fes t ls c1 anio mes) as [[[v o] te] | [|]] eqn:E1.
      * rewrite IH; [reflexivity | | exact E]. intros c' r' Hin. apply (H c' r'). right. exact Hin.
      * rewrite IH; [reflexivity | | exact E]. intros c' r' Hin. apply (H c' r'). right. exact Hin.
      * exfalso. apply (H c1 r1); [left; reflexivity | exact E1].
  - intros ls emp1 e emp2. unfold anadir_ausencias. rewrite map_app. reflexivity.
Qed.

(** A leave of Albert Sunyer starting on 2025-02-30 makes his
    classification raise [ValueError], even after a valid leave; one with
    no [start_on] raises [KeyError], and in the report of March 2025 that
    stops the month: Ana Ruiz, who has two vacation days in March, keeps
    [vacaciones = 0]. *)
Lemma C8_classifier_raises_on_malformed_leaves_witness :
  calcular_ausencias_empleado fes_ct latin1_lower_table [leave_ana] (u "Albert Sunyer") 2025 3
  = Ok (0, 0, 0) /\
  calcular_ausencias_empleado fes_ct latin1_lower_table ([leave_mar_apr] ++ [leave_feb30])
    (u "Albert Sunyer") 2025 3 = Err ValueError /\
  calcular_ausencias_empleado fes_ct latin1_lower_table ([] ++ [leave_sin_inicio; leave_ana])
    (u "albert sunyer vilafranca") 2025 3 = Err OtherError /\
  calcular_ausencias_empleado fes_ct latin1_lower_table [leave_sin_inicio; leave_ana]
    (u "ana ruiz") 2025 3 = Ok (2, 0, 0) /\
  rellenar_colaboradores fes_ct latin1_lower_table [leave_sin_inicio; leave_ana] 2025 3
    ([] ++ hoja_marzo) = [] ++ hoja_marzo.
Proof.
  destruct (C8_classifier_raises_on_malformed_leaves fes_ct latin1_lower_table (num := Q))
    as [H1 [_ [H3 [H4 [_ [_ [_ [H8 _]]]]]]]].
  split; [| split; [| split; [| split]]].
  - apply H1. intros a Ha. destruct Ha as [<- | []]. vm_compute. reflexivity.
  - apply (H4 [leave_mar_apr] [] (u "Albert Sunyer") 2025 3 leave_feb30 (2, 0, 0)
             (mkdate 2025 2 30)); vm_compute; reflexivity.
  - apply (H3 [] [leave_ana] (u "albert sunyer vilafranca") 2025 3 leave_sin_inicio (0, 0, 0));
      vm_compute; reflexivity.
  - vm_compute. reflexivity.
  - unfold hoja_marzo.
    apply (H8 [leave_sin_inicio; leave_ana] 2025 3 [] (u "albert sunyer vilafranca")).
    + intros c' r' [].
    + vm_compute. reflexivity.
Defined.

(* ------------------------------------------------------------------ *)
(** ** The Basic credentials of [obtener_token_cor] *)

(** Rewrites the integer comparisons that [lia] decides. *)
Ltac zdm := Z.to_euclidean_division_equations; lia.

Ltac zbool :=
  repeat match goal with
  | |- context [?a <? ?b] =>
      first [rewrite (proj2 (Z.ltb_lt a b)) by zdm | rewrite (proj2 (Z.ltb_ge a b)) by zdm]
  | |- context [?a <=? ?b] =>
      first [rewrite (proj2 (Z.leb_le a b)) by zdm | rewrite (proj2 (Z.leb_gt a b)) by zdm]
  | |- context [?a =? ?b] =>
      first [rewrite (proj2 (Z.eqb_eq a b)) by zdm | rewrite (proj2 (Z.eqb_neq a b)) by zdm]
  end.

Lemma utf8_char_decode (c : Z) (b r : list Z) : code_point c ->
  utf8_char c = Some b -> utf8_decode (b ++ r) = option_map (cons c) (utf8_decode r).
Proof.
  unfold code_point, utf8_char. intros Hc E.
  destruct (Z.ltb_spec c 128) as [L1 | L1].
  { assert (b = [c]) as -> by congruence. cbn [utf8_decode app]. zbool. reflexivity. }
  destruct (Z.ltb_spec c 2048) as [L2 | L2].
  { assert (b = [192 + c / 64; 128 + c mod 64]) as -> by congruence.
    cbn [utf8_decode app]. zbool.
    replace ((192 + c / 64 - 192) * 64 + (128 + c mod 64 - 128)) with c
      by zdm.
    reflexivity. }
  destruct (Z.ltb_spec c 65536) as [L3 | L3].
  { destruct ((55296 <=? c) && (c <=? 57343)); [discriminate |].
    assert (b = [224 + c / 4096; 128 + c / 64 mod 64; 128 + c mod 64]) as -> by congruence.
    cbn [utf8_decode app]. zbool.
    replace ((224 + c / 4096 - 224) * 4096 + (128 + c / 64 mod 64 - 128) * 64
             + (128 + c mod 64 - 128)) with c
      by zdm.
    reflexivity. }
  assert (b = [240 + c / 262144; 128 + c / 4096 mod 64; 128 + c / 64 mod 64; 128 + c mod 64])
    as -> by congruence.
  cbn [utf8_decode app]. zbool.
  replace ((240 + c / 262144 - 240) * 262144 + (128 + c / 4096 mod 64 - 128) * 4096
           + (128 + c / 64 mod 64 - 128) * 64 + (128 + c mod 64 - 128)) with c
    by zdm.
  reflexivity.
Qed.

Lemma utf8_char_none (c : Z) : utf8_char c = None <-> is_surrogate c = true.
Proof.
  unfold utf8_char, is_surrogate.
  destruct (Z.ltb_spec c 128); [split; [discriminate | rewrite andb_true_iff, !Z.leb_le; lia] |].
  destruct (Z.ltb_spec c 2048); [split; [discriminate | rewrite andb_true_iff, !Z.leb_le; lia] |].
  destruct (Z.ltb_spec c 65536).
  - destruct ((55296 <=? c) && (c <=? 57343)); split; congruence.
  - split; [discriminate | rewrite andb_true_iff, !Z.leb_le; lia].
Qed.

Lemma utf8_encode_none (s : list Z) :
  utf8_encode s = None <-> exists c, In c s /\ is_surrogate c = true.
Proof.
  induction s as [| c s IH]; cbn [utf8_encode].
  - split; [discriminate | intros [c [[] _]]].
  - destruct (utf8_char c) as [b |] eqn:Ec.
    + assert (Hc : is_surrogate c = false).
      { destruct (is_surrogate c) eqn:E; [| reflexivity].
        apply utf8_char_none in E. congruence. }
      destruct (utf8_encode s) as [r |] eqn:Es.
      * split; [discriminate |]. intros [c' [[<- | Hin] Hs]]; [congruence |].
        assert (Hn : Some r = None) by (apply IH; exists c'; split; assumption).
        discriminate Hn.
      * split; [| reflexivity]. intros _. destruct (proj1 IH eq_refl) as [c' [Hin Hs]].
        exists c'. split; [right |]; assumption.
    + split; [| reflexivity]. intros _. exists c.
      split; [left; reflexivity | apply utf8_char_none; exact Ec].
Qed.

Lemma utf8_roundtrip (s : list Z) : Forall code_point s ->
  forall bs, utf8_encode s = Some bs -> utf8_decode bs = Some s.
Proof.
  induction s as [| c s IH]; intros Hs bs; simpl.
  - intros H. injection H as <-. reflexivity.
  - inversion Hs as [| ? ? Hc Hs']; subst.
    destruct (utf8_char c) as [b |] eqn:Ec; [| discriminate].
    destruct (utf8_encode s) as [r |] eqn:Er; [| discriminate].
    intros H. injection H as <-.
    rewrite (utf8_char_decode c b r Hc Ec), (IH Hs' r eq_refl). reflexivity.
Qed.


Lemma b64_table_ok_true : b64_table_ok = true.
Proof. vm_compute. reflexivity. Qed.

Lemma b64_char_spec (i : Z) : 0 <= i < 64 ->
  b64_index (b64_char i) = Some i /\ (b64_char i =? 61) = false.
Proof.
  intros Hi. pose proof b64_table_ok_true as H. unfold b64_table_ok in H.
  rewrite forallb_forall in H. specialize (H i (proj2 (in_zseq 0 i 64) ltac:(simpl; lia))).
  apply andb_true_iff in H as [H1 H2]. apply negb_true_iff in H2. split; [| exact H2].
  destruct (b64_index (b64_char i)) as [j |]; [| discriminate].
  apply Z.eqb_eq in H1. subst. reflexivity.
Qed.


Lemma b64_roundtrip_len (n : nat) (bs : list Z) : (length bs <= n)%nat -> Forall byte bs ->
  b64decode (b64encode bs) = Some bs.
Proof.
  revert bs. induction n as [| n IH]; intros bs Hlen Hb.
  { destruct bs; [reflexivity | simpl in Hlen; lia]. }
  destruct bs as [| a [| b [| c rest]]]; [reflexivity | | |].
  - inversion Hb as [| ? ? Ha _]; subst. unfold byte in Ha.
    destruct (b64_char_spec (a * 65536 / 262144)) as [I1 _]; [zdm |].
    destruct (b64_char_spec (a * 65536 / 4096 mod 64)) as [I2 _]; [zdm |].
    cbn [b64encode app b64decode]. rewrite I1, I2, Z.eqb_refl. cbn [andb].
    f_equal. f_equal. zdm.
  - inversion Hb as [| ? ? Ha Hb']; subst. inversion Hb' as [| ? ? Hb1 _]; subst.
    unfold byte in *.
    destruct (b64_char_spec ((a * 65536 + b * 256) / 262144)) as [I1 _]; [zdm |].
    destruct (b64_char_spec ((a * 65536 + b * 256) / 4096 mod 64)) as [I2 _]; [zdm |].
    destruct (b64_char_spec ((a * 65536 + b * 256) / 64 mod 64)) as [I3 E3]; [zdm |].
    cbn [b64encode app b64decode]. rewrite I1, I2, E3. cbn [andb].
    rewrite I3, Z.eqb_refl. f_equal. f_equal; [| f_equal]; zdm.
  - inversion Hb as [| ? ? Ha Hb']; subst. inversion Hb' as [| ? ? Hb1 Hb'']; subst.
    inversion Hb'' as [| ? ? Hc Hrest]; subst. unfold byte in Ha, Hb1, Hc.
    simpl in Hlen.
    assert (IHr : b64decode (b64encode rest) = Some rest) by (apply IH; [lia | exact Hrest]).
    destruct (b64_char_spec ((a * 65536 + b * 256 + c) / 262144)) as [I1 _]; [zdm |].
    destruct (b64_char_spec ((a * 65536 + b * 256 + c) / 4096 mod 64)) as [I2 _]; [zdm |].
    destruct (b64_char_spec ((a * 65536 + b * 256 + c) / 64 mod 64)) as [I3 E3]; [zdm |].
    destruct (b64_char_spec ((a * 65536 + b * 256 + c) mod 64)) as [I4 E4]; [zdm |].
    cbn [b64encode app b64decode]. rewrite I1, I2, E3. cbn [andb].
    rewrite I3, E4, I4, IHr.
    f_equal. f_equal; [| f_equal; [| f_equal]]; zdm.
Qed.

Lemma utf8_bytes (s bs : list Z) : Forall code_point s -> utf8_encode s = Some bs ->
  Forall byte bs.
Proof.
  revert bs. induction s as [| c s IH]; intros bs Hs; simpl.
  - intros H. injection H as <-. constructor.
  - inversion Hs as [| ? ? Hc Hs']; subst. unfold code_point in Hc.
    destruct (utf8_char c) as [b |] eqn:Ec; [| discriminate].
    destruct (utf8_encode s) as [r |] eqn:Er; [| discriminate].
    intros H. injection H as <-. apply Forall_app. split; [| apply IH; auto].
    unfold utf8_char in Ec. unfold byte.
    assert (0 <= c / 64) by (apply Z.div_pos; lia).
    assert (0 <= c / 4096) by (apply Z.div_pos; lia).
    assert (0 <= c / 262144) by (apply Z.div_pos; lia).
    pose proof (Z.mod_pos_bound c 64 ltac:(lia)).
    pose proof (Z.mod_pos_bound (c / 64) 64 ltac:(lia)).
    pose proof (Z.mod_pos_bound (c / 4096) 64 ltac:(lia)).
    destruct (Z.ltb_spec c 128).
    { apply (f_equal (fun o => match o with Some x => x | None => [] end)) in Ec;
      cbv beta iota in Ec; subst b. repeat apply Forall_cons; try apply Forall_nil; lia. }
    destruct (Z.ltb_spec c 2048).
    { apply (f_equal (fun o => match o with Some x => x | None => [] end)) in Ec;
      cbv beta iota in Ec; subst b. assert (c / 64 < 32) by (apply Z.div_lt_upper_bound; lia).
      repeat apply Forall_cons; try apply Forall_nil; lia. }
    destruct (Z.ltb_spec c 65536).
    { destruct (_ && _); [discriminate |]. apply (f_equal (fun o => match o with Some x => x | None => [] end)) in Ec;
      cbv beta iota in Ec; subst b.
      assert (c / 4096 < 16) by (apply Z.div_lt_upper_bound; lia).
      repeat apply Forall_cons; try apply Forall_nil; lia. }
    apply (f_equal (fun o => match o with Some x => x | None => [] end)) in Ec;
      cbv beta iota in Ec; subst b. assert (c / 262144 < 16) by (apply Z.div_lt_upper_bound; lia).
    repeat apply Forall_cons; try apply Forall_nil; lia.
Qed.

Lemma split_first_colon_app (k s : list Z) : ~ In 58 k ->
  split_first_colon (k ++ 58 :: s) = Some (k, s).
Proof.
  induction k as [| c k IH]; intros H; simpl; [reflexivity |].
  destruct (Z.eqb_spec c 58) as [-> | Hc]; [destruct H; left; reflexivity |].
  rewrite IH; [reflexivity |]. intros Hin. apply H. right. exact Hin.
Qed.

(** [obtener_token_cor] sends [Basic b] where [b] decodes (base64, then
    UTF-8) back to [api_key:client_secret]; when [api_key] has no colon
    the pair splits back into the two credentials. *)
Theorem authorization_header_roundtrip (api_key client_secret : list Z) :
  Forall code_point (api_key ++ client_secret) ->
  (forall c, In c (api_key ++ client_secret) -> is_surrogate c = false) ->
  exists b, authorization_header api_key client_secret = Some (u "Basic " ++ b) /\
    match b64decode b with Some bs => utf8_decode bs | None => None end
    = Some (api_key ++ [58] ++ client_secret) /\
    (~ In 58 api_key ->
     split_first_colon (api_key ++ [58] ++ client_secret) = Some (api_key, client_secret)).
Proof.
  intros Hcp Hns.
  assert (Hcp' : Forall code_point (api_key ++ [58] ++ client_secret)).
  { apply Forall_app in Hcp as [H1 H2]. apply Forall_app. split; [exact H1 |].
    constructor; [unfold code_point; lia | exact H2]. }
  destruct (utf8_encode (api_key ++ [58] ++ client_secret)) as [bs |] eqn:E.
  - exists (b64encode bs). unfold authorization_header, basic_creds. rewrite E.
    split; [reflexivity | split].
    + rewrite (b64_roundtrip_len (length bs) bs (le_n _) (utf8_bytes _ _ Hcp' E)).
      apply utf8_roundtrip; assumption.
    + apply split_first_colon_app.
  - exfalso. apply utf8_encode_none in E as [c [Hin Hs]].
    apply in_app_or in Hin as [Hin | [<- | Hin]].
    + rewrite (Hns c (in_or_app _ _ _ (or_introl Hin))) in Hs. discriminate.
    + discriminate.
    + rewrite (Hns c (in_or_app _ _ _ (or_intror Hin))) in Hs. discriminate.
Qed.

Lemma authorization_header_roundtrip_witness :
  Forall code_point (u "key1" ++ u "s3cr" ++ [233; 8364; 128512]) /\
  (forall c, In c (u "key1" ++ u "s3cr" ++ [233; 8364; 128512]) -> is_surrogate c = false) /\
  exists b, authorization_header (u "key1") (u "s3cr" ++ [233; 8364; 128512])
            = Some (u "Basic " ++ b) /\
    match b64decode b with Some bs => utf8_decode bs | None => None end
    = Some (u "key1" ++ [58] ++ u "s3cr" ++ [233; 8364; 128512]) /\
    (~ In 58 (u "key1") ->
     split_first_colon (u "key1" ++ [58] ++ u "s3cr" ++ [233; 8364; 128512])
     = Some (u "key1", u "s3cr" ++ [233; 8364; 128512])).
Proof.
  assert (H1 : Forall code_point (u "key1" ++ u "s3cr" ++ [233; 8364; 128512])).
  { simpl. repeat constructor; unfold code_point; lia. }
  assert (H2 : forall c, In c (u "key1" ++ u "s3cr" ++ [233; 8364; 128512]) ->
                 is_surrogate c = false).
  { intros c Hc. simpl in Hc. repeat destruct Hc as [<- | Hc]; try reflexivity. destruct Hc. }
  split; [exact H1 | split; [exact H2 |]].
  exact (authorization_header_roundtrip (u "key1") (u "s3cr" ++ [233; 8364; 128512]) H1 H2).
Defined.

(** A lone surrogate in either credential makes [str.encode("utf-8")] raise:
    no header is built. *)
Theorem authorization_header_surrogate (api_key client_secret : list Z) :
  authorization_header api_key client_secret = None <->
  exists c, In c (api_key ++ client_secret) /\ is_surrogate c = true.
Proof.
  unfold authorization_header, basic_creds.
  destruct (utf8_encode (api_key ++ [58] ++ client_secret)) eqn:E; simpl.
  - split; [discriminate |]. intros [c [Hin Hs]].
    assert (Hn : utf8_encode (api_key ++ [58] ++ client_secret) = None).
    { apply utf8_encode_none. exists c. split; [| exact Hs].
      apply in_app_or in Hin as [H | H]; apply in_or_app; [left | right; right]; exact H. }
    congruence.
  - split; [intros _ | reflexivity].
    apply utf8_encode_none in E as [c [Hin Hs]]. exists c. split; [| exact Hs].
    apply in_app_or in Hin as [H | [<- | H]]; [apply in_or_app; left; exact H | discriminate |].
    apply in_or_app. right. exact H.
Qed.

(* ------------------------------------------------------------------ *)
(** ** [check_auth] *)

Lemma py_endswith_iff (s suffix : list Z) :
  py_endswith s suffix = true <-> exists p, s = p ++ suffix.
Proof.
  unfold py_endswith. rewrite andb_true_iff, Nat.leb_le. split.
  - intros [Hl He]. apply list_Z_eqb_eq in He.
    exists (firstn (length s - length suffix) s).
    rewrite <- He at 2. symmetry. apply firstn_skipn.
  - intros [p ->]. rewrite length_app.
    replace (length p + length suffix - length suffix)%nat with (length p) by lia.
    rewrite skipn_app, skipn_all, Nat.sub_diag. simpl. split; [lia | apply list_Z_eqb_refl].
Qed.

(** [check_auth] lets a user in exactly when [st.experimental_user] exists,
    is not empty and its email is some text followed by [@ooptimo.com];
    it raises [AttributeError] exactly when the user exists, is not empty
    and has no email key; otherwise (no user, an empty one, a null, empty
    or other email) it refuses. *)
Theorem check_auth_iff (has_user : bool) (user_info : list (string * option (list Z))) :
  (check_auth has_user user_info = Ok true <->
   has_user = true /\ exists p, user_get "email" user_info = Some (Some (p ++ u "@ooptimo.com"))) /\
  (check_auth has_user user_info = Err OtherError <->
   has_user = true /\ user_info <> [] /\ user_get "email" user_info = None) /\
  check_auth has_user user_info <> Err ValueError.
Proof.
  unfold check_auth. destruct has_user; simpl.
  2: { split; [split; [discriminate | intros [H _]; discriminate H] |].
       split; [split; [discriminate | intros [H _]; discriminate H] | discriminate]. }
  destruct user_info as [| kv info].
  { split; [split; [discriminate | intros [_ [p Hp]]; discriminate Hp] |].
    split; [split; [discriminate | intros [_ [H _]]; contradiction] | discriminate]. }
  destruct (user_get "email" (kv :: info)) as [[[| c e] |] |] eqn:E.
  - split; [split; [discriminate |] | split; [split; [discriminate | intros [_ [_ H]]; discriminate H] | discriminate]].
    intros [_ [p Hp]]. injection Hp as Hp.
    apply (f_equal (@length Z)) in Hp. rewrite length_app in Hp. simpl in Hp. lia.
  - split; [| split; [split; [discriminate | intros [_ [_ H]]; discriminate H] | discriminate]].
    split.
    + intros H. injection H as H. apply py_endswith_iff in H as [p Hp].
      split; [reflexivity |]. exists p. rewrite Hp. reflexivity.
    + intros [_ [p Hp]]. injection Hp as Hp. rewrite Hp.
      f_equal. apply py_endswith_iff. exists p. reflexivity.
  - split; [split; [discriminate | intros [_ [p Hp]]; discriminate Hp] |].
    split; [split; [discriminate | intros [_ [_ H]]; discriminate H] | discriminate].
  - split; [split; [discriminate | intros [_ [p Hp]]; discriminate Hp] |].
    split; [split; [intros _; split; [reflexivity | split; [discriminate | reflexivity]] | reflexivity] | discriminate].
Qed.

(* ------------------------------------------------------------------ *)
(** ** The two configuration loaders *)

Lemma cfg_get_map (f : string -> option string) (l : list string) (var : string) :
  In var l -> cfg_get (map (fun v => (v, f v)) l) var = f var.
Proof.
  induction l as [| k l IH]; simpl; [intros [] |]. intros Hin.
  destruct (String.eqb_spec k var) as [-> | Hne]; [reflexivity |].
  apply IH. destruct Hin as [-> | Hin]; [congruence | exact Hin].
Qed.

Lemma forallb_truthy_map (f : string -> option string) (l : list string) :
  forallb (fun kv => truthy (snd kv)) (map (fun v => (v, f v)) l) = true <->
  forall var, In var l -> truthy (f var) = true.
Proof.
  induction l as [| k l IH]; simpl; [split; [intros _ _ [] | reflexivity] |].
  rewrite andb_true_iff, IH. split.
  - intros [H1 H2] var [<- | Hin]; [exact H1 | exact (H2 var Hin)].
  - intros H. split; [apply H; left; reflexivity | intros var Hin; apply H; right; exact Hin].
Qed.

Lemma existsb_truthy_map (f : string -> option string) (l : list string) :
  existsb (fun kv => truthy (snd kv)) (map (fun v => (v, f v)) l) = false <->
  forall var, In var l -> truthy (f var) = false.
Proof.
  induction l as [| k l IH]; simpl; [split; [intros _ _ [] | reflexivity] |].
  rewrite orb_false_iff, IH. split.
  - intros [H1 H2] var [<- | Hin]; [exact H1 | exact (H2 var Hin)].
  - intros H. split; [apply H; left; reflexivity | intros var Hin; apply H; right; exact Hin].
Qed.

(** src/config.py: the only error is [ValueError("No configuration
    found")], raised exactly when there are no secrets and none of the
    five variables is set to a non-empty value (after [load_dotenv] when
    [.env] exists). *)
Theorem ConfigRoot_load_config_error (secrets : option (list (string * string)))
    (env : string -> option string) (dotenv_exists : bool) (dotenv : string -> option string)
    (msg : string) :
  ConfigRoot.load_config secrets env dotenv_exists dotenv = CfgValueError msg <->
  msg = "No configuration found"%string /\ secrets_config secrets = None /\
  (forall var, In var required_vars ->
     truthy ((if dotenv_exists then with_dotenv env dotenv else env) var) = false).
Proof.
  unfold ConfigRoot.load_config. destruct (secrets_config secrets) as [c |].
  - split; [discriminate | intros [_ [H _]]; discriminate H].
  - set (g := if dotenv_exists then with_dotenv env dotenv else env).
    rewrite <- existsb_truthy_map.
    destruct (existsb _ _); simpl.
    + split; [discriminate | intros [_ [_ H]]; discriminate H].
    + split; [intros H; injection H as <-; auto | intros [-> _]; reflexivity].
Qed.

(** src/config.py: non-empty secrets are returned as they are, without
    looking at the environment; otherwise one variable set to a non-empty
    value is enough for the loader to return all five, the unset ones as
    [None]. *)
Theorem ConfigRoot_load_config_ok (secrets : option (list (string * string)))
    (env : string -> option string) (dotenv_exists : bool) (dotenv : string -> option string)
    (c : list (string * option string)) :
  ConfigRoot.load_config secrets env dotenv_exists dotenv = CfgOk c <->
  secrets_config secrets = Some c \/
  (secrets_config secrets = None /\
   (exists var, In var required_vars /\
      truthy ((if dotenv_exists then with_dotenv env dotenv else env) var) = true) /\
   c = map (fun var => (var, (if dotenv_exists then with_dotenv env dotenv else env) var))
         required_vars).
Proof.
  unfold ConfigRoot.load_config. destruct (secrets_config secrets) as [c' |].
  - split; [intros H; injection H as ->; left; reflexivity |].
    intros [H | [H _]]; [injection H as ->; reflexivity | discriminate H].
  - set (g := if dotenv_exists then with_dotenv env dotenv else env).
    destruct (existsb (fun kv => truthy (snd kv)) (map (fun var => (var, g var)) required_vars))
      eqn:E; simpl.
    + split.
      * intros H. injection H as <-. right. split; [reflexivity | split; [| reflexivity]].
        apply existsb_exists in E as [[k v] [Hin Hv]]. apply in_map_iff in Hin as [var [Hkv Hvar]].
        injection Hkv as <- <-. exists var. split; assumption.
      * intros [H | [_ [_ ->]]]; [discriminate H | reflexivity].
    + split; [discriminate |]. intros [H | [_ [[var [Hin Ht]] _]]]; [discriminate H |].
      apply existsb_truthy_map with (var := var) in E; [congruence | exact Hin].
Qed.

(** src/ooptimo_app_carga/config.py: when all five variables are set to
    non-empty values in the environment they are returned, whatever the
    secrets and the [.env] file hold. *)
Theorem ConfigPkg_load_config_env_first (secrets : option (list (string * string)))
    (env : string -> option string) (dotenv_exists : bool) (dotenv : string -> option string) :
  (forall var, In var required_vars -> truthy (env var) = true) ->
  ConfigPkg.load_config secrets env dotenv_exists dotenv
  = CfgOk (map (fun var => (var, env var)) required_vars).
Proof.
  intros H. unfold ConfigPkg.load_config.
  apply forallb_truthy_map in H. rewrite H. reflexivity.
Qed.


Lemma ConfigPkg_load_config_env_first_witness :
  (forall var, In var required_vars -> truthy (env_completo var) = true) /\
  ConfigPkg.load_config (Some [("COR_API_KEY", "s")]%string) env_completo true env_vacio
  = CfgOk (map (fun var => (var, env_completo var)) required_vars).
Proof.
  assert (H : forall var, In var required_vars -> truthy (env_completo var) = true)
    by (intros var _; reflexivity).
  split; [exact H | exact (ConfigPkg_load_config_env_first _ _ _ _ H)].
Defined.

(** src/ooptimo_app_carga/config.py: a result is either the secrets or a
    full configuration, all five variables present with non-empty values. *)
Theorem ConfigPkg_load_config_ok (secrets : option (list (string * string)))
    (env : string -> option string) (dotenv_exists : bool) (dotenv : string -> option string)
    (c : list (string * option string)) :
  ConfigPkg.load_config secrets env dotenv_exists dotenv = CfgOk c ->
  secrets_config secrets = Some c \/
  (map fst c = required_vars /\ forall var, In var required_vars -> truthy (cfg_get c var) = true).
Proof.
  unfold ConfigPkg.load_config.
  assert (Hfull : forall f, forallb (fun kv => truthy (snd kv))
                              (map (fun var => (var, f var)) required_vars) = true ->
            map fst (map (fun var => (var, f var)) required_vars) = required_vars /\
            forall var, In var required_vars ->
              truthy (cfg_get (map (fun var => (var, f var)) required_vars) var) = true).
  { intros f Hf. rewrite forallb_truthy_map in Hf. split.
    - rewrite map_map. reflexivity.
    - intros var Hin. rewrite cfg_get_map by exact Hin. apply Hf, Hin. }
  destruct (forallb _ (map (fun var => (var, env var)) required_vars)) eqn:E1.
  { intros H. injection H as <-. right. apply Hfull, E1. }
  destruct (secrets_config secrets) as [c' |]; [intros H; injection H as ->; left; reflexivity |].
  destruct dotenv_exists; cbn [andb].
  - destruct (forallb _ (map (fun var => (var, with_dotenv env dotenv var)) required_vars))
      eqn:E2; [| discriminate].
    intros H. injection H as <-. right. apply Hfull, E2.
  - discriminate.
Qed.

Lemma ConfigPkg_load_config_ok_witness :
  ConfigPkg.load_config None env_completo false env_vacio
  = CfgOk (map (fun var => (var, env_completo var)) required_vars) /\
  (secrets_config None = Some (map (fun var => (var, env_completo var)) required_vars) \/
   (map fst (map (fun var => (var, env_completo var)) required_vars) = required_vars /\
    forall var, In var required_vars ->
      truthy (cfg_get (map (fun var => (var, env_completo var)) required_vars) var) = true)).
Proof.
  assert (H : ConfigPkg.load_config None env_completo false env_vacio
              = CfgOk (map (fun var => (var, env_completo var)) required_vars)) by reflexivity.
  split; [exact H | exact (ConfigPkg_load_config_ok _ _ _ _ _ H)].
Defined.

(** src/ooptimo_app_carga/config.py: on failure the message lists the
    variables, in the order of [required_vars], that are unset or empty in
    the last environment read (with [.env] loaded when it exists); that list
    is never empty, and the secrets were empty or missing. *)
Theorem ConfigPkg_load_config_error (secrets : option (list (string * string)))
    (env : string -> option string) (dotenv_exists : bool) (dotenv : string -> option string)
    (msg : string) :
  ConfigPkg.load_config secrets env dotenv_exists dotenv = CfgValueError msg ->
  secrets_config secrets = None /\
  exists missing,
    msg = String.append "Missing configuration values: " (str_join ", " missing) /\
    missing = filter (fun var =>
                negb (truthy ((if dotenv_exists then with_dotenv env dotenv else env) var)))
                required_vars /\
    missing <> [].
Proof.
  unfold ConfigPkg.load_config.
  assert (Hmiss : forall f, forallb (fun kv => truthy (snd kv))
                              (map (fun var => (var, f var)) required_vars) = false ->
            filter (fun var => negb (truthy (cfg_get (map (fun var => (var, f var))
                                                 required_vars) var))) required_vars
            = filter (fun var => negb (truthy (f var))) required_vars /\
            filter (fun var => negb (truthy (f var))) required_vars <> []).
  { intros f Hf. split.
    - apply filter_ext_in. intros var Hin. rewrite cfg_get_map by exact Hin. reflexivity.
    - intros Hnil. apply Bool.not_true_iff_false in Hf. apply Hf, forallb_truthy_map.
      intros var Hin. destruct (truthy (f var)) eqn:Ev; [reflexivity | exfalso].
      assert (Hf' : In var (filter (fun var => negb (truthy (f var))) required_vars))
        by (apply filter_In; rewrite Ev; split; [exact Hin | reflexivity]).
      rewrite Hnil in Hf'. exact Hf'. }
  destruct (forallb _ (map (fun var => (var, env var)) required_vars)) eqn:E1;
    [discriminate |].
  destruct (secrets_config secrets) as [c' |]; [discriminate |].
  destruct dotenv_exists; cbn [andb].
  - destruct (forallb _ (map (fun var => (var, with_dotenv env dotenv var)) required_vars))
      eqn:E2; [discriminate |].
    intros H. injection H as <-. destruct (Hmiss _ E2) as [Hf Hne].
    split; [reflexivity |].
    exists (filter (fun var => negb (truthy (with_dotenv env dotenv var))) required_vars).
    split; [| split; [reflexivity | exact Hne]]. rewrite <- Hf. reflexivity.
  - intros H. injection H as <-. destruct (Hmiss _ E1) as [Hf Hne].
    split; [reflexivity |].
    exists (filter (fun var => negb (truthy (env var))) required_vars).
    split; [| split; [reflexivity | exact Hne]]. rewrite <- Hf. reflexivity.
Qed.

Lemma ConfigPkg_load_config_error_witness :
  ConfigPkg.load_config None env_vacio true env_vacio
  = CfgValueError "Missing configuration values: FACTORIAL_API_KEY, FACTORIAL_BASE_URL, COR_API_KEY, COR_CLIENT_SECRET, COR_BASE_URL"%string /\
  (secrets_config None = None /\
   exists missing,
    "Missing configuration values: FACTORIAL_API_KEY, FACTORIAL_BASE_URL, COR_API_KEY, COR_CLIENT_SECRET, COR_BASE_URL"%string
    = String.append "Missing configuration values: " (str_join ", " missing) /\
    missing = filter (fun var => negb (truthy (with_dotenv env_vacio env_vacio var)))
                required_vars /\
    missing <> []).
Proof.
  assert (H : ConfigPkg.load_config None env_vacio true env_vacio
    = CfgValueError "Missing configuration values: FACTORIAL_API_KEY, FACTORIAL_BASE_URL, COR_API_KEY, COR_CLIENT_SECRET, COR_BASE_URL"%string)
    by reflexivity.
  split; [exact H | exact (ConfigPkg_load_config_error _ _ _ _ _ H)].
Defined.

(* ------------------------------------------------------------------ *)
(** ** Shape of the aggregated report *)

Section AssocKeys.

Context {K V : Type} (eqb : K -> K -> bool).
Hypothesis eqb_iff : forall x y, eqb x y = true <-> x = y.

Lemma keys_assoc_update (k : K) (f : V -> V) (l : list (K * V)) :
  map fst (assoc_update eqb k f l) = map fst l.
Proof.
  induction l as [| [k0 v] l IH]; simpl; [reflexivity |].
  destruct (eqb k k0); simpl; [reflexivity | rewrite IH; reflexivity].
Qed.

Lemma assoc_get_None (k : K) (l : list (K * V)) :
  assoc_get eqb k l = None <-> ~ In k (map fst l).
Proof.
  induction l as [| [k0 v] l IH]; simpl; [tauto |].
  destruct (eqb k k0) eqn:E.
  - apply eqb_iff in E. subst. split; [discriminate | intros H; exfalso; apply H; left; reflexivity].
  - rewrite IH. split; [| tauto]. intros H [H' | H']; [| exact (H H')].
    subst. rewrite (proj2 (eqb_iff k k) eq_refl) in E. discriminate.
Qed.

Lemma assoc_get_Some_In (k : K) (v : V) (l : list (K * V)) :
  assoc_get eqb k l = Some v -> In k (map fst l).
Proof.
  induction l as [| [k0 v0] l IH]; simpl; [discriminate |].
  destruct (eqb k k0) eqn:E; [apply eqb_iff in E; left; congruence | intros H; right; auto].
Qed.

Lemma keys_setdefault (k : K) (v : V) (l : list (K * V)) :
  NoDup (map fst l) ->
  NoDup (map fst (setdefault eqb k v l)) /\
  (forall x, In x (map fst (setdefault eqb k v l)) <-> In x (map fst l) \/ x = k).
Proof.
  intros Hnd. unfold setdefault. destruct (assoc_get eqb k l) eqn:E.
  - split; [exact Hnd |]. intros x. split; [tauto |]. intros [H | ->]; [exact H |].
    exact (assoc_get_Some_In _ _ _ E).
  - apply assoc_get_None in E. rewrite map_app. simpl. split.
    + apply NoDup_app; [exact Hnd | constructor; [intros [] | constructor] |].
      intros x Hx [<- | []]. exact (E Hx).
    + intros x. rewrite in_app_iff. simpl. split; intros [H | H]; auto.
      destruct H as [<- | []]; auto.
Qed.

End AssocKeys.

Section ReportShape.

Variable t : casing.
Context {num : Type} (zero : num) (add div : num -> num -> num) (of_nat : nat -> num)
  (sixty : num).

Lemma names_sumar_colab (hc est : num) (s : sheet num) (c : list Z * list Z) :
  NoDup (map fst s) ->
  NoDup (map fst (sumar_colab t zero add hc est s c)) /\
  (forall nm, In nm (map fst (sumar_colab t zero add hc est s c))
              <-> In nm (map fst s) \/ nm = colab_name t c).
Proof.
  intros Hnd. unfold sumar_colab. rewrite (keys_assoc_update list_Z_eqb).
  exact (keys_setdefault _ list_Z_eqb_iff _ _ _ Hnd).
Qed.

Lemma names_fold_sumar_colab (hc est : num) (cols : list (list Z * list Z)) (s : sheet num) :
  NoDup (map fst s) ->
  NoDup (map fst (fold_left (sumar_colab t zero add hc est) cols s)) /\
  (forall nm, In nm (map fst (fold_left (sumar_colab t zero add hc est) cols s))
              <-> In nm (map fst s) \/ exists c, In c cols /\ nm = colab_name t c).
Proof.
  revert s. induction cols as [| c cols IH]; intros s Hnd; simpl.
  - split; [exact Hnd | intros nm; split; [tauto |]].
    intros [H | [c [[] _]]]. exact H.
  - destruct (names_sumar_colab hc est s c Hnd) as [Hnd1 Hin1].
    destruct (IH _ Hnd1) as [Hnd2 Hin2]. split; [exact Hnd2 |]. intros nm.
    rewrite Hin2, Hin1. split.
    + intros [[H | H] | [c' [Hc' ->]]]; [left; exact H | right; exists c; auto |
                                         right; exists c'; auto].
    + intros [H | [c' [[<- | Hc'] ->]]]; [left; left; exact H | left; right; reflexivity |
                                          right; exists c'; auto].
Qed.

(** The sheet [k] after one task: the task's collaborators added to it when
    [k] is the task's month (starting from an empty sheet), unchanged
    otherwise. *)
Lemma get_agregar_tarea (emp : empleados_por_mes num) (tk : task num) (k : Z * Z) :
  assoc_get sheet_eqb k (agregar_tarea t zero add div of_nat sixty emp tk)
  = match datetime tk with
    | Some dt =>
        if sheet_eqb k (year dt, month dt) then
          Some (fold_left
                  (sumar_colab t zero add
                     (div (hour_charged tk) (of_nat (length (collaborators tk))))
                     (div (div (estimated tk) sixty) (of_nat (length (collaborators tk)))))
                  (collaborators tk)
                  (match assoc_get sheet_eqb k emp with Some s => s | None => [] end))
        else assoc_get sheet_eqb k emp
    | None => assoc_get sheet_eqb k emp
    end.
Proof.
  unfold agregar_tarea. destruct (datetime tk) as [dt |]; [| reflexivity].
  destruct (collaborators tk) as [| c cols] eqn:Ec.
  - rewrite (assoc_get_setdefault _ sheet_eqb_iff). simpl.
    destruct (sheet_eqb k (year dt, month dt)); destruct (assoc_get sheet_eqb k emp); reflexivity.
  - rewrite <- Ec.
    rewrite (assoc_get_update _ sheet_eqb_iff), !(assoc_get_setdefault _ sheet_eqb_iff).
    destruct (sheet_eqb k (year dt, month dt)) eqn:Ek.
    + apply sheet_eqb_iff in Ek. rewrite <- Ek, (proj2 (sheet_eqb_iff k k) eq_refl).
      destruct (assoc_get sheet_eqb k emp); reflexivity.
    + destruct (assoc_get sheet_eqb k emp); reflexivity.
Qed.

Lemma keys_agregar_tarea (emp : empleados_por_mes num) (tk : task num) :
  NoDup (map fst emp) ->
  NoDup (map fst (agregar_tarea t zero add div of_nat sixty emp tk)) /\
  (forall k, In k (map fst (agregar_tarea t zero add div of_nat sixty emp tk))
             <-> In k (map fst emp) \/
                 exists dt, datetime tk = Some dt /\ k = (year dt, month dt)).
Proof.
  intros Hnd. unfold agregar_tarea. destruct (datetime tk) as [dt |].
  - destruct (keys_setdefault _ sheet_eqb_iff (year dt, month dt) [] emp Hnd) as [Hnd1 Hin1].
    assert (Hk : forall k, In k (map fst (setdefault sheet_eqb (year dt, month dt) [] emp)) <->
                   In k (map fst emp) \/
                   exists dt', Some dt = Some dt' /\ k = (year dt', month dt')).
    { intros k. rewrite Hin1. split; intros [H | H]; auto.
      - right. exists dt. auto.
      - destruct H as [dt' [Hd ->]]. injection Hd as <-. auto. }
    destruct (collaborators tk); [split; assumption |].
    rewrite (keys_assoc_update sheet_eqb). split; assumption.
  - split; [exact Hnd |]. intros k. split; [tauto |]. intros [H | [dt [Hd _]]]; [exact H |].
    discriminate Hd.
Qed.

(** The months of the report: one sheet per month that has a task with a
    timestamp, collaborators or not, and no month twice. *)
Theorem agregar_tareas_keys (ts : list (task num)) :
  NoDup (map fst (agregar_tareas t zero add div of_nat sixty ts)) /\
  (forall k, In k (map fst (agregar_tareas t zero add div of_nat sixty ts)) <->
             exists tk dt, In tk ts /\ datetime tk = Some dt /\ k = (year dt, month dt)).
Proof.
  unfold agregar_tareas.
  enough (G : forall emp, NoDup (map fst emp) ->
    NoDup (map fst (fold_left (agregar_tarea t zero add div of_nat sixty) ts emp)) /\
    (forall k, In k (map fst (fold_left (agregar_tarea t zero add div of_nat sixty) ts emp)) <->
      In k (map fst emp) \/
      exists tk dt, In tk ts /\ datetime tk = Some dt /\ k = (year dt, month dt))).
  { destruct (G [] (NoDup_nil _)) as [H1 H2]. split; [exact H1 |].
    intros k. rewrite H2. simpl. tauto. }
  induction ts as [| tk ts IH]; intros emp Hnd; simpl.
  - split; [exact Hnd |]. intros k. split; [tauto |].
    intros [H | [tk [dt [[] _]]]]. exact H.
  - destruct (keys_agregar_tarea emp tk Hnd) as [Hnd1 Hin1].
    destruct (IH _ Hnd1) as [Hnd2 Hin2]. split; [exact Hnd2 |]. intros k.
    rewrite Hin2, Hin1. split.
    + intros [[H | [dt [Hd Hk]]] | [tk' [dt [Htk [Hd Hk]]]]]; [now left | |].
      * right. exists tk, dt. auto.
      * right. exists tk', dt. auto.
    + intros [H | [tk' [dt [[<- | Htk] [Hd Hk]]]]]; [now (left; left) | |].
      * left. right. exists dt. auto.
      * right. exists tk', dt. auto.
Qed.

(** The names of a sheet: the normalized names of the collaborators of the
    tasks of that month, each once. *)
Theorem agregar_tareas_names (ts : list (task num)) (k : Z * Z) :
  NoDup (sheet_names (agregar_tareas t zero add div of_nat sixty ts) k) /\
  (forall nm, In nm (sheet_names (agregar_tareas t zero add div of_nat sixty ts) k) <->
     exists tk dt c, In tk ts /\ datetime tk = Some dt /\ k = (year dt, month dt) /\
                     In c (collaborators tk) /\ nm = colab_name t c).
Proof.
  unfold agregar_tareas.
  enough (G : forall emp, NoDup (sheet_names emp k) ->
    NoDup (sheet_names (fold_left (agregar_tarea t zero add div of_nat sixty) ts emp) k) /\
    (forall nm, In nm (sheet_names (fold_left (agregar_tarea t zero add div of_nat sixty) ts emp) k)
      <-> In nm (sheet_names emp k) \/
          exists tk dt c, In tk ts /\ datetime tk = Some dt /\ k = (year dt, month dt) /\
                          In c (collaborators tk) /\ nm = colab_name t c)).
  { destruct (G [] (NoDup_nil _)) as [H1 H2]. split; [exact H1 |].
    intros nm. rewrite H2. simpl. tauto. }
  induction ts as [| tk ts IH]; intros emp Hnd; simpl.
  - split; [exact Hnd |]. intros nm. split; [tauto |].
    intros [H | [tk [dt [c [[] _]]]]]. exact H.
  - assert (Hstep : NoDup (sheet_names (agregar_tarea t zero add div of_nat sixty emp tk) k) /\
      forall nm, In nm (sheet_names (agregar_tarea t zero add div of_nat sixty emp tk) k) <->
        In nm (sheet_names emp k) \/
        exists dt c, datetime tk = Some dt /\ k = (year dt, month dt) /\
                     In c (collaborators tk) /\ nm = colab_name t c).
    { unfold sheet_names. rewrite get_agregar_tarea. unfold sheet_names in Hnd.
      destruct (datetime tk) as [dt |] eqn:Ed.
      - destruct (sheet_eqb k (year dt, month dt)) eqn:Ek; cbv beta iota.
        + apply sheet_eqb_iff in Ek.
          assert (Hnd0 : NoDup (map fst (match assoc_get sheet_eqb k emp with
                                          Some s => s | None => [] end)))
            by (destruct (assoc_get sheet_eqb k emp); [exact Hnd | constructor]).
          destruct (names_fold_sumar_colab
                      (div (hour_charged tk) (of_nat (length (collaborators tk))))
                      (div (div (estimated tk) sixty) (of_nat (length (collaborators tk))))
                      (collaborators tk) _ Hnd0) as [H1 H2].
          split; [exact H1 |]. intros nm. rewrite H2.
          assert (Hs : map fst (match assoc_get sheet_eqb k emp with Some s => s | None => [] end)
                       = match assoc_get sheet_eqb k emp with Some s => map fst s | None => [] end)
            by (destruct (assoc_get sheet_eqb k emp); reflexivity).
          rewrite Hs. split.
          * intros [H | [c [Hc ->]]]; [left; exact H | right; exists dt, c; auto].
          * intros [H | [dt' [c [Hd [_ [Hc ->]]]]]]; [left; exact H |].
            injection Hd as <-. right. exists c. auto.
        + split; [exact Hnd |]. intros nm. split; [tauto |].
          intros [H | [dt' [c [Hd [Hk [_ _]]]]]]; [exact H |].
          injection Hd as <-. subst k. rewrite (proj2 (sheet_eqb_iff _ _) eq_refl) in Ek.
          discriminate Ek.
      - split; [exact Hnd |]. intros nm. split; [tauto |].
        intros [H | [dt' [c [Hd _]]]]; [exact H | discriminate Hd]. }
    destruct Hstep as [Hnd1 Hin1]. destruct (IH _ Hnd1) as [Hnd2 Hin2].
    split; [exact Hnd2 |]. intros nm. rewrite Hin2, Hin1. split.
    + intros [[H | [dt [c [Hd [Hk [Hc Hnm]]]]]] | [tk' [dt [c [Htk R]]]]]; [now left | |].
      * right. exists tk, dt, c. auto.
      * right. exists tk', dt, c. auto.
    + intros [H | [tk' [dt [c [[<- | Htk] R]]]]]; [now (left; left) | |].
      * left. right. exists dt, c. exact R.
      * right. exists tk', dt, c. auto.
Qed.

End ReportShape.

(* ------------------------------------------------------------------ *)
(** ** The absence phase keeps the report's shape and hours *)

Section AbsencePhase.

Variable festivos_barcelona : date -> bool.
Variable lower_table : casing.
Variable all_ausencias : list leave.
Context {num : Type} (zero : num).

Lemma rellenar_colaboradores_keep (anio mes : Z) (s : sheet num) :
  map (fun e => (fst e, horas_cargadas (snd e), horas_estimadas (snd e)))
    (rellenar_colaboradores festivos_barcelona lower_table all_ausencias anio mes s)
  = map (fun e => (fst e, horas_cargadas (snd e), horas_estimadas (snd e))) s.
Proof.
  induction s as [| [c r] s IH]; simpl; [reflexivity |].
  destruct (calcular_ausencias_empleado festivos_barcelona lower_table all_ausencias c anio mes)
    as [[[v o] te] | [|]]; simpl; try rewrite IH; reflexivity.
Qed.

Lemma field_of_same_hours (proj : empleado_mes num -> num) (l1 l2 : sheet num) (nm : list Z) :
  (forall r, proj r = horas_cargadas r) \/ (forall r, proj r = horas_estimadas r) ->
  map (fun e => (fst e, horas_cargadas (snd e), horas_estimadas (snd e))) l1
  = map (fun e => (fst e, horas_cargadas (snd e), horas_estimadas (snd e))) l2 ->
  field_of zero proj l1 nm = field_of zero proj l2 nm /\ map fst l1 = map fst l2.
Proof.
  intros Hp. revert l2. unfold field_of.
  induction l1 as [| [c1 r1] l1 IH]; intros [| [c2 r2] l2] H; simpl in H; try discriminate H.
  - split; reflexivity.
  - injection H as Hc Hh He Hl. subst c2. destruct (IH l2 Hl) as [IH1 IH2]. simpl.
    split; [| rewrite IH2; reflexivity].
    destruct (list_Z_eqb nm c1); [| exact IH1].
    destruct Hp as [Hp | Hp]; rewrite !Hp; congruence.
Qed.

Lemma get_anadir_ausencias (emp : empleados_por_mes num) (k : Z * Z) :
  assoc_get sheet_eqb k (anadir_ausencias festivos_barcelona lower_table all_ausencias emp)
  = option_map (rellenar_colaboradores festivos_barcelona lower_table all_ausencias
                  (fst k) (snd k)) (assoc_get sheet_eqb k emp).
Proof.
  induction emp as [| [k0 s] emp IH]; simpl; [reflexivity |].
  destruct (sheet_eqb k k0) eqn:E; [| exact IH].
  apply sheet_eqb_iff in E. subst. reflexivity.
Qed.

(** Filling in the absences changes no month, no name and no hour total:
    the sheets, their entries and the charged and estimated hours of each
    are those of the aggregation, whatever [calcular_ausencias_empleado]
    returns or raises. *)
Theorem anadir_ausencias_preserva (emp : empleados_por_mes num) (k : Z * Z) (nm : list Z) :
  let emp' := anadir_ausencias festivos_barcelona lower_table all_ausencias emp in
  map fst emp' = map fst emp /\
  sheet_names emp' k = sheet_names emp k /\
  total_of zero horas_cargadas emp' k nm = total_of zero horas_cargadas emp k nm /\
  total_of zero horas_estimadas emp' k nm = total_of zero horas_estimadas emp k nm.
Proof.
  intros emp'. split.
  { unfold emp', anadir_ausencias. rewrite map_map. reflexivity. }
  unfold sheet_names, total_of, emp'. rewrite get_anadir_ausencias.
  destruct (assoc_get sheet_eqb k emp) as [s |]; simpl; [| split; [| split]; reflexivity].
  pose proof (rellenar_colaboradores_keep (fst k) (snd k) s) as Hk.
  destruct (field_of_same_hours horas_cargadas _ _ nm (or_introl (fun _ => eq_refl)) Hk)
    as [H1 H2].
  destruct (field_of_same_hours horas_estimadas _ _ nm (or_intror (fun _ => eq_refl)) Hk)
    as [H3 _].
  split; [exact H2 | split; assumption].
Qed.

End AbsencePhase.

(* ------------------------------------------------------------------ *)
(** ** The month selector of [main] *)

Lemma mes_le_total (a b : Z * Z) : mes_le a b = false -> mes_le b a = true.
Proof.
  unfold mes_le. destruct a as [y1 m1], b as [y2 m2]. simpl.
  intros H. apply orb_false_iff in H as [H1 H2]. apply Z.ltb_ge in H1.
  apply orb_true_iff. destruct (Z.eqb_spec y1 y2) as [-> | Hne].
  - simpl in H2. apply Z.leb_gt in H2. right. apply andb_true_iff.
    split; [apply Z.eqb_refl | apply Z.leb_le; lia].
  - left. apply Z.ltb_lt. lia.
Qed.

Lemma insertar_mes_perm (x : Z * Z) (l : list (Z * Z)) : Permutation (x :: l) (insertar_mes x l).
Proof.
  induction l as [| y l IH]; simpl; [reflexivity |].
  destruct (mes_le y x); [| reflexivity].
  transitivity (y :: x :: l); [apply perm_swap | apply perm_skip, IH].
Qed.

Lemma insertar_mes_hd (x y : Z * Z) (l : list (Z * Z)) :
  mes_le y x = true -> HdRel (fun a b => mes_le a b = true) y l ->
  HdRel (fun a b => mes_le a b = true) y (insertar_mes x l).
Proof.
  intros Hyx Hd. destruct l as [| z l]; simpl; [constructor; exact Hyx |].
  inversion Hd; subst. destruct (mes_le z x); constructor; assumption.
Qed.

Lemma insertar_mes_sorted (x : Z * Z) (l : list (Z * Z)) :
  Sorted (fun a b => mes_le a b = true) l ->
  Sorted (fun a b => mes_le a b = true) (insertar_mes x l).
Proof.
  induction l as [| y l IH]; intros Hs; simpl; [repeat constructor |].
  inversion Hs as [| ? ? Hs' Hd]; subst.
  destruct (mes_le y x) eqn:E.
  - constructor; [apply IH, Hs' | apply insertar_mes_hd; assumption].
  - constructor; [exact Hs | constructor; apply mes_le_total, E].
Qed.

(** The months of the selector: the sheet keys, each kept, ordered by
    [(year, month)]. *)
Theorem ordenar_meses_sorted (keys : list (Z * Z)) :
  Permutation keys (ordenar_meses keys) /\
  Sorted (fun a b => mes_le a b = true) (ordenar_meses keys).
Proof.
  unfold ordenar_meses.
  enough (G : forall acc, Sorted (fun a b => mes_le a b = true) acc ->
            Permutation (acc ++ keys) (fold_left (fun acc x => insertar_mes x acc) keys acc)
              /\ Sorted (fun a b => mes_le a b = true)
                   (fold_left (fun acc x => insertar_mes x acc) keys acc)).
  { exact (G [] (Sorted_nil _)). }
  induction keys as [| x keys IH]; intros acc Hs; simpl.
  - rewrite app_nil_r. split; [reflexivity | exact Hs].
  - destruct (IH (insertar_mes x acc) (insertar_mes_sorted x acc Hs)) as [H1 H2].
    split; [| exact H2]. rewrite <- H1.
    transitivity ((x :: acc) ++ keys); [apply Permutation_sym, Permutation_middle |].
    apply Permutation_app_tail, insertar_mes_perm.
Qed.

Lemma py_index_Some (x : Z * Z) (l : list (Z * Z)) (i : nat) :
  py_index x l = Some i ->
  nth_error l i = Some x /\ (forall j, (j < i)%nat -> nth_error l j <> Some x).
Proof.
  revert i. induction l as [| y l IH]; intros i; simpl; [discriminate |].
  destruct (sheet_eqb x y) eqn:E.
  - intros H. injection H as <-. apply sheet_eqb_iff in E. subst.
    split; [reflexivity | intros j Hj; lia].
  - destruct (py_index x l) as [i' |]; simpl; [| discriminate].
    intros H. injection H as <-. destruct (IH i' eq_refl) as [H1 H2].
    split; [exact H1 |]. intros [| j] Hj; simpl.
    + intros Hy. injection Hy as ->. rewrite (proj2 (sheet_eqb_iff x x) eq_refl) in E.
      discriminate.
    + apply H2. lia.
Qed.

Lemma py_index_of (x : Z * Z) (l : list (Z * Z)) (i : nat) :
  nth_error l i = Some x -> (forall j, (j < i)%nat -> nth_error l j <> Some x) ->
  py_index x l = Some i.
Proof.
  revert i. induction l as [| y l IH]; intros i; [destruct i; discriminate |].
  intros Hi Hlt. simpl. destruct i as [| i].
  - simpl in Hi. injection Hi as ->. rewrite (proj2 (sheet_eqb_iff x x) eq_refl). reflexivity.
  - destruct (sheet_eqb x y) eqn:E.
    + apply sheet_eqb_iff in E. subst. exfalso. apply (Hlt O); [lia | reflexivity].
    + rewrite (IH i Hi); [reflexivity |]. intros j Hj. apply (Hlt (S j)). lia.
Qed.

Lemma py_index_None (x : Z * Z) (l : list (Z * Z)) : py_index x l = None <-> ~ In x l.
Proof.
  induction l as [| y l IH]; simpl; [tauto |].
  destruct (sheet_eqb x y) eqn:E.
  - apply sheet_eqb_iff in E. subst. split; [discriminate | intros H; exfalso; auto].
  - destruct (py_index x l) as [i |] eqn:Ei; simpl.
    + split; [discriminate |]. intros H. exfalso. apply H. right.
      apply (nth_error_In _ i). apply (py_index_Some x l i Ei).
    + split; [intros _ [Hy | Hin] | reflexivity].
      * subst. rewrite (proj2 (sheet_eqb_iff x x) eq_refl) in E. discriminate.
      * exact (proj1 IH eq_refl Hin).
Qed.

(** When the current month has a sheet, the selector shows a run of
    consecutive months of the list, the current one at the default index
    (its first occurrence there), with three months before it unless the
    list starts earlier and one after it unless the list ends: at most
    five months. *)
Theorem meses_mostrados_con_actual (todos : list (Z * Z)) (cur : Z * Z) :
  In cur todos ->
  let ms := fst (meses_mostrados todos cur) in
  let d := snd (meses_mostrados todos cur) in
  exists pre suf, todos = pre ++ ms ++ suf /\
    0 <= d <= 3 /\ nth_error ms (Z.to_nat d) = Some cur /\
    (forall j, (j < Z.to_nat d)%nat -> nth_error ms j <> Some cur) /\
    (d = 3 \/ pre = []) /\
    (Z.of_nat (length ms) = d + 2 \/ suf = []) /\
    Z.of_nat (length ms) <= d + 2.
Proof.
  intros Hin. destruct (py_index cur todos) as [ci |] eqn:Ei;
    [| apply py_index_None in Ei; contradiction].
  destruct (py_index_Some _ _ _ Ei) as [Hci Hfirst].
  assert (Hlt : (ci < length todos)%nat)
    by (apply nth_error_Some; rewrite Hci; discriminate).
  unfold meses_mostrados. rewrite Ei. cbn zeta. unfold py_slice.
  replace (Z.to_nat (Z.max 0 (Z.of_nat ci - 3))) with (ci - 3)%nat by lia.
  replace (Z.to_nat (Z.min (Z.of_nat (length todos)) (Z.of_nat ci + 2)
                     - Z.max 0 (Z.of_nat ci - 3)))
    with (Nat.min (length todos) (ci + 2) - (ci - 3))%nat by lia.
  set (A := (ci - 3)%nat). set (L := (Nat.min (length todos) (ci + 2) - A)%nat).
  set (ms := firstn L (skipn A todos)).
  assert (Hnth : forall j, (j < L)%nat -> nth_error ms j = nth_error todos (A + j)).
  { intros j Hj. unfold ms. rewrite nth_error_firstn, nth_error_skipn.
    destruct (Nat.ltb_spec j L); [reflexivity | lia]. }
  assert (Hpi : py_index cur ms = Some (ci - A)%nat).
  { apply py_index_of.
    - rewrite Hnth by (unfold L, A; lia). replace (A + (ci - A))%nat with ci by (unfold A; lia).
      exact Hci.
    - intros j Hj. rewrite Hnth by (unfold L, A; lia). apply Hfirst. unfold A in *. lia. }
  rewrite Hpi. cbn [fst snd].
  assert (Hlen : length ms = L) by (unfold ms; rewrite length_firstn, length_skipn; unfold L, A; lia).
  exists (firstn A todos), (skipn L (skipn A todos)).
  rewrite Nat2Z.id. split.
  { unfold ms. rewrite !firstn_skipn. reflexivity. }
  split; [unfold A; lia |]. split.
  { rewrite Hnth by (unfold L, A; lia). replace (A + (ci - A))%nat with ci by (unfold A; lia).
    exact Hci. }
  split.
  { intros j Hj. rewrite Hnth by (unfold L, A; lia). apply Hfirst. unfold A in *. lia. }
  split.
  { destruct (Nat.le_gt_cases 3 ci); [left; unfold A; lia |].
    right. replace A with O by (unfold A; lia). reflexivity. }
  split.
  { destruct (Nat.le_gt_cases (ci + 2) (length todos)); [left; rewrite Hlen; unfold L, A; lia |].
    right. apply length_zero_iff_nil. rewrite !length_skipn. unfold L, A. lia. }
  rewrite Hlen. unfold L, A. lia.
Qed.

Lemma meses_mostrados_con_actual_witness :
  In (2024, 5) [(2024, 1); (2024, 2); (2024, 3); (2024, 4); (2024, 5); (2024, 6); (2024, 7)] /\
  let ms := fst (meses_mostrados
                   [(2024, 1); (2024, 2); (2024, 3); (2024, 4); (2024, 5); (2024, 6); (2024, 7)]
                   (2024, 5)) in
  let d := snd (meses_mostrados
                  [(2024, 1); (2024, 2); (2024, 3); (2024, 4); (2024, 5); (2024, 6); (2024, 7)]
                  (2024, 5)) in
  exists pre suf,
    [(2024, 1); (2024, 2); (2024, 3); (2024, 4); (2024, 5); (2024, 6); (2024, 7)]
      = pre ++ ms ++ suf /\
    0 <= d <= 3 /\ nth_error ms (Z.to_nat d) = Some (2024, 5) /\
    (forall j, (j < Z.to_nat d)%nat -> nth_error ms j <> Some (2024, 5)) /\
    (d = 3 \/ pre = []) /\
    (Z.of_nat (length ms) = d + 2 \/ suf = []) /\
    Z.of_nat (length ms) <= d + 2.
Proof.
  assert (H : In (2024, 5)
                [(2024, 1); (2024, 2); (2024, 3); (2024, 4); (2024, 5); (2024, 6); (2024, 7)])
    by (simpl; tauto).
  split; [exact H | exact (meses_mostrados_con_actual _ _ H)].
Defined.

(** When the current month has no sheet, the selector shows the last five
    months (all of them when there are fewer) and selects the last one. *)
Theorem meses_mostrados_sin_actual (todos : list (Z * Z)) (cur : Z * Z) :
  ~ In cur todos ->
  let ms := fst (meses_mostrados todos cur) in
  let d := snd (meses_mostrados todos cur) in
  (exists pre, todos = pre ++ ms) /\
  length ms = Nat.min 5 (length todos) /\
  d = Z.of_nat (length ms) - 1.
Proof.
  intros Hn. apply py_index_None in Hn. unfold meses_mostrados. rewrite Hn. cbn [fst snd].
  split; [| split; [| reflexivity]].
  - destruct (Nat.ltb_spec 5 (length todos)).
    + exists (firstn (length todos - 5) todos). symmetry. apply firstn_skipn.
    + exists []. reflexivity.
  - destruct (Nat.ltb_spec 5 (length todos)); [rewrite length_skipn |]; lia.
Qed.

Lemma meses_mostrados_sin_actual_witness :
  ~ In (2025, 1) [(2024, 1); (2024, 2); (2024, 3); (2024, 4); (2024, 5); (2024, 6); (2024, 7)] /\
  let ms := fst (meses_mostrados
                   [(2024, 1); (2024, 2); (2024, 3); (2024, 4); (2024, 5); (2024, 6); (2024, 7)]
                   (2025, 1)) in
  let d := snd (meses_mostrados
                  [(2024, 1); (2024, 2); (2024, 3); (2024, 4); (2024, 5); (2024, 6); (2024, 7)]
                  (2025, 1)) in
  (exists pre,
     [(2024, 1); (2024, 2); (2024, 3); (2024, 4); (2024, 5); (2024, 6); (2024, 7)] = pre ++ ms) /\
  length ms = Nat.min 5 7 /\
  d = Z.of_nat (length ms) - 1.
Proof.
  assert (H : ~ In (2025, 1)
                [(2024, 1); (2024, 2); (2024, 3); (2024, 4); (2024, 5); (2024, 6); (2024, 7)]).
  { apply py_index_None. reflexivity. }
  split; [exact H | exact (meses_mostrados_sin_actual _ _ H)].
Defined.

(* ------------------------------------------------------------------ *)
(** ** The month summary and the table of [main] *)

Section DashboardFacts.

Variable cal_holidays : Z -> list date.
Variable lower_table : casing.
Variables anio mes_num : Z.

Lemma totales_fold (s : sheet Q) (a b c : Q) :
  let '(td, te, tc) :=
    fold_left (fun acc e =>
                 let '(td, te, tc) := acc in
                 if negb (no_productivo lower_table (fst e))
                 then (td + horas_disp_de cal_holidays anio mes_num (snd e),
                       te + horas_estimadas (snd e), tc + horas_cargadas (snd e))%Q
                 else acc) s (a, b, c) in
  td == (a + qsum (map horas_disponibles_buffer
                     (filas cal_holidays lower_table anio mes_num s)))%Q /\
  te == (b + qsum (map horas_estimadas_cor (filas cal_holidays lower_table anio mes_num s)))%Q /\
  tc == (c + qsum (map horas_cargadas_cor (filas cal_holidays lower_table anio mes_num s)))%Q.
Proof.
  revert a b c. induction s as [| e s IH]; intros a b c; simpl.
  - unfold qsum. simpl. split; [| split]; ring.
  - unfold filas in *. simpl.
    destruct (no_productivo lower_table (fst e)); simpl.
    + apply IH.
    + specialize (IH (a + horas_disp_de cal_holidays anio mes_num (snd e))%Q
                     (b + horas_estimadas (snd e))%Q (c + horas_cargadas (snd e))%Q).
      destruct (fold_left _ s _) as [[td te] tc]. destruct IH as [H1 [H2 H3]].
      unfold qsum in *. simpl. rewrite H1, H2, H3. split; [| split]; ring.
Qed.

(** The three totals of the month summary are the sums of the three
    columns of the table (before rounding): both skip the same
    non-productive employees. *)
Theorem totales_filas (s : sheet Q) :
  let '(td, te, tc) := totales cal_holidays lower_table anio mes_num s in
  td == qsum (map horas_disponibles_buffer (filas cal_holidays lower_table anio mes_num s)) /\
  te == qsum (map horas_estimadas_cor (filas cal_holidays lower_table anio mes_num s)) /\
  tc == qsum (map horas_cargadas_cor (filas cal_holidays lower_table anio mes_num s)).
Proof.
  unfold totales. pose proof (totales_fold s 0 0 0) as H.
  destruct (fold_left _ s _) as [[td te] tc]. destruct H as [H1 [H2 H3]].
  rewrite H1, H2, H3. split; [| split]; ring.
Qed.

Lemma Qle_bool_false (a b : Q) : Qle_bool a b = false -> (b < a)%Q.
Proof.
  intros H. apply Qnot_le_lt. intros Hle. apply Qle_bool_iff in Hle. congruence.
Qed.

(** Each row of the table is an employee of the sheet who is not
    non-productive, with available hours [>= 0] and a load of at most
    100 %; the load is 0 when no hours are available and is not negative
    when the estimated hours are not. *)
Theorem filas_valores (s : sheet Q) (r : fila) :
  In r (filas cal_holidays lower_table anio mes_num s) ->
  no_productivo lower_table (colaborador r) = false /\
  In (colaborador r) (map fst s) /\
  (0 <= horas_disponibles_buffer r)%Q /\
  (carga_pct r <= 100)%Q /\
  (horas_disponibles_buffer r == 0 -> carga_pct r == 0) /\
  ((0 <= horas_estimadas_cor r)%Q -> (0 <= carga_pct r)%Q).
Proof.
  unfold filas. intros Hr. apply in_map_iff in Hr as [[c info] [<- Hin]].
  apply filter_In in Hin as [Hin Hnp]. simpl in Hnp. apply negb_true_iff in Hnp.
  unfold fila_de. cbn [colaborador carga_pct horas_disponibles_buffer horas_estimadas_cor fst snd].
  assert (Hd : (0 <= horas_disp_de cal_holidays anio mes_num info)%Q)
    by (unfold horas_disp_de, calcular_horas_disponibles; apply py_max_0_nonneg).
  set (hd := horas_disp_de cal_holidays anio mes_num info) in *.
  set (he := horas_estimadas info).
  split; [exact Hnp |]. split; [apply in_map_iff; exists (c, info); auto |].
  split; [exact Hd |].
  unfold py_min, porcentaje. split; [| split].
  - destruct (Qle_bool hd 0).
    + destruct (Qle_bool 0 100) eqn:E; [discriminate |]. apply Qle_bool_false in E. lra.
    + destruct (Qle_bool (he / hd * 100) 100) eqn:E; [apply Qle_bool_iff; exact E |].
      apply Qle_refl.
  - intros H0. assert (E : Qle_bool hd 0 = true)
      by (apply Qle_bool_iff; rewrite H0; apply Qle_refl).
    rewrite E. reflexivity.
  - intros Hhe. destruct (Qle_bool hd 0) eqn:Eh.
    + simpl. lra.
    + apply Qle_bool_false in Eh.
      assert (Hp : (0 <= he / hd * 100)%Q).
      { apply Qmult_le_0_compat; [| lra]. apply Qle_shift_div_l; [exact Eh | lra]. }
      destruct (Qle_bool (he / hd * 100) 100); [exact Hp | lra].
Qed.

End DashboardFacts.

Lemma filas_valores_witness :
  In (fila_de catalonia_holidays 2025 3 (u "albert sunyer vilafranca", mkemp (3 # 1) 0%Q 0 0 0))
     (filas catalonia_holidays latin1_lower_table 2025 3 hoja_marzo) /\
  let r := fila_de catalonia_holidays 2025 3
             (u "albert sunyer vilafranca", mkemp (3 # 1) 0%Q 0 0 0) in
  no_productivo latin1_lower_table (colaborador r) = false /\
  In (colaborador r) (map fst hoja_marzo) /\
  (0 <= horas_disponibles_buffer r)%Q /\
  (carga_pct r <= 100)%Q /\
  (horas_disponibles_buffer r == 0 -> carga_pct r == 0) /\
  ((0 <= horas_estimadas_cor r)%Q -> (0 <= carga_pct r)%Q).
Proof.
  assert (H : In (fila_de catalonia_holidays 2025 3
                    (u "albert sunyer vilafranca", mkemp (3 # 1) 0%Q 0 0 0))
                 (filas catalonia_holidays latin1_lower_table 2025 3 hoja_marzo)).
  { unfold filas. apply (in_map (fila_de catalonia_holidays 2025 3)).
    apply (proj2 (filter_In _ _ _)). split; [left; reflexivity | vm_compute; reflexivity]. }
  split; [exact H | exact (filas_valores _ _ _ _ _ _ H)].
Defined.

(* ------------------------------------------------------------------ *)
(** ** The download loops *)

Lemma concat_seq_S {A : Type} (f : nat -> list A) (n : nat) :
  concat (map f (seq 0 (S n))) = f O ++ concat (map (fun i => f (S i)) (seq 0 n)).
Proof.
  simpl. f_equal. rewrite <- seq_shift, map_map. reflexivity.
Qed.

Lemma descargar_tareas_gen (obtener : Z -> respuesta_cor) (page : Z) (acc result : list (task Q)) :
  descargar_tareas obtener page acc result ->
  exists n : nat,
    result = acc ++ concat (map (fun i => filter tarea_con_horas
                                           (datos_cor (obtener (page + Z.of_nat i))))
                                (seq 0 n)) /\
    (forall i, (i < n)%nat -> datos_cor (obtener (page + Z.of_nat i)) <> []) /\
    datos_cor (obtener (page + Z.of_nat n)) = [].
Proof.
  induction 1 as [page acc H | page acc H | page acc H | page acc tk tks result H _ IH].
  1-3: exists O; rewrite Z.add_0_r, H; simpl; rewrite app_nil_r;
       split; [reflexivity | split; [intros i Hi; lia | reflexivity]].
  destruct IH as [n [Hr [Hne Hend]]]. exists (S n). split; [| split].
  - rewrite Hr, concat_seq_S, <- app_assoc. rewrite Z.add_0_r, H. f_equal. f_equal.
    f_equal. apply map_ext. intros i. do 3 f_equal. lia.
  - intros [| i] Hi.
    + rewrite Z.add_0_r, H. discriminate.
    + replace (page + Z.of_nat (S i)) with (page + 1 + Z.of_nat i) by lia. apply Hne. lia.
  - replace (page + Z.of_nat (S n)) with (page + 1 + Z.of_nat n) by lia. exact Hend.
Qed.

(** [all_tasks] is the concatenation, page after page from page 1, of the
    tasks with charged or estimated hours; every page read before the last
    has tasks, and the loop stops at the first page with none (an error
    status, no ["data"] key, or an empty list). *)
Theorem descargar_tareas_paginas (obtener : Z -> respuesta_cor) (all_tasks : list (task Q)) :
  descargar_tareas obtener 1 [] all_tasks ->
  exists n : nat,
    all_tasks = concat (map (fun i => filter tarea_con_horas (datos_cor (obtener (1 + Z.of_nat i))))
                          (seq 0 n)) /\
    (forall i, (i < n)%nat -> datos_cor (obtener (1 + Z.of_nat i)) <> []) /\
    datos_cor (obtener (1 + Z.of_nat n)) = [] /\
    Forall (fun tk => tarea_con_horas tk = true) all_tasks.
Proof.
  intros H. destruct (descargar_tareas_gen _ _ _ _ H) as [n [Hr [Hne Hend]]].
  exists n. split; [exact Hr | split; [exact Hne | split; [exact Hend |]]].
  rewrite Hr. simpl. apply Forall_forall. intros tk Htk.
  apply in_concat in Htk as [l [Hl Htk]]. apply in_map_iff in Hl as [i [<- _]].
  apply filter_In in Htk as [_ Htk]. exact Htk.
Qed.

Lemma descargar_tareas_paginas_witness :
  descargar_tareas obtener_ej 1 [] [tarea_2h] /\
  exists n : nat,
    [tarea_2h] = concat (map (fun i => filter tarea_con_horas (datos_cor (obtener_ej (1 + Z.of_nat i))))
                           (seq 0 n)) /\
    (forall i, (i < n)%nat -> datos_cor (obtener_ej (1 + Z.of_nat i)) <> []) /\
    datos_cor (obtener_ej (1 + Z.of_nat n)) = [] /\
    Forall (fun tk => tarea_con_horas tk = true) [tarea_2h].
Proof.
  assert (H : descargar_tareas obtener_ej 1 [] [tarea_2h]).
  { apply (dt_pagina _ 1 [] tarea_2h [tarea_0h]); [reflexivity |].
    apply dt_none. reflexivity. }
  split; [exact H | exact (descargar_tareas_paginas _ _ H)].
Defined.

Lemma obtener_ausencias_gen (get_page : Z -> res (list leave * bool)) (page : Z)
    (acc : list leave) (r : res (list leave)) :
  obtener_ausencias_rel get_page page acc r ->
  exists n : nat,
    (forall i, (i < n)%nat -> exists a l, get_page (page + Z.of_nat i) = Ok (a :: l, true)) /\
    match r with
    | Err e => get_page (page + Z.of_nat n) = Err e
    | Ok all =>
        all = acc ++ concat (map (fun i => ausencias_pagina (get_page (page + Z.of_nat i)))
                                 (seq 0 (S n))) /\
        ((exists next, get_page (page + Z.of_nat n) = Ok ([], next)) \/
         (exists a l, get_page (page + Z.of_nat n) = Ok (a :: l, false)))
    end.
Proof.
  induction 1 as [page acc e H | page acc next H | page acc a l H | page acc a l r H _ IH].
  - exists O. rewrite Z.add_0_r. split; [intros i Hi; lia | exact H].
  - exists O. split; [intros i Hi; lia |]. simpl. rewrite Z.add_0_r, H.
    simpl. rewrite !app_nil_r. split; [reflexivity | left; exists next; reflexivity].
  - exists O. split; [intros i Hi; lia |]. simpl. rewrite Z.add_0_r, H.
    simpl. rewrite !app_nil_r. split; [reflexivity | right; exists a, l; reflexivity].
  - destruct IH as [n [Hpre Hr]]. exists (S n). split.
    + intros [| i] Hi.
      * rewrite Z.add_0_r. exists a, l. exact H.
      * replace (page + Z.of_nat (S i)) with (page + 1 + Z.of_nat i) by lia. apply Hpre. lia.
    + replace (page + Z.of_nat (S n)) with (page + 1 + Z.of_nat n) by lia.
      destruct r as [all | e]; [| exact Hr]. destruct Hr as [Hall Hend].
      split; [| exact Hend]. rewrite Hall, (concat_seq_S _ (S n)), Z.add_0_r, H.
      simpl ausencias_pagina. rewrite <- app_assoc. f_equal. f_equal. f_equal.
      apply map_ext. intros i. do 2 f_equal. lia.
Qed.

(** [obtener_ausencias] either raises, at a page reached after pages that
    all had leaves and announced a next page, or returns the leaves of the
    pages from page 1 in order, up to the first page that is empty or does
    not announce a next one. *)
Theorem obtener_ausencias_paginas (get_page : Z -> res (list leave * bool))
    (r : res (list leave)) :
  obtener_ausencias_rel get_page 1 [] r ->
  exists n : nat,
    (forall i, (i < n)%nat -> exists a l, get_page (1 + Z.of_nat i) = Ok (a :: l, true)) /\
    match r with
    | Err e => get_page (1 + Z.of_nat n) = Err e
    | Ok all =>
        all = concat (map (fun i => ausencias_pagina (get_page (1 + Z.of_nat i)))
                          (seq 0 (S n))) /\
        ((exists next, get_page (1 + Z.of_nat n) = Ok ([], next)) \/
         (exists a l, get_page (1 + Z.of_nat n) = Ok (a :: l, false)))
    end.
Proof.
  intros H. exact (obtener_ausencias_gen _ _ _ _ H).
Qed.

Lemma obtener_ausencias_paginas_witness :
  obtener_ausencias_rel paginas_ej 1 [] (Ok [leave_mar_apr; leave_ana]) /\
  exists n : nat,
    (forall i, (i < n)%nat -> exists a l, paginas_ej (1 + Z.of_nat i) = Ok (a :: l, true)) /\
    [leave_mar_apr; leave_ana] = concat (map (fun i => ausencias_pagina (paginas_ej (1 + Z.of_nat i)))
                                           (seq 0 (S n))) /\
    ((exists next, paginas_ej (1 + Z.of_nat n) = Ok ([], next)) \/
     (exists a l, paginas_ej (1 + Z.of_nat n) = Ok (a :: l, false))).
Proof.
  assert (H : obtener_ausencias_rel paginas_ej 1 [] (Ok [leave_mar_apr; leave_ana])).
  { apply (oa_siguiente _ 1 [] leave_mar_apr []); [reflexivity |].
    apply (oa_ultima _ 2 [leave_mar_apr] leave_ana []). reflexivity. }
  split; [exact H | exact (obtener_ausencias_paginas _ _ H)].
Defined.

(* ------------------------------------------------------------------ *)
(** ** Whitespace of [normalizar_nombre] *)

Lemma py_split_good (s : list Z) : Forall good_word (py_split s).
Proof.
  apply Forall_forall. intros w Hw.
  exact (proj1 (py_split_aux_words [] s eq_refl w Hw)).
Qed.

Lemma nombre_mapping_values_joined :
  forall k v, In (k, v) NOMBRE_MAPPING -> py_join [32] (py_split v) = v.
Proof.
  intros k v Hin. simpl in Hin.
  repeat destruct Hin as [Hin | Hin]; try (injection Hin as <- <-; vm_compute; reflexivity).
  destruct Hin.
Qed.

(** Whatever the lowercase table, a normalized name is words without
    whitespace joined by single spaces (also the values of
    [NOMBRE_MAPPING]): no leading, trailing or repeated whitespace, so
    [' '.join(y.strip().split())] gives it back. *)
Theorem normalizar_nombre_espacios (t : casing) (x : list Z) :
  (exists ws, Forall good_word ws /\ normalizar_nombre t x = py_join [32] ws) /\
  py_join [32] (py_split (py_strip (normalizar_nombre t x))) = normalizar_nombre t x.
Proof.
  assert (H : exists ws, Forall good_word ws /\ normalizar_nombre t x = py_join [32] ws).
  { unfold normalizar_nombre.
    set (n := py_join [32] (py_split (py_strip (py_lower t x)))).
    destruct (dict_get_cases n NOMBRE_MAPPING n) as [-> | [k Hk]].
    - exists (py_split (py_strip (py_lower t x))). split; [apply py_split_good | reflexivity].
    - exists (py_split (dict_get n NOMBRE_MAPPING n)). split; [apply py_split_good |].
      symmetry. exact (nombre_mapping_values_joined _ _ Hk). }
  split; [exact H |]. destruct H as [ws [Hg ->]].
  rewrite py_strip_join, py_split_join by exact Hg. reflexivity.
Qed.
